(** * The [src lsif upload] command (cmd/src/lsif_upload.go)

    A shallow embedding of the upload handler and of [parseRemoteURL],
    [gzipReader] and [isFlagSet], together with the parts of the Go
    standard library they call (strings, unicode/utf8, path/filepath,
    net/url, encoding/json, encoding/base64, flag), followed by the
    properties of the upload pipeline.

    Go strings are byte sequences: they are modelled as [string] (a list
    of 8-bit [ascii] values), integers as [Z] or [nat], Go maps as
    [gmap].  The operating-system dependent package path/filepath is
    modelled for the platforms whose separator is a slash
    (linux, darwin). *)

From Stdlib Require Import ZArith NArith Ascii String List Bool Lia.
From stdpp Require Import base option list gmap strings sorting relations.

#[local] Open Scope Z_scope.
#[local] Set Warnings "-register-all".
#[local] Arguments String.append : simpl nomatch.

(** ** Bytes and slices *)

Definition byteZ (c : ascii) : Z := Z.of_N (N_of_ascii c).
Definition byte_of_Z (z : Z) : ascii := ascii_of_N (Z.to_N (z mod 256)).

Definition in_range (lo hi : Z) (c : ascii) : bool :=
  (lo <=? byteZ c) && (byteZ c <=? hi).

Definition len (s : string) : nat := String.length s.

(** [s[n:]] *)
Fixpoint drop_bytes (n : nat) (s : string) : string :=
  match n, s with
  | O, _ => s
  | S n', String _ s' => drop_bytes n' s'
  | S _, EmptyString => EmptyString
  end.

(** [s[:n]] *)
Fixpoint take_bytes (n : nat) (s : string) : string :=
  match n, s with
  | O, _ => EmptyString
  | S n', String c s' => String c (take_bytes n' s')
  | S _, EmptyString => EmptyString
  end.

(** [s[i:j]] *)
Definition slice (i j : nat) (s : string) : string :=
  take_bytes (j - i) (drop_bytes i s).

Fixpoint all_bytes (p : ascii -> bool) (s : string) : bool :=
  match s with
  | EmptyString => true
  | String c s' => p c && all_bytes p s'
  end.

Fixpoint map_bytes (f : ascii -> ascii) (s : string) : string :=
  match s with
  | EmptyString => EmptyString
  | String c s' => String (f c) (map_bytes f s')
  end.

Definition is_lower (c : ascii) : bool := in_range 97 122 c.
Definition is_upper (c : ascii) : bool := in_range 65 90 c.
Definition is_digit (c : ascii) : bool := in_range 48 57 c.
Definition is_letter (c : ascii) : bool := is_lower c || is_upper c.
Definition is_alnum (c : ascii) : bool := is_letter c || is_digit c.

(** ** unicode/utf8 *)
Module utf8.

Definition RuneError : Z := 0xFFFD.
Definition RuneSelf : Z := 0x80.
Definition MaxRune : Z := 0x10FFFF.
Definition UTFMax : nat := 4.

Definition cont (c : ascii) : Z := Z.land (byteZ c) 0x3F.

(** The range accepted for the second byte of a sequence, by its first
    byte (the [first] and [acceptRanges] tables). *)
Definition accept (b0 : Z) : Z * Z :=
  if b0 =? 0xE0 then (0xA0, 0xBF)
  else if b0 =? 0xED then (0x80, 0x9F)
  else if b0 =? 0xF0 then (0x90, 0xBF)
  else if b0 =? 0xF4 then (0x80, 0x8F)
  else (0x80, 0xBF).

(** Number of bytes announced by the first byte; 0 for a byte that cannot
    start a sequence. *)
Definition seq_len (b0 : Z) : nat :=
  if b0 <? 0x80 then 1%nat
  else if (0xC2 <=? b0) && (b0 <=? 0xDF) then 2%nat
  else if (0xE0 <=? b0) && (b0 <=? 0xEF) then 3%nat
  else if (0xF0 <=? b0) && (b0 <=? 0xF4) then 4%nat
  else 0%nat.

Definition DecodeRuneInString (s : string) : Z * nat :=
  match s with
  | EmptyString => (RuneError, 0%nat)
  | String c0 rest =>
    let b0 := byteZ c0 in
    let '(lo, hi) := accept b0 in
    match seq_len b0, rest with
    | 1%nat, _ => (b0, 1%nat)
    | 2%nat, String c1 _ =>
      if in_range lo hi c1
      then (Z.lor (Z.shiftl (Z.land b0 0x1F) 6) (cont c1), 2%nat)
      else (RuneError, 1%nat)
    | 3%nat, String c1 (String c2 _) =>
      if in_range lo hi c1 && in_range 0x80 0xBF c2
      then (Z.lor (Z.lor (Z.shiftl (Z.land b0 0x0F) 12)
                         (Z.shiftl (cont c1) 6)) (cont c2), 3%nat)
      else (RuneError, 1%nat)
    | 4%nat, String c1 (String c2 (String c3 _)) =>
      if in_range lo hi c1 && in_range 0x80 0xBF c2 && in_range 0x80 0xBF c3
      then (Z.lor (Z.lor (Z.lor (Z.shiftl (Z.land b0 0x07) 18)
                                (Z.shiftl (cont c1) 12))
                         (Z.shiftl (cont c2) 6)) (cont c3), 4%nat)
      else (RuneError, 1%nat)
    | _, _ => (RuneError, 1%nat)
    end
  end.

Definition is_surrogate (r : Z) : bool := (0xD800 <=? r) && (r <=? 0xDFFF).

Definition tail_byte (r : Z) (shift : Z) : ascii :=
  byte_of_Z (Z.lor 0x80 (Z.land (Z.shiftr r shift) 0x3F)).

Definition encode3 (r : Z) : string :=
  String (byte_of_Z (Z.lor 0xE0 (Z.shiftr r 12)))
    (String (tail_byte r 6) (String (tail_byte r 0) EmptyString)).

(** [utf8.EncodeRune], as the bytes it writes. *)
Definition EncodeRune (r : Z) : string :=
  if (0 <=? r) && (r <=? 0x7F) then String (byte_of_Z r) EmptyString
  else if (0 <=? r) && (r <=? 0x7FF) then
    String (byte_of_Z (Z.lor 0xC0 (Z.shiftr r 6)))
      (String (tail_byte r 0) EmptyString)
  else if (r <? 0) || (MaxRune <? r) || is_surrogate r then encode3 RuneError
  else if r <=? 0xFFFF then encode3 r
  else
    String (byte_of_Z (Z.lor 0xF0 (Z.shiftr r 18)))
      (String (tail_byte r 12) (String (tail_byte r 6)
         (String (tail_byte r 0) EmptyString))).

(** [utf8.RuneStart]: not a continuation byte. *)
Definition RuneStart (c : ascii) : bool :=
  negb (Z.land (byteZ c) 0xC0 =? 0x80).

(** The runes of [for _, r := range s], each with the number of bytes it
    spans.  [skip] counts the bytes still covered by the previous rune. *)
Fixpoint range_go (skip : nat) (s : string) : list (Z * nat) :=
  match s with
  | EmptyString => []
  | String _ s' =>
    match skip with
    | S k => range_go k s'
    | O => let d := DecodeRuneInString s in d :: range_go (snd d - 1) s'
    end
  end.

Definition range (s : string) : list (Z * nat) := range_go 0 s.

(** Scan back from [start] to [lim] for a byte that can start a rune. *)
Fixpoint back_to_start (fuel : nat) (s : string) (start lim : Z) : Z :=
  match fuel with
  | O => start
  | S fuel' =>
    if start <? lim then start
    else match String.get (Z.to_nat start) s with
         | Some c => if RuneStart c then start
                     else back_to_start fuel' s (start - 1) lim
         | None => start
         end
  end.

Definition DecodeLastRuneInString (s : string) : Z * nat :=
  let e := Z.of_nat (len s) in
  if e =? 0 then (RuneError, 0%nat)
  else
    match String.get (Z.to_nat (e - 1)) s with
    | None => (RuneError, 0%nat)
    | Some c =>
      if byteZ c <? RuneSelf then (byteZ c, 1%nat)
      else
        let lim := Z.max 0 (e - Z.of_nat UTFMax) in
        let start := back_to_start UTFMax s (e - 2) lim in
        let start := Z.max 0 start in
        let '(r, size) := DecodeRuneInString (drop_bytes (Z.to_nat start) s) in
        if start + Z.of_nat size =? e then (r, size) else (RuneError, 1%nat)
    end.

End utf8.

(** ** unicode *)
Module unicode.

(** The lower-case mapping of the runes above ASCII comes from the
    generated table [unicode.CaseRanges], which the upload handler only
    reaches through [strings.ToLower]; the table is a parameter here. *)
Definition CaseTable : Type := Z -> Z.

Definition ToLower (tab : CaseTable) (r : Z) : Z :=
  if r <=? 0x7F then
    if (65 <=? r) && (r <=? 90) then r + 32 else r
  else tab r.

(** [unicode.IsSpace]: the Latin-1 cases, then the [White_Space] ranges. *)
Definition IsSpace (r : Z) : bool :=
  if (0 <=? r) && (r <=? 0xFF) then
    ((9 <=? r) && (r <=? 13)) || (r =? 32) || (r =? 0x85) || (r =? 0xA0)
  else
    (r =? 0x1680) || ((0x2000 <=? r) && (r <=? 0x200A)) ||
    (r =? 0x2028) || (r =? 0x2029) || (r =? 0x202F) ||
    (r =? 0x205F) || (r =? 0x3000).

End unicode.

(** ** strings *)
Module strings.

Definition HasPrefix (s prefix : string) : bool :=
  (len prefix <=? len s)%nat && String.eqb (take_bytes (len prefix) s) prefix.

Definition HasSuffix (s suffix : string) : bool :=
  (len suffix <=? len s)%nat &&
  String.eqb (drop_bytes (len s - len suffix) s) suffix.

Definition TrimPrefix (s prefix : string) : string :=
  if HasPrefix s prefix then drop_bytes (len prefix) s else s.

Definition TrimSuffix (s suffix : string) : string :=
  if HasSuffix s suffix then take_bytes (len s - len suffix) s else s.

(** First index of [substr] in [s]; [None] stands for Go's [-1]. *)
Fixpoint Index (s substr : string) : option nat :=
  if HasPrefix s substr then Some 0%nat
  else match s with
       | EmptyString => None
       | String _ s' => S <$> Index s' substr
       end.

Fixpoint LastIndex (s substr : string) : option nat :=
  match s with
  | EmptyString => if HasPrefix s substr then Some 0%nat else None
  | String _ s' =>
    match LastIndex s' substr with
    | Some i => Some (S i)
    | None => if HasPrefix s substr then Some 0%nat else None
    end
  end.

Definition Contains (s substr : string) : bool := bool_decide (is_Some (Index s substr)).

Definition Cut (s sep : string) : string * string * bool :=
  match Index s sep with
  | Some i => (take_bytes i s, drop_bytes (i + len sep) s, true)
  | None => (s, EmptyString, false)
  end.

(** One string per rune of [s] (the empty-separator case of [Split]). *)
Fixpoint explode (fuel : nat) (s : string) : list string :=
  match fuel, s with
  | S fuel', String _ _ =>
    let size := snd (utf8.DecodeRuneInString s) in
    take_bytes size s :: explode fuel' (drop_bytes size s)
  | _, _ => []
  end.

(** Non-overlapping occurrences of a non-empty [sep], left to right. *)
Fixpoint split_go (fuel : nat) (s sep : string) : list string :=
  match fuel with
  | O => [s]
  | S fuel' =>
    match Index s sep with
    | Some m => take_bytes m s :: split_go fuel' (drop_bytes (m + len sep) s) sep
    | None => [s]
    end
  end.

Definition Split (s sep : string) : list string :=
  if String.eqb sep EmptyString then explode (len s) s
  else split_go (len s) s sep.

Definition Count (s substr : string) : nat :=
  if String.eqb substr EmptyString then S (length (utf8.range s))
  else (length (split_go (len s) s substr) - 1)%nat.

(** [strings.Map]: a negative result drops the rune. *)
Definition Map (mapping : Z -> Z) (s : string) : string :=
  foldr (fun d acc =>
           let r := mapping (fst d) in
           if 0 <=? r then String.append (utf8.EncodeRune r) acc else acc)
        EmptyString (utf8.range s).

Definition lower_byte (c : ascii) : ascii :=
  if is_upper c then byte_of_Z (byteZ c + 32) else c.

Definition isASCII (s : string) : bool :=
  all_bytes (fun c => byteZ c <? utf8.RuneSelf) s.

Definition ToLower (tab : unicode.CaseTable) (s : string) : string :=
  if isASCII s then map_bytes lower_byte s
  else Map (unicode.ToLower tab) s.

Fixpoint indexFunc_go (f : Z -> bool) (truth : bool)
    (rs : list (Z * nat)) (i : nat) : option nat :=
  match rs with
  | [] => None
  | (r, size) :: rs' =>
    if Bool.eqb (f r) truth then Some i else indexFunc_go f truth rs' (i + size)
  end.

Definition indexFunc (s : string) (f : Z -> bool) (truth : bool) : option nat :=
  indexFunc_go f truth (utf8.range s) 0.

Fixpoint lastIndexFunc_go (fuel : nat) (s : string) (f : Z -> bool)
    (truth : bool) (i : nat) : option nat :=
  match fuel, i with
  | S fuel', S _ =>
    let '(r, size) := utf8.DecodeLastRuneInString (take_bytes i s) in
    let i' := (i - size)%nat in
    if Bool.eqb (f r) truth then Some i'
    else lastIndexFunc_go fuel' s f truth i'
  | _, _ => None
  end.

Definition lastIndexFunc (s : string) (f : Z -> bool) (truth : bool) : option nat :=
  lastIndexFunc_go (len s) s f truth (len s).

Definition TrimLeftFunc (s : string) (f : Z -> bool) : string :=
  match indexFunc s f false with
  | None => EmptyString
  | Some i => drop_bytes i s
  end.

Definition TrimRightFunc (s : string) (f : Z -> bool) : string :=
  match lastIndexFunc s f false with
  | Some i =>
    match String.get i s with
    | Some c =>
      if utf8.RuneSelf <=? byteZ c
      then take_bytes (i + snd (utf8.DecodeRuneInString (drop_bytes i s))) s
      else take_bytes (S i) s
    | None => take_bytes (S i) s
    end
  | None => EmptyString
  end.

Definition TrimFunc (s : string) (f : Z -> bool) : string :=
  TrimRightFunc (TrimLeftFunc s f) f.

Definition asciiSpace (c : ascii) : bool :=
  in_range 9 13 c || (byteZ c =? 32).

(** The ASCII fast path of [TrimSpace]: skip leading ASCII space; a byte
    above ASCII hands the rest over to [TrimFunc]. *)
Fixpoint TrimSpace_start (s : string) : string + string :=
  match s with
  | EmptyString => inl s
  | String c s' =>
    if utf8.RuneSelf <=? byteZ c then inr (TrimFunc s unicode.IsSpace)
    else if asciiSpace c then TrimSpace_start s'
    else inl s
  end.

Fixpoint TrimSpace_stop (fuel : nat) (s : string) (stop : nat) : string :=
  match fuel, stop with
  | S fuel', S stop' =>
    match String.get stop' s with
    | Some c =>
      if utf8.RuneSelf <=? byteZ c
      then TrimRightFunc (take_bytes stop s) unicode.IsSpace
      else if asciiSpace c then TrimSpace_stop fuel' s stop'
      else take_bytes stop s
    | None => take_bytes stop s
    end
  | _, _ => take_bytes stop s
  end.

Definition TrimSpace (s : string) : string :=
  match TrimSpace_start s with
  | inr r => r
  | inl s1 => TrimSpace_stop (len s1) s1 (len s1)
  end.

End strings.

(** ** path/filepath (slash-separated platforms) *)
Module filepath.

Definition Separator : ascii := "/"%char.

Definition IsPathSeparator (c : ascii) : bool := Ascii.eqb c Separator.

(** [r == n || IsPathSeparator(path[r])] on the unread part of the path. *)
Definition at_element_end (rest : string) : bool :=
  match rest with
  | EmptyString => true
  | String c _ => IsPathSeparator c
  end.

(** The inner loop of the [..] case: [w] has already been decremented. *)
Fixpoint backtrack (fuel : nat) (buf : string) (w dotdot : nat) : nat :=
  match fuel with
  | O => w
  | S fuel' =>
    if (dotdot <? w)%nat &&
       negb (from_option IsPathSeparator false (String.get w buf))
    then backtrack fuel' buf (w - 1) dotdot
    else w
  end.

(** Copy one path element to the buffer; returns the buffer and the
    unread rest. *)
Fixpoint copy_element (rest out : string) : string * string :=
  match rest with
  | EmptyString => (out, rest)
  | String c rest' =>
    if IsPathSeparator c then (out, rest)
    else copy_element rest' (String.append out (String c EmptyString))
  end.

(** The main loop of [Clean]: [rest] is [path[r:]], [out] the bytes
    written so far (so [out.w] is [len out]). *)
Fixpoint clean_loop (fuel : nat) (rooted : bool) (rest out : string)
    (dotdot : nat) : string :=
  match fuel with
  | O => out
  | S fuel' =>
    let real_element :=
      let out1 :=
        if (rooted && negb (len out =? 1)%nat) ||
           (negb rooted && negb (len out =? 0)%nat)
        then String.append out (String Separator EmptyString) else out in
      let '(out2, rest2) := copy_element rest out1 in
      clean_loop fuel' rooted rest2 out2 dotdot in
    match rest with
    | EmptyString => out
    | String c r1 =>
      if IsPathSeparator c then clean_loop fuel' rooted r1 out dotdot
      else if Ascii.eqb c "."%char && at_element_end r1
      then clean_loop fuel' rooted r1 out dotdot
      else
        match r1 with
        | String c1 r2 =>
          if Ascii.eqb c "."%char && Ascii.eqb c1 "."%char && at_element_end r2
          then
            if (dotdot <? len out)%nat then
              let w := backtrack (len out) out (len out - 1) dotdot in
              clean_loop fuel' rooted r2 (take_bytes w out) dotdot
            else if negb rooted then
              let out1 :=
                if (0 <? len out)%nat
                then String.append out (String Separator EmptyString) else out in
              let out2 := String.append out1 ".." in
              clean_loop fuel' rooted r2 out2 (len out2)
            else clean_loop fuel' rooted r2 out dotdot
          else real_element
        | EmptyString => real_element
        end
    end
  end.

Definition Clean (path : string) : string :=
  match path with
  | EmptyString => "."
  | String c _ =>
    let rooted := IsPathSeparator c in
    let out :=
      if rooted
      then clean_loop (len path) rooted (drop_bytes 1 path)
             (String Separator EmptyString) 1
      else clean_loop (S (len path)) rooted path EmptyString 0 in
    if (len out =? 0)%nat then "." else out
  end.

Definition Dir (path : string) : string :=
  match strings.LastIndex path (String Separator EmptyString) with
  | Some i => Clean (take_bytes (S i) path)
  | None => Clean EmptyString
  end.

End filepath.

(** ** encoding/base64 *)
Module base64.

Definition encodeURL : string :=
  "ABCDEFGHIJKLMNOPQRSTUVWXYZabcdefghijklmnopqrstuvwxyz0123456789-_".

Definition StdPadding : ascii := "="%char.

Definition enc (i : Z) : ascii :=
  from_option id StdPadding (String.get (Z.to_nat i) encodeURL).

(** [base64.URLEncoding.EncodeToString]: three bytes give four symbols,
    the last group is padded. *)
Fixpoint EncodeToString (src : string) : string :=
  match src with
  | EmptyString => EmptyString
  | String a EmptyString =>
    let a := byteZ a in
    String (enc (Z.shiftr a 2))
      (String (enc (Z.shiftl (Z.land a 3) 4))
         (String StdPadding (String StdPadding EmptyString)))
  | String a (String b EmptyString) =>
    let a := byteZ a in let b := byteZ b in
    String (enc (Z.shiftr a 2))
      (String (enc (Z.lor (Z.shiftl (Z.land a 3) 4) (Z.shiftr b 4)))
         (String (enc (Z.shiftl (Z.land b 15) 2))
            (String StdPadding EmptyString)))
  | String a (String b (String c rest)) =>
    let a := byteZ a in let b := byteZ b in let c := byteZ c in
    String (enc (Z.shiftr a 2))
      (String (enc (Z.lor (Z.shiftl (Z.land a 3) 4) (Z.shiftr b 4)))
         (String (enc (Z.lor (Z.shiftl (Z.land b 15) 2) (Z.shiftr c 6)))
            (String (enc (Z.land c 63)) (EncodeToString rest))))
  end.

End base64.

(** ** Go error values

    One type for the values of Go's [error] interface that reach the
    handler: those built by [errors.New] and [fmt.Errorf], those of
    net/url and encoding/json, and the ones reported by collaborators
    outside the program (os, os/exec, net/http, compress/gzip, the
    browser launcher), which are opaque here. *)
Inductive error : Type :=
| errorString (msg : string)
| EscapeError (s : string)
| InvalidHostError (s : string)
| url_Error (op : string) (url : string) (err : error)
| SyntaxError (msg : string)
| UnmarshalTypeError (value : string)
| external (msg : string).

Definition result (A : Type) : Type := (A + error)%type.

Definition bind_result {A B} (m : result A) (k : A -> result B) : result B :=
  match m with
  | inl a => k a
  | inr e => inr e
  end.

Notation "'let?' x := m 'in' k" := (bind_result m (fun x => k))
  (at level 10, x pattern, m at level 200, k at level 200).

(** An ASCII control byte. *)
Definition is_ctl (c : ascii) : bool := (byteZ c <? 32) || (byteZ c =? 0x7F).

Fixpoint byte_in (c : ascii) (set : string) : bool :=
  match set with
  | EmptyString => false
  | String d set' => Ascii.eqb c d || byte_in c set'
  end.

(** ** net/url *)
Module url.

Inductive encoding :=
| encodePath | encodePathSegment | encodeHost | encodeZone
| encodeUserPassword | encodeQueryComponent | encodeFragment.

Definition is_host_mode (mode : encoding) : bool :=
  match mode with encodeHost | encodeZone => true | _ => false end.

Definition ishex (c : ascii) : bool :=
  is_digit c || in_range 97 102 c || in_range 65 70 c.

Definition unhex (c : ascii) : Z :=
  if is_digit c then byteZ c - 48
  else if in_range 97 102 c then byteZ c - 97 + 10
  else if in_range 65 70 c then byteZ c - 65 + 10
  else 0.

Definition shouldEscape (c : ascii) (mode : encoding) : bool :=
  if is_alnum c then false
  else if is_host_mode mode && (byte_in c "!$&'()*+,;=:[]<>" || Ascii.eqb c "034"%char)
  then false
  else if byte_in c "-_.~" then false
  else if byte_in c "$&+,/:;=?@" &&
          match mode with
          | encodePath | encodePathSegment | encodeUserPassword
          | encodeQueryComponent | encodeFragment => true
          | _ => false
          end
  then
    match mode with
    | encodePath => Ascii.eqb c "?"%char
    | encodePathSegment => byte_in c "/;,?"
    | encodeUserPassword => byte_in c "@/?:"
    | encodeQueryComponent => true
    | _ => false
    end
  else if match mode with encodeFragment => byte_in c "!()*" | _ => false end
  then false
  else true.

Definition hex_byte (h1 h2 : ascii) : ascii :=
  byte_of_Z (Z.lor (Z.shiftl (unhex h1) 4) (unhex h2)).

(** The first loop of [unescape]: the checks on the escapes and, for a
    host, on the plain bytes.  [None] when the string is well formed. *)
Fixpoint unescape_check (s : string) (mode : encoding) : option error :=
  match s with
  | EmptyString => None
  | String c rest =>
    if Ascii.eqb c "%"%char then
      match rest with
      | String h1 (String h2 rest2) =>
        if negb (ishex h1 && ishex h2) then Some (EscapeError (take_bytes 3 s))
        else if match mode with encodeHost => true | _ => false end &&
                (unhex h1 <? 8) && negb (String.eqb (take_bytes 3 s) "%25")
        then Some (EscapeError (take_bytes 3 s))
        else if match mode with encodeZone => true | _ => false end &&
                negb (String.eqb (take_bytes 3 s) "%25") &&
                negb (Ascii.eqb (hex_byte h1 h2) " "%char) &&
                shouldEscape (hex_byte h1 h2) encodeHost
        then Some (EscapeError (take_bytes 3 s))
        else unescape_check rest2 mode
      | _ => Some (EscapeError (take_bytes 3 s))
      end
    else if Ascii.eqb c "+"%char then unescape_check rest mode
    else if is_host_mode mode && (byteZ c <? 0x80) && shouldEscape c encodeHost
    then Some (InvalidHostError (String c EmptyString))
    else unescape_check rest mode
  end.

(** The second loop of [unescape] (when nothing is escaped it returns the
    string as it is, which is what Go's early return gives). *)
Fixpoint unescape_build (s : string) (mode : encoding) : string :=
  match s with
  | EmptyString => EmptyString
  | String c rest =>
    if Ascii.eqb c "%"%char then
      match rest with
      | String h1 (String h2 rest2) =>
        String (hex_byte h1 h2) (unescape_build rest2 mode)
      | _ => s
      end
    else if Ascii.eqb c "+"%char then
      String (match mode with encodeQueryComponent => " "%char | _ => c end)
             (unescape_build rest mode)
    else String c (unescape_build rest mode)
  end.

Definition unescape (s : string) (mode : encoding) : result string :=
  match unescape_check s mode with
  | Some e => inr e
  | None => inl (unescape_build s mode)
  end.

Definition upperhex (i : Z) : ascii :=
  from_option id "0"%char (String.get (Z.to_nat i) "0123456789ABCDEF").

Fixpoint escape (s : string) (mode : encoding) : string :=
  match s with
  | EmptyString => EmptyString
  | String c rest =>
    if Ascii.eqb c " "%char &&
       match mode with encodeQueryComponent => true | _ => false end
    then String "+"%char (escape rest mode)
    else if shouldEscape c mode then
      String "%"%char
        (String (upperhex (Z.shiftr (byteZ c) 4))
           (String (upperhex (Z.land (byteZ c) 15)) (escape rest mode)))
    else String c (escape rest mode)
  end.

Definition QueryEscape (s : string) : string := escape s encodeQueryComponent.

(** *** Values *)

Definition Values : Type := gmap string (list string).

Definition Add (v : Values) (key value : string) : Values :=
  <[key := (default [] (v !! key)) ++ [value]]> v.

Definition sorted_keys (v : Values) : list string :=
  merge_sort String.le (elements (dom v)).

Definition encode_key (v : Values) (k : string) : list string :=
  (fun x => String.append (QueryEscape k) (String.append "=" (QueryEscape x)))
    <$> default [] (v !! k).

Definition Encode (v : Values) : string :=
  String.concat "&" (concat (encode_key v <$> sorted_keys v)).

(** *** URL *)

Record Userinfo := mkUserinfo {
  username : string;
  password : string;
  passwordSet : bool
}.

Record URL := mkURL {
  Scheme : string;
  Opaque : string;
  User : option Userinfo;
  Host : string;
  Path : string;
  RawPath : string;
  ForceQuery : bool;
  RawQuery : string;
  Fragment : string
}.

Definition empty_URL : URL :=
  mkURL EmptyString EmptyString None EmptyString EmptyString EmptyString
        false EmptyString EmptyString.

Definition stringContainsCTLByte (s : string) : bool :=
  negb (all_bytes (fun c => negb (is_ctl c)) s).

(** [getScheme]: [i] is the index of the first byte of [rest] in
    [rawURL]. *)
Fixpoint getScheme_go (i : nat) (rawURL rest : string)
    : result (string * string) :=
  match rest with
  | EmptyString => inl (EmptyString, rawURL)
  | String c rest' =>
    if is_letter c then getScheme_go (S i) rawURL rest'
    else if is_digit c || byte_in c "+-." then
      if (i =? 0)%nat then inl (EmptyString, rawURL)
      else getScheme_go (S i) rawURL rest'
    else if Ascii.eqb c ":"%char then
      if (i =? 0)%nat then inr (errorString "missing protocol scheme")
      else inl (take_bytes i rawURL, rest')
    else inl (EmptyString, rawURL)
  end.

Definition getScheme (rawURL : string) : result (string * string) :=
  getScheme_go 0 rawURL rawURL.

Definition validOptionalPort (port : string) : bool :=
  match port with
  | EmptyString => true
  | String c digits => Ascii.eqb c ":"%char && all_bytes is_digit digits
  end.

Definition validUserinfo (s : string) : bool :=
  all_bytes (fun c => is_alnum c || byte_in c "-._:~!$&'()*+,;=%@") s.

(** The text of the invalid-port error is [invalid port %q after host];
    the quoted port is left out of the message here. *)
Definition invalid_port : error := errorString "invalid port after host".

Definition parseHost (host : string) : result string :=
  if strings.HasPrefix host "[" then
    match strings.LastIndex host "]" with
    | None => inr (errorString "missing ']' in host")
    | Some i =>
      if negb (validOptionalPort (drop_bytes (S i) host)) then inr invalid_port
      else
        match strings.Index (take_bytes i host) "%25" with
        | Some zone =>
          let? host1 := unescape (take_bytes zone host) encodeHost in
          let? host2 := unescape (slice zone i host) encodeZone in
          let? host3 := unescape (drop_bytes i host) encodeHost in
          inl (String.append host1 (String.append host2 host3))
        | None => unescape host encodeHost
        end
    end
  else
    match strings.LastIndex host ":" with
    | Some i =>
      if negb (validOptionalPort (drop_bytes i host)) then inr invalid_port
      else unescape host encodeHost
    | None => unescape host encodeHost
    end.

Definition parseAuthority (authority : string)
    : result (option Userinfo * string) :=
  match strings.LastIndex authority "@" with
  | None =>
    let? host := parseHost authority in
    inl (None, host)
  | Some i =>
    let? host := parseHost (drop_bytes (S i) authority) in
    let userinfo := take_bytes i authority in
    if negb (validUserinfo userinfo)
    then inr (errorString "net/url: invalid userinfo")
    else if negb (strings.Contains userinfo ":") then
      let? userinfo := unescape userinfo encodeUserPassword in
      inl (Some (mkUserinfo userinfo EmptyString false), host)
    else
      let '(username, password, _) := strings.Cut userinfo ":" in
      let? username := unescape username encodeUserPassword in
      let? password := unescape password encodeUserPassword in
      inl (Some (mkUserinfo username password true), host)
  end.

Definition parse (rawURL : string) (viaRequest : bool) : result URL :=
  if stringContainsCTLByte rawURL
  then inr (errorString "net/url: invalid control character in URL")
  else if String.eqb rawURL EmptyString && viaRequest
  then inr (errorString "empty url")
  else if String.eqb rawURL "*"
  then inl (mkURL EmptyString EmptyString None EmptyString "*" EmptyString
                  false EmptyString EmptyString)
  else
    let? (scheme, rest) := getScheme rawURL in
    let scheme := map_bytes strings.lower_byte scheme in
    let '(forceQuery, rest, rawQuery) :=
      if strings.HasSuffix rest "?" && (strings.Count rest "?" =? 1)%nat
      then (true, take_bytes (len rest - 1) rest, EmptyString)
      else let '(rest, rawQuery, _) := strings.Cut rest "?" in
           (false, rest, rawQuery) in
    if negb (strings.HasPrefix rest "/") && negb (String.eqb scheme EmptyString)
    then inl (mkURL scheme rest None EmptyString EmptyString EmptyString
                    forceQuery rawQuery EmptyString)
    else if negb (strings.HasPrefix rest "/") && viaRequest
    then inr (errorString "invalid URI for request")
    else if negb (strings.HasPrefix rest "/") &&
            strings.Contains (fst (fst (strings.Cut rest "/"))) ":"
    then inr (errorString "first path segment in URL cannot contain colon")
    else
      let? (user, host, rest) :=
        (if (negb (String.eqb scheme EmptyString) ||
             (negb viaRequest && negb (strings.HasPrefix rest "///"))) &&
            strings.HasPrefix rest "//"
         then
           let authority := drop_bytes 2 rest in
           let '(authority, rest) :=
             match strings.Index authority "/" with
             | Some i => (take_bytes i authority, drop_bytes i authority)
             | None => (authority, EmptyString)
             end in
           let? (user, host) := parseAuthority authority in
           inl (user, host, rest)
         else inl (None, EmptyString, rest)) in
      let? path := unescape rest encodePath in
      let rawPath :=
        if String.eqb rest (escape path encodePath) then EmptyString else rest in
      inl (mkURL scheme EmptyString user host path rawPath
                 forceQuery rawQuery EmptyString).

Definition Parse (rawURL : string) : result URL :=
  let '(u, frag, _) := strings.Cut rawURL "#" in
  match parse u false with
  | inr err => inr (url_Error "parse" u err)
  | inl url =>
    if String.eqb frag EmptyString then inl url
    else
      match unescape frag encodeFragment with
      | inr err => inr (url_Error "parse" rawURL err)
      | inl f =>
        inl (mkURL (Scheme url) (Opaque url) (User url) (Host url) (Path url)
                   (RawPath url) (ForceQuery url) (RawQuery url) f)
      end
  end.

Definition splitHostPort (hostPort : string) : string * string :=
  let '(host, port) :=
    match strings.LastIndex hostPort ":" with
    | Some colon =>
      if validOptionalPort (drop_bytes colon hostPort)
      then (take_bytes colon hostPort, drop_bytes (S colon) hostPort)
      else (hostPort, EmptyString)
    | None => (hostPort, EmptyString)
    end in
  if strings.HasPrefix host "[" && strings.HasSuffix host "]"
  then (slice 1 (len host - 1) host, port)
  else (host, port).

Definition Hostname (u : URL) : string := fst (splitHostPort (Host u)).

Definition with_RawQuery (u : URL) (q : string) : URL :=
  mkURL (Scheme u) (Opaque u) (User u) (Host u) (Path u) (RawPath u)
        (ForceQuery u) q (Fragment u).

End url.

(** ** encoding/json *)
Module json.

(** A decoded JSON text.  Strings and object keys hold the bytes that
    [unquote] produces; a number keeps its literal. *)
Inductive Value : Type :=
| Null
| Bool (b : bool)
| Number (lit : string)
| Str (s : string)
| Array (elems : list Value)
| Object (members : list (string * Value)).

Definition maxNestingDepth : N := 10000.

Definition isSpace (c : ascii) : bool := byte_in c " " || in_range 9 10 c || (byteZ c =? 13).

Fixpoint skip_ws (s : string) : string :=
  match s with
  | String c rest => if isSpace c then skip_ws rest else s
  | EmptyString => s
  end.

(** *** The scanner: string and number literals *)

(** The bytes of a string literal after its opening quote: the raw text up
    to the closing quote, and what follows it. *)
Fixpoint scan_string (s : string) : option (string * string) :=
  match s with
  | EmptyString => None
  | String c rest =>
    if Ascii.eqb c "034"%char then Some (EmptyString, rest)
    else if Ascii.eqb c "\"%char then
      match rest with
      | String e rest1 =>
        if byte_in e "bfnrt\/" || Ascii.eqb e "034"%char then
          match scan_string rest1 with
          | Some (raw, r) => Some (String c (String e raw), r)
          | None => None
          end
        else if Ascii.eqb e "u"%char then
          match rest1 with
          | String h1 (String h2 (String h3 (String h4 rest2))) =>
            if url.ishex h1 && url.ishex h2 && url.ishex h3 && url.ishex h4 then
              match scan_string rest2 with
              | Some (raw, r) =>
                Some (String c (String e (String h1 (String h2 (String h3
                        (String h4 raw))))), r)
              | None => None
              end
            else None
          | _ => None
          end
        else None
      | EmptyString => None
      end
    else if byteZ c <? 32 then None
    else
      match scan_string rest with
      | Some (raw, r) => Some (String c raw, r)
      | None => None
      end
  end.

Fixpoint scan_digits (s : string) : string * string :=
  match s with
  | String c rest =>
    if is_digit c then
      let '(ds, r) := scan_digits rest in (String c ds, r)
    else (EmptyString, s)
  | EmptyString => (EmptyString, s)
  end.

(** One or more digits. *)
Definition scan_digits1 (s : string) : option (string * string) :=
  let '(ds, r) := scan_digits s in
  if String.eqb ds EmptyString then None else Some (ds, r).

Definition scan_int (s : string) : option (string * string) :=
  match s with
  | String c rest =>
    if Ascii.eqb c "0"%char then Some ("0", rest)
    else if in_range 49 57 c then scan_digits1 s
    else None
  | EmptyString => None
  end.

Definition scan_frac (s : string) : option (string * string) :=
  match s with
  | String c rest =>
    if Ascii.eqb c "."%char then
      match scan_digits1 rest with
      | Some (ds, r) => Some (String c ds, r)
      | None => None
      end
    else Some (EmptyString, s)
  | EmptyString => Some (EmptyString, s)
  end.

Definition scan_exp (s : string) : option (string * string) :=
  match s with
  | String c rest =>
    if byte_in c "eE" then
      let '(sign, rest1) :=
        match rest with
        | String g rest1 =>
          if byte_in g "+-" then (String g EmptyString, rest1)
          else (EmptyString, rest)
        | EmptyString => (EmptyString, rest)
        end in
      match scan_digits1 rest1 with
      | Some (ds, r) => Some (String c (String.append sign ds), r)
      | None => None
      end
    else Some (EmptyString, s)
  | EmptyString => Some (EmptyString, s)
  end.

Definition scan_number (s : string) : option (string * string) :=
  let '(sign, s1) :=
    match s with
    | String c rest =>
      if Ascii.eqb c "-"%char then (String c EmptyString, rest) else (EmptyString, s)
    | EmptyString => (EmptyString, s)
    end in
  match scan_int s1 with
  | None => None
  | Some (i, s2) =>
    match scan_frac s2 with
    | None => None
    | Some (f, s3) =>
      match scan_exp s3 with
      | None => None
      | Some (e, s4) =>
        Some (String.append sign (String.append i (String.append f e)), s4)
      end
    end
  end.

(** *** [unquote]: the bytes a string literal stands for *)

Definition hex4 (h1 h2 h3 h4 : ascii) : Z :=
  Z.lor (Z.lor (Z.lor (Z.shiftl (url.unhex h1) 12) (Z.shiftl (url.unhex h2) 8))
               (Z.shiftl (url.unhex h3) 4)) (url.unhex h4).

(** [getu4]: the code unit of a [\uXXXX] at the start of [s], or [-1]. *)
Definition getu4 (s : string) : Z :=
  match s with
  | String b (String u (String h1 (String h2 (String h3 (String h4 _))))) =>
    if Ascii.eqb b "\"%char && Ascii.eqb u "u"%char &&
       url.ishex h1 && url.ishex h2 && url.ishex h3 && url.ishex h4
    then hex4 h1 h2 h3 h4 else -1
  | _ => -1
  end.

(** [utf16.DecodeRune] *)
Definition utf16_DecodeRune (r1 r2 : Z) : Z :=
  if (0xD800 <=? r1) && (r1 <? 0xDC00) && (0xDC00 <=? r2) && (r2 <? 0xE000)
  then Z.lor (Z.shiftl (r1 - 0xD800) 10) (r2 - 0xDC00) + 0x10000
  else utf8.RuneError.

Definition escape_char (e : ascii) : option ascii :=
  if byte_in e "\/'" || Ascii.eqb e "034"%char then Some e
  else if Ascii.eqb e "b"%char then Some "008"%char
  else if Ascii.eqb e "f"%char then Some "012"%char
  else if Ascii.eqb e "n"%char then Some "010"%char
  else if Ascii.eqb e "r"%char then Some "013"%char
  else if Ascii.eqb e "t"%char then Some "009"%char
  else None.

Fixpoint unquote (fuel : nat) (s : string) : option string :=
  match fuel, s with
  | _, EmptyString => Some EmptyString
  | O, _ => None
  | S fuel', String c rest =>
    if Ascii.eqb c "\"%char then
      match rest with
      | EmptyString => None
      | String e rest1 =>
        if Ascii.eqb e "u"%char then
          let rr := getu4 s in
          if rr <? 0 then None
          else
            let after := drop_bytes 6 s in
            let dec := utf16_DecodeRune rr (getu4 after) in
            if utf8.is_surrogate rr && negb (dec =? utf8.RuneError) then
              String.append (utf8.EncodeRune dec) <$> unquote fuel' (drop_bytes 6 after)
            else
              String.append
                (utf8.EncodeRune (if utf8.is_surrogate rr then utf8.RuneError else rr))
                <$> unquote fuel' after
        else
          match escape_char e with
          | Some b => String b <$> unquote fuel' rest1
          | None => None
          end
      end
    else if Ascii.eqb c "034"%char || (byteZ c <? 32) then None
    else if byteZ c <? utf8.RuneSelf then String c <$> unquote fuel' rest
    else
      let '(rr, size) := utf8.DecodeRuneInString s in
      String.append (utf8.EncodeRune rr) <$> unquote fuel' (drop_bytes size s)
  end.

(** *** The grammar of values *)

Definition literal (word : string) (v : Value) (s : string)
    : option (Value * string) :=
  if strings.HasPrefix s word then Some (v, drop_bytes (len word) s) else None.

(** A value at the start of [s], after optional white space; [depth] is
    the number of arrays and objects it is nested in. *)
Fixpoint parse_value (fuel : nat) (depth : N) (s : string)
    : option (Value * string) :=
  match fuel with
  | O => None
  | S fuel' =>
    match skip_ws s with
    | EmptyString => None
    | String c rest =>
      if Ascii.eqb c "{"%char then
        if (maxNestingDepth <? depth + 1)%N then None
        else
          match skip_ws rest with
          | String d rest1 =>
            if Ascii.eqb d "}"%char then Some (Object [], rest1)
            else
              match parse_members fuel' (depth + 1) rest with
              | Some (ms, r) => Some (Object ms, r)
              | None => None
              end
          | EmptyString => None
          end
      else if Ascii.eqb c "["%char then
        if (maxNestingDepth <? depth + 1)%N then None
        else
          match skip_ws rest with
          | String d rest1 =>
            if Ascii.eqb d "]"%char then Some (Array [], rest1)
            else
              match parse_elems fuel' (depth + 1) rest with
              | Some (vs, r) => Some (Array vs, r)
              | None => None
              end
          | EmptyString => None
          end
      else if Ascii.eqb c "034"%char then
        match scan_string rest with
        | Some (raw, r) =>
          match unquote (len raw) raw with
          | Some str => Some (Str str, r)
          | None => None
          end
        | None => None
        end
      else if Ascii.eqb c "-"%char || is_digit c then
        match scan_number (String c rest) with
        | Some (lit, r) => Some (Number lit, r)
        | None => None
        end
      else if Ascii.eqb c "t"%char then literal "true" (Bool true) (String c rest)
      else if Ascii.eqb c "f"%char then literal "false" (Bool false) (String c rest)
      else if Ascii.eqb c "n"%char then literal "null" Null (String c rest)
      else None
    end
  end

(** The elements of an array from its first value to the closing bracket. *)
with parse_elems (fuel : nat) (depth : N) (s : string)
    : option (list Value * string) :=
  match fuel with
  | O => None
  | S fuel' =>
    match parse_value fuel' depth s with
    | None => None
    | Some (v, r) =>
      match skip_ws r with
      | String c r1 =>
        if Ascii.eqb c ","%char then
          match parse_elems fuel' depth r1 with
          | Some (vs, r2) => Some (v :: vs, r2)
          | None => None
          end
        else if Ascii.eqb c "]"%char then Some ([v], r1)
        else None
      | EmptyString => None
      end
    end
  end

(** The members of an object from its first key to the closing brace. *)
with parse_members (fuel : nat) (depth : N) (s : string)
    : option (list (string * Value) * string) :=
  match fuel with
  | O => None
  | S fuel' =>
    match skip_ws s with
    | String q r0 =>
      if Ascii.eqb q "034"%char then
        match scan_string r0 with
        | Some (raw, r1) =>
          match unquote (len raw) raw, skip_ws r1 with
          | Some key, String colon r2 =>
            if Ascii.eqb colon ":"%char then
              match parse_value fuel' depth r2 with
              | Some (v, r3) =>
                match skip_ws r3 with
                | String c r4 =>
                  if Ascii.eqb c ","%char then
                    match parse_members fuel' depth r4 with
                    | Some (ms, r5) => Some ((key, v) :: ms, r5)
                    | None => None
                    end
                  else if Ascii.eqb c "}"%char then Some ([(key, v)], r4)
                  else None
                | EmptyString => None
                end
              | None => None
              end
            else None
          | _, _ => None
          end
        | None => None
        end
      else None
    | EmptyString => None
    end
  end.

(** [checkValid] followed by decoding: the whole of [data] is one value
    surrounded by optional white space. *)
Definition parse (data : string) : option Value :=
  match parse_value (2 * len data + 2) 0 data with
  | Some (v, rest) =>
    if String.eqb (skip_ws rest) EmptyString then Some v else None
  | None => None
  end.

(** *** Decoding into [struct { ID string `json:"id"` }] *)

Definition caseMask : Z := 0xDF.

(** [simpleLetterEqualFold], the folding chosen for a field name made of
    letters other than k and s. *)
Fixpoint simpleLetterEqualFold (s t : string) : bool :=
  match s, t with
  | EmptyString, EmptyString => true
  | String b s', String c t' =>
    (Z.land (byteZ b) caseMask =? Z.land (byteZ c) caseMask) &&
    simpleLetterEqualFold s' t'
  | _, _ => false
  end.

(** The field an object key selects: the exact name, else its folding. *)
Definition is_id_key (key : string) : bool :=
  String.eqb key "id" || simpleLetterEqualFold "id" key.

(** Storing a value into the string field: a type mismatch leaves the
    field as it is and is reported. *)
Definition store_string (v : Value) (cur : string) : string * option error :=
  match v with
  | Str s => (s, None)
  | Null => (cur, None)
  | Bool _ => (cur, Some (UnmarshalTypeError "bool"))
  | Number _ => (cur, Some (UnmarshalTypeError "number"))
  | Array _ => (cur, Some (UnmarshalTypeError "array"))
  | Object _ => (cur, Some (UnmarshalTypeError "object"))
  end.

(** [saveError]: only the first error is kept. *)
Definition saveError (saved new : option error) : option error :=
  match saved with
  | Some _ => saved
  | None => new
  end.

Fixpoint decode_members (ms : list (string * Value)) (cur : string)
    (saved : option error) : string * option error :=
  match ms with
  | [] => (cur, saved)
  | (key, v) :: ms' =>
    if is_id_key key then
      let '(cur', err) := store_string v cur in
      decode_members ms' cur' (saveError saved err)
    else decode_members ms' cur saved
  end.

(** The text of a syntax error names the offending byte and its offset;
    the model keeps one text for all of them. *)
Definition Unmarshal (data : string) : result string :=
  match parse data with
  | None => inr (SyntaxError "invalid JSON input")
  | Some Null => inl EmptyString
  | Some (Object ms) =>
    match decode_members ms EmptyString None with
    | (ID, None) => inl ID
    | (_, Some e) => inr e
    end
  | Some (Bool _) => inr (UnmarshalTypeError "bool")
  | Some (Number _) => inr (UnmarshalTypeError "number")
  | Some (Str _) => inr (UnmarshalTypeError "string")
  | Some (Array _) => inr (UnmarshalTypeError "array")
  end.

End json.

(** ** flag *)
Module flag.

(** The two kinds of flag the command defines ([flagSet.String] and
    [flagSet.Bool]), with their current value. *)
Inductive Value : Type :=
| StringValue (s : string)
| BoolValue (b : bool).

(** [formal] maps every defined flag to its value, [actual] holds the
    names of the flags set on the command line, [args] the arguments
    still to be parsed. *)
Record FlagSet := mkFlagSet {
  formal : gmap string Value;
  actual : gset string;
  args : list string
}.

Definition ErrHelp : error := errorString "flag: help requested".

(** [strconv.ParseBool] *)
Definition ParseBool (s : string) : option bool :=
  if bool_decide (s ∈ ["1"; "t"; "T"; "TRUE"; "true"; "True"]) then Some true
  else if bool_decide (s ∈ ["0"; "f"; "F"; "FALSE"; "false"; "False"]) then Some false
  else None.

Definition failf (msg : string) : error := errorString msg.

(** Splits [name] at its first [=] after the first byte. *)
Definition split_value (name : string) : string * option string :=
  match name with
  | EmptyString => (name, None)
  | String c rest =>
    match strings.Index rest "=" with
    | Some i => (String c (take_bytes i rest), Some (drop_bytes (S i) rest))
    | None => (name, None)
    end
  end.

Definition set_flag (f : FlagSet) (name : string) (v : Value)
    (rest : list string) : FlagSet :=
  mkFlagSet (<[name := v]> (formal f)) ({[name]} ∪ actual f) rest.

(** [parseOne]: whether a flag was seen, and the error if any. *)
Definition parseOne (f : FlagSet) : FlagSet * bool * option error :=
  match args f with
  | [] => (f, false, None)
  | s :: rest =>
    match s with
    | String c0 (String c1 s2) =>
      if negb (Ascii.eqb c0 "-"%char) then (f, false, None)
      else if Ascii.eqb c1 "-"%char && String.eqb s2 EmptyString
      then (mkFlagSet (formal f) (actual f) rest, false, None)
      else
        let name := if Ascii.eqb c1 "-"%char then s2 else String c1 s2 in
        if String.eqb name EmptyString || strings.HasPrefix name "-" ||
           strings.HasPrefix name "="
        then (f, false, Some (failf (String.append "bad flag syntax: " s)))
        else
          let f := mkFlagSet (formal f) (actual f) rest in
          let '(name, value) := split_value name in
          match formal f !! name with
          | None =>
            if String.eqb name "help" || String.eqb name "h"
            then (f, false, Some ErrHelp)
            else (f, false, Some (failf
                   (String.append "flag provided but not defined: -" name)))
          | Some (BoolValue _) =>
            match value with
            | Some v =>
              match ParseBool v with
              | Some b => (set_flag f name (BoolValue b) rest, true, None)
              | None => (f, false, Some (failf
                          (String.append "invalid boolean value for -" name)))
              end
            | None => (set_flag f name (BoolValue true) rest, true, None)
            end
          | Some (StringValue _) =>
            match value, rest with
            | Some v, _ => (set_flag f name (StringValue v) rest, true, None)
            | None, v :: rest' => (set_flag f name (StringValue v) rest', true, None)
            | None, [] => (f, false, Some (failf
                            (String.append "flag needs an argument: -" name)))
            end
          end
    | _ => (f, false, None)
    end
  end.

Fixpoint parse_loop (fuel : nat) (f : FlagSet) : FlagSet * option error :=
  match fuel with
  | O => (f, None)
  | S fuel' =>
    match parseOne f with
    | (f', true, _) => parse_loop fuel' f'
    | (f', false, err) => (f', err)
    end
  end.

(** [Parse], up to the error handling, which is the caller's
    ([flag.ExitOnError] for this command). *)
Definition Parse (f : FlagSet) (arguments : list string) : FlagSet * option error :=
  parse_loop (S (length arguments))
    (mkFlagSet (formal f) (actual f) arguments).

(** [Visit] calls [fn] on the flags that have been set, in
    lexicographical order of their names. *)
Definition Visit {A} (f : FlagSet) (fn : string -> A -> A) (init : A) : A :=
  foldl (fun acc name => fn name acc) init
        (merge_sort String.le (elements (actual f))).

Definition String_ (f : FlagSet) (name : string) : string :=
  match formal f !! name with
  | Some (StringValue s) => s
  | _ => EmptyString
  end.

Definition Bool_ (f : FlagSet) (name : string) : bool :=
  match formal f !! name with
  | Some (BoolValue b) => b
  | _ => false
  end.

End flag.

(** ** The command: cmd/src/lsif_upload.go *)

Definition dquote : string := String "034"%char EmptyString.

(** The text [Error()] returns.  The handler prints only errors made by
    [fmt.Errorf] and errors of its collaborators, whose text is their
    message; the rendering of the other errors is schematic. *)
Fixpoint Error (e : error) : string :=
  match e with
  | errorString msg => msg
  | external msg => msg
  | EscapeError s => String.append "invalid URL escape " s
  | InvalidHostError s => String.append "invalid character in host name " s
  | url_Error op u err =>
    String.append op (String.append " " (String.append u (String.append ": " (Error err))))
  | SyntaxError msg => msg
  | UnmarshalTypeError v =>
    String.append "json: cannot unmarshal " (String.append v " into Go value")
  end.

(** *** What the run does to the outside, and how it ends *)

Record Request := mkRequest {
  Method : string;
  URL : url.URL;
  Header : list (string * string)
}.

Record Response := mkResponse {
  StatusCode : Z;
  Status : string;
  Body : result string   (* what [ioutil.ReadAll(resp.Body)] returns *)
}.

(** The observable steps of a run, in order.  [HTTPDo] is the one network
    call.  The curl command is kept as the values it is rendered from
    (the rendering is [shellquote.Join] and [URL.String]). *)
Inductive event : Type :=
| Println (line : string)
| Exec (command : list string)
| Stat (path : string)
| Open (path : string)
| PrintCurl (file : string) (accessToken : string) (target : url.URL)
| HTTPDo (req : Request)
| OpenURL (target : string).

(** [Exit] is [os.Exit]; [Return] is the handler's [error] result;
    [Blocked] is the run in which the handler waits for ever, inside
    [http.DefaultClient.Do] or at the receive from the channel, for a
    step that no other party can make. *)
Inductive outcome : Type :=
| Exit (code : Z)
| Return (err : option error)
| Blocked.

(** Everything the handler gets from outside the file: the configuration
    [cfg], the answers of git, of the file system and of the server, the
    result of the copy made by the compressor's goroutine, the terminal
    check, the browser launcher, and the Unicode case table.

    [http_Do] is what [http.DefaultClient.Do] returns in the run, if it
    returns: the failure of the transport, which does not wait for the
    body of the request, or the response of the server.
    [http_awaits_body] tells whether the server reads the body of the
    request to its end before it answers; the body is the read side of
    the compressor's pipe, so that it ends when the goroutine closes
    the write side. *)
Record Env := mkEnv {
  cfg_Endpoint : string;
  cfg_AccessToken : string;
  git_remote_get_url : result string;
  git_rev_parse_HEAD : result string;
  git_show_toplevel : result string;
  os_Stat_IsNotExist : string -> bool;
  filepath_Abs : string -> result string;
  filepath_Rel : string -> string -> result string;
  os_Open : string -> option error;
  gzip_copy : option error;
  http_NewRequest : option error;
  http_Do : result Response;
  http_awaits_body : bool;
  isatty_IsTerminal : bool;
  browser_OpenURL : string -> option error;
  unicode_lower : unicode.CaseTable
}.

(** A computation that logs events and either goes on with a value or
    ends the run. *)
Definition M (A : Type) : Type := (list event * (A + outcome))%type.

Definition ret {A} (a : A) : M A := ([], inl a).
Definition stop {A} (o : outcome) : M A := ([], inr o).
Definition emit (e : event) : M unit := ([e], inl tt).

Definition bind {A B} (m : M A) (k : A -> M B) : M B :=
  match m with
  | (tr, inl a) => let '(tr', r) := k a in (tr ++ tr', r)
  | (tr, inr o) => (tr, inr o)
  end.

Notation "'let!' x := m 'in' k" := (bind m (fun x => k))
  (at level 10, x pattern, m at level 200, k at level 200).

Definition println (line : string) : M unit := emit (Println line).
Definition os_Exit {A} (code : Z) : M A := stop (Exit code).
Definition return_ {A} (err : option error) : M A := stop (Return err).

(** [x, err := ...; if err != nil { return err }] *)
Definition attempt {A} (r : result A) : M A :=
  match r with
  | inl a => ret a
  | inr e => return_ (Some e)
  end.

Definition attempt_err (r : option error) : M unit :=
  match r with
  | None => ret tt
  | Some e => return_ (Some e)
  end.

Definition run (m : M outcome) : list event * outcome :=
  match m with
  | (tr, inl o) => (tr, o)
  | (tr, inr o) => (tr, o)
  end.

(** *** isFlagSet *)
Definition isFlagSet (fs : flag.FlagSet) (name : string) : bool :=
  flag.Visit fs (fun f found => if String.eqb f name then true else found) false.

(** *** parseRemoteURL *)
Definition parseRemoteURL (urlString : string) : result string :=
  if strings.HasPrefix urlString "git@" then
    match strings.Split urlString ":" with
    | [part0; part1] =>
      inl (String.append (strings.TrimPrefix part0 "git@")
             (String.append "/"
                (strings.TrimPrefix (strings.TrimSuffix part1 ".git") "/")))
    | _ => inr (errorString (String.append "unrecognized remote URL: " urlString))
    end
  else
    match url.Parse urlString with
    | inr _ => inr (errorString (String.append "unrecognized remote URL: " urlString))
    | inl remoteURL =>
      inl (String.append (url.Hostname remoteURL)
             (strings.TrimSuffix (url.Path remoteURL) ".git"))
    end.

(** *** gzipReader

    [gzipReader] makes the pipe and the unbuffered channel and starts
    the goroutine, and gives the handler the read side of the pipe and
    the channel.  The goroutine copies the file into the gzip writer,
    which writes to the pipe; if the copy fails it sends the error on
    the channel; then the deferred calls run, last deferred first: the
    gzip writer is closed, then the write side of the pipe, then the
    channel.  The compressed bytes themselves are not part of the
    model: the handler sees the pipe only as the body of the request,
    which ends when the write side is closed. *)

(** Where the goroutine is: the call it makes next. *)
Inductive position : Type :=
| WriteTo                 (* br.WriteTo(gw) *)
| Send (err : error)      (* ch <- err *)
| CloseGzip               (* gw.Close() *)
| ClosePipe               (* pw.Close() *)
| CloseChan               (* close(ch) *)
| Finished.

(** The goroutine with its pipe and its channel.  [copy_result] is what
    [br.WriteTo(gw)] returns. *)
Record compressor := mkCompressor {
  copy_result : option error;
  goroutine_at : position;
  pipe_closed : bool;
  chan_closed : bool
}.

Definition gzipReader (copy : option error) : compressor :=
  mkCompressor copy WriteTo false false.

Definition moved_to (gz : compressor) (p : position) : compressor :=
  mkCompressor (copy_result gz) p (pipe_closed gz) (chan_closed gz).

(** A step that the goroutine makes on its own.  The channel has no
    buffer: at the send the goroutine waits for the receiver, and the
    deferred calls, the closing of the pipe among them, wait with
    it. *)
Definition goroutine_step (gz : compressor) : option compressor :=
  match goroutine_at gz with
  | WriteTo =>
    Some (moved_to gz match copy_result gz with
                      | Some err => Send err
                      | None => CloseGzip
                      end)
  | Send _ => None
  | CloseGzip => Some (moved_to gz ClosePipe)
  | ClosePipe => Some (mkCompressor (copy_result gz) CloseChan true (chan_closed gz))
  | CloseChan => Some (mkCompressor (copy_result gz) Finished (pipe_closed gz) true)
  | Finished => None
  end.

(** Where the handler is between the call of [Do] and the reading of
    the response (lines 210-219). *)
Inductive waiting : Type :=
| InDo                        (* in http.DefaultClient.Do(req) *)
| AtRecv (resp : Response)    (* at <-ch *)
| Returned (err : error)      (* return err, line 212 or 218 *)
| Received (resp : Response). (* past line 219 *)

(** A step of the handler.  [Do] returns the failure of the transport,
    or the response of the server, which a server that awaits the body
    gives only once the pipe is closed.  The receive takes [nil] from
    the closed channel, or the error from the goroutine that waits at
    the send, which then goes on. *)
Definition handler_step (env : Env) (s : waiting * compressor)
    : option (waiting * compressor) :=
  match s.1 with
  | InDo =>
    match http_Do env with
    | inr err => Some (Returned err, s.2)
    | inl resp =>
      if http_awaits_body env && negb (pipe_closed s.2) then None
      else Some (AtRecv resp, s.2)
    end
  | AtRecv resp =>
    if chan_closed s.2 then Some (Received resp, s.2)
    else match goroutine_at s.2 with
         | Send err => Some (Returned err, moved_to s.2 CloseGzip)
         | _ => None
         end
  | Returned _ | Received _ => None
  end.

(** The two run together until neither can move: the goroutine as far
    as it gets on its own, then the handler. *)
Fixpoint schedule (n : nat) (env : Env) (s : waiting * compressor)
    : waiting * compressor :=
  match n with
  | O => s
  | S n' =>
    match goroutine_step s.2 with
    | Some gz => schedule n' env (s.1, gz)
    | None =>
      match handler_step env s with
      | Some s' => schedule n' env s'
      | None => s
      end
    end
  end.

(** The steps that are left: at most five of the goroutine and two of
    the handler. *)
Definition steps_left (s : waiting * compressor) : nat :=
  (match s.1 with InDo => 2 | AtRecv _ => 1 | _ => 0 end +
   match goroutine_at s.2 with
   | WriteTo => 5 | Send _ => 4 | CloseGzip => 3
   | ClosePipe => 2 | CloseChan => 1 | Finished => 0
   end)%nat.

Definition exchange (env : Env) (gz : compressor) : waiting * compressor :=
  schedule (steps_left (InDo, gz)) env (InDo, gz).

(** *** The flag set built by [init] *)

Definition upload_flags : list (string * flag.Value) :=
  [("repo", flag.StringValue EmptyString);
   ("commit", flag.StringValue EmptyString);
   ("file", flag.StringValue "./dump.lsif");
   ("github-token", flag.StringValue EmptyString);
   ("root", flag.StringValue EmptyString);
   ("indexerName", flag.StringValue EmptyString);
   ("open", flag.BoolValue false)].

(** Modelled from the spec: [newAPIFlags] is defined in another file of
    the program.  Of the global flags it owns, the handler reads the
    boolean "render as shell command instead of executing" switch
    ([apiFlags.getCurl]), registered here under the name [get-curl]. *)
Definition newAPIFlags (formal : gmap string flag.Value) : gmap string flag.Value :=
  <["get-curl" := flag.BoolValue false]> formal.

Definition flagSet : flag.FlagSet :=
  flag.mkFlagSet (newAPIFlags (list_to_map upload_flags)) ∅ [].

Definition is_ErrHelp (e : error) : bool :=
  match e with
  | errorString msg => String.eqb msg "flag: help requested"
  | _ => false
  end.

(** [flagSet.Parse(args)] under [flag.ExitOnError]. *)
Definition parseFlags (args : list string) : M flag.FlagSet :=
  match flag.Parse flagSet args with
  | (fs, None) => ret fs
  | (_, Some err) => os_Exit (if is_ErrHelp err then 0 else 2)
  end.

(** *** The handler, stage by stage *)

(** Lines 75-90: the repository name. *)
Definition resolveRepository (env : Env) (fs : flag.FlagSet) : M string :=
  let! repo :=
    (if String.eqb (flag.String_ fs "repo") EmptyString then
       let! _ := emit (Exec ["git"; "remote"; "get-url"; "origin"]) in
       match git_remote_get_url env with
       | inr err =>
         let! _ := println (String.append "Failed to invoke git: " (Error err)) in
         let! _ := println "Unable to detect repository from environment." in
         let! _ := println "Either cd into a git repository or set -repo explicitly." in
         os_Exit 1
       | inl remoteURL =>
         match parseRemoteURL (strings.TrimSpace remoteURL) with
         | inr err =>
           let! _ := println (Error err) in
           let! _ := println "Set -repo explicitly." in
           os_Exit 1
         | inl repo => ret repo
         end
       end
     else ret (flag.String_ fs "repo")) in
  let! _ := println (String.append "Repository: " repo) in
  ret repo.

(** Lines 92-102: the commit. *)
Definition resolveCommit (env : Env) (fs : flag.FlagSet) : M string :=
  let! commit :=
    (if String.eqb (flag.String_ fs "commit") EmptyString then
       let! _ := emit (Exec ["git"; "rev-parse"; "HEAD"]) in
       match git_rev_parse_HEAD env with
       | inr err =>
         let! _ := println (String.append "Failed to invoke git: " (Error err)) in
         let! _ := println "Unable to detect commit from environment." in
         let! _ := println "Either cd into a git repository or set -commit explicitly." in
         os_Exit 1
       | inl commit => ret (strings.TrimSpace commit)
       end
     else ret (flag.String_ fs "commit")) in
  let! _ := println (String.append "Commit: " commit) in
  ret commit.

(** Lines 104-109: the dump file. *)
Definition checkFile (env : Env) (fs : flag.FlagSet) : M string :=
  let file := flag.String_ fs "file" in
  let! _ := emit (Stat file) in
  if os_Stat_IsNotExist env file then
    let! _ := println (String.append "File does not exist: " file) in
    let! _ := println "Either cd to the directory where it was generated or set -file explicitly." in
    os_Exit 1
  else
    let! _ := println (String.append "File: " file) in
    ret file.

Definition checkError {A} (r : result A) : M A :=
  match r with
  | inr err =>
    let! _ := println (Error err) in
    let! _ := println "Unable to detect root of LSIF dump from environment." in
    let! _ := println "Either cd into a git repository or set -root explicitly." in
    os_Exit 1
  | inl a => ret a
  end.

(** Lines 111-132: the root as given, or derived from the place of the
    dump file in the repository. *)
Definition givenRoot (env : Env) (fs : flag.FlagSet) (file : string) : M string :=
  if negb (isFlagSet fs "root") then
    let! _ := emit (Exec ["git"; "rev-parse"; "--show-toplevel"]) in
    let! topLevel := checkError (git_show_toplevel env) in
    let! absFile := checkError (filepath_Abs env file) in
    let! rel := checkError (filepath_Rel env (strings.TrimSpace topLevel) absFile) in
    ret (filepath.Dir rel)
  else ret (flag.String_ fs "root").

(** Lines 134-142: the root, normalized. *)
Definition normalizeRoot (root : string) : M string :=
  let root := filepath.Clean root in
  if strings.HasPrefix root ".." then
    let! _ := println (String.append "-root is outside the repository: " root) in
    os_Exit 1
  else
    let root :=
      if String.eqb root "." || String.eqb root "/" then EmptyString else root in
    let! _ := println (String.append "Root: " root) in
    ret root.

(** Lines 149-160: the query parameters. *)
Definition queryValues (repo commit githubToken root indexerName : string)
    : url.Values :=
  let qs : url.Values := ∅ in
  let qs := url.Add qs "repository" repo in
  let qs := url.Add qs "commit" commit in
  let qs := if negb (String.eqb githubToken EmptyString)
            then url.Add qs "github_token" githubToken else qs in
  let qs := if negb (String.eqb root EmptyString)
            then url.Add qs "root" root else qs in
  let qs := if negb (String.eqb indexerName EmptyString)
            then url.Add qs "indexerName" indexerName else qs in
  qs.

Definition uploadURL (endpoint repo ID : string) : string :=
  let uploadID :=
    base64.EncodeToString
      (String.append "LSIFUpload:" (String.append dquote (String.append ID dquote))) in
  String.append endpoint
    (String.append "/" (String.append repo
       (String.append "/-/settings/code-intelligence/lsif-uploads/" uploadID))).

Definition github_token_hint : string :=
  "error: you must provide -github-token=TOKEN, where TOKEN is a GitHub personal access token with 'repo' or 'public_repo' scope".

(** Lines 229-262: the status code and the body. *)
Definition interpretResponse (env : Env) (repo : string) (openFlag : bool)
    (resp : Response) (body : string) : M outcome :=
  if (StatusCode resp <? 200) || (300 <=? StatusCode resp) then
    if (StatusCode resp =? 401) &&
       strings.Contains (strings.ToLower (unicode_lower env) body)
                        "must provide github_token"
    then return_ (Some (errorString github_token_hint))
    else
      let! _ :=
        (if (StatusCode resp =? 401) && isatty_IsTerminal env then
           let! _ := println "You may need to specify or update your GitHub access token to use this endpoint." in
           let! _ := println "See https://github.com/sourcegraph/src-cli#authentication" in
           println EmptyString
         else ret tt) in
      return_ (Some (errorString
        (String.append "error: " (String.append (Status resp)
           (String.append (String "010"%char (String "010"%char EmptyString)) body)))))
  else
    let! ID := attempt (json.Unmarshal body) in
    let target := uploadURL (cfg_Endpoint env) repo ID in
    let! _ := println EmptyString in
    let! _ := println "LSIF dump successfully uploaded for processing." in
    let! _ := println (String.append "View processing status at "
                         (String.append target ".")) in
    let! _ :=
      (if openFlag then
         let! _ := emit (OpenURL target) in
         attempt_err (browser_OpenURL env target)
       else ret tt) in
    ret (Return None).

(** Lines 149-210: the target URL with its query string, the curl
    rendering, and the request with the compressed file as its body, up
    to the moment it is sent. *)
Definition sendRequest (env : Env) (fs : flag.FlagSet)
    (repo commit file root : string) : M compressor :=
  let qs := queryValues repo commit (flag.String_ fs "github-token") root
              (flag.String_ fs "indexerName") in
  let! target := attempt (url.Parse (String.append (cfg_Endpoint env) "/.api/lsif/upload")) in
  let target := url.with_RawQuery target (url.Encode qs) in
  if flag.Bool_ fs "get-curl" then
    let! _ := emit (PrintCurl file (cfg_AccessToken env) target) in
    return_ None
  else
    let! _ := emit (Open file) in
    let! _ := attempt_err (os_Open env file) in
    let gz := gzipReader (gzip_copy env) in
    let! _ := attempt_err (http_NewRequest env) in
    let header :=
      ("Content-Type", "application/x-ndjson+lsif") ::
      (if negb (String.eqb (cfg_AccessToken env) EmptyString)
       then [("Authorization", String.append "token " (cfg_AccessToken env))]
       else []) in
    let! _ := emit (HTTPDo (mkRequest "POST" target header)) in
    ret gz.

(** Lines 73-132: from the arguments to the root as given. *)
Definition contextUpToRoot (env : Env) (args : list string)
    : M (flag.FlagSet * string * string * string * string) :=
  let! fs := parseFlags args in
  let! repo := resolveRepository env fs in
  let! commit := resolveCommit env fs in
  let! file := checkFile env fs in
  let! root := givenRoot env fs file in
  ret (fs, repo, commit, file, root).

(** Lines 73-210: from the arguments to the request on the wire. *)
Definition prepare (env : Env) (args : list string)
    : M (string * bool * compressor) :=
  let! (fs, repo, commit, file, root) := contextUpToRoot env args in
  let! root := normalizeRoot root in
  let! gz := sendRequest env fs repo commit file root in
  ret (repo, flag.Bool_ fs "open", gz).

(** Lines 210-224: the answer of the server, the signal of the
    compressor, the body of the response.  The handler goes on when the
    exchange with the server and with the goroutine lets it. *)
Definition awaitResponse (env : Env) (gz : compressor) : M (Response * string) :=
  match (exchange env gz).1 with
  | Returned err => return_ (Some err)
  | Received resp =>
    let! body := attempt (Body resp) in
    ret (resp, body)
  | InDo | AtRecv _ => stop Blocked
  end.

Definition handler (env : Env) (args : list string) : list event * outcome :=
  run (
    let! (repo, openFlag, gz) := prepare env args in
    let! (resp, body) := awaitResponse env gz in
    interpretResponse env repo openFlag resp body).

(** ** Vocabulary of the properties *)

(** *** Remote URLs *)

(** The remotes [git@H:P.git] and [scheme://H/P.git], and the name [H/P]. *)
Definition ssh_remote (H P : string) : string :=
  "git@" +:+ H +:+ ":" +:+ P +:+ ".git".
Definition url_remote (scheme H P : string) : string :=
  scheme +:+ "://" +:+ H +:+ "/" +:+ P +:+ ".git".
Definition repo_name (H P : string) : string := H +:+ "/" +:+ P.

(** The two forms [user@host:path] and [scheme://host/path]. *)
Definition ssh_form (s : string) : Prop :=
  exists user host path, s = user +:+ "@" +:+ host +:+ ":" +:+ path.
Definition url_form (s : string) : Prop :=
  exists scheme host path, s = scheme +:+ "://" +:+ host +:+ "/" +:+ path.

Fixpoint count_byte (c : ascii) (s : string) : nat :=
  match s with
  | EmptyString => 0
  | String d s' => ((if Ascii.eqb d c then 1 else 0) + count_byte c s')%nat
  end.

(** A scheme: a letter, then letters, digits, [+], [-] and [.]. *)
Definition scheme_byte (c : ascii) : bool :=
  is_letter c || is_digit c || byte_in c "+-.".

Definition valid_scheme (s : string) : bool :=
  match s with
  | String c rest => is_letter c && all_bytes scheme_byte rest
  | EmptyString => false
  end.

(** A byte of a plain host: one that a host may hold unescaped, or a
    byte above ASCII; no colon (port) and no bracket (IP literal). *)
Definition host_byte (c : ascii) : bool :=
  ((0x80 <=? byteZ c) || negb (url.shouldEscape c url.encodeHost)) &&
  negb (byte_in c ":[").

(** A byte of a plain path: no query, fragment or escape, no control
    byte. *)
Definition path_byte (c : ascii) : bool :=
  negb (byte_in c "?#%") && negb (is_ctl c).

Definition url_text (scheme host path : string) : string :=
  scheme +:+ "://" +:+ host +:+ "/" +:+ path.

(** *** Traces *)

Definition is_network (e : event) : bool :=
  match e with HTTPDo _ => true | _ => false end.

Definition git_toplevel : event := Exec ["git"; "rev-parse"; "--show-toplevel"].

Definition is_toplevel (e : event) : bool :=
  match e with
  | Exec command => bool_decide (command = ["git"; "rev-parse"; "--show-toplevel"])
  | _ => false
  end.

(** No event of the trace satisfies [p]. *)
Definition absent (p : event -> bool) (tr : list event) : Prop :=
  forall e, e ∈ tr -> p e = false.

Definition no_network (tr : list event) : Prop := absent is_network tr.

Definition avoids {A} (p : event -> bool) (m : M A) : Prop := absent p m.1.

Definition is_browser (e : event) : bool :=
  match e with OpenURL _ => true | _ => false end.

(** The stages are followed for three kinds of event: the network call,
    the query for the top level of the repository, and the launch of the
    browser. *)
Definition tracked (p : event -> bool) : Prop :=
  p = is_network \/ p = is_toplevel \/ p = is_browser.

(** A computation that, when it ends the run, has made no network call. *)
Definition silent_stop {A} (m : M A) : Prop :=
  forall tr o, m = (tr, inr o) -> no_network tr.

(** The part of the handler that follows the request. *)
Definition afterRequest (env : Env) (repo : string) (openFlag : bool)
    (gz : compressor) : list event * outcome :=
  run (let! (resp, body) := awaitResponse env gz in
       interpretResponse env repo openFlag resp body).

(** *** The exchange *)






(** *** The response *)

(** [body] contains [phrase] up to the case of ASCII letters. *)
Definition contains_fold (body phrase : string) : Prop :=
  exists a w b, body = a +:+ w +:+ b /\ map_bytes strings.lower_byte w = phrase.

(** The first [n] bytes of [s] are above ASCII. *)
Fixpoint hi_prefix (n : nat) (s : string) : bool :=
  match n, s with
  | O, _ => true
  | S n', String c s' => (0x80 <=? byteZ c) && hi_prefix n' s'
  | S _, EmptyString => false
  end.

Definition map_rune (mapping : Z -> Z) (d : Z * nat) (acc : string) : string :=
  let r := mapping d.1 in
  if 0 <=? r then utf8.EncodeRune r +:+ acc else acc.

Definition map_go (mapping : Z -> Z) (skip : nat) (s : string) : string :=
  foldr (map_rune mapping) "" (utf8.range_go skip s).

(** What [json.Unmarshal] accepts for the payload: [null], or an object
    in which every member named [id] (in any letter case) holds a string
    or [null]. *)
Definition id_member_ok (m : string * json.Value) : Prop :=
  json.is_id_key m.1 = true -> m.2 = json.Null \/ exists s, m.2 = json.Str s.

Definition accepted (v : json.Value) : Prop :=
  v = json.Null \/ exists ms, v = json.Object ms /\ Forall id_member_ok ms.

(** Valid JSON with an [id] field. *)
Definition has_id_field (v : json.Value) : Prop :=
  exists ms x, v = json.Object ms /\ ("id", x) ∈ ms.

Definition valid_json_with_id (body : string) : Prop :=
  exists v, json.parse body = Some v /\ has_id_field v.

Definition is_ParseError (e : error) : Prop :=
  exists text, e = SyntaxError text \/ e = UnmarshalTypeError text.

(** The artifact reference: the type-tagged literal [LSIFUpload:"ID"],
    base64 URL-encoded; and the status page it is part of. *)
Definition reference (ID : string) : string :=
  base64.EncodeToString ("LSIFUpload:" +:+ dquote +:+ ID +:+ dquote).

Definition status_page (endpoint repo ID : string) : string :=
  endpoint +:+ "/" +:+ repo +:+ "/-/settings/code-intelligence/lsif-uploads/"
  +:+ reference ID.

Definition success_lines (target : string) : list event :=
  [Println ""; Println "LSIF dump successfully uploaded for processing.";
   Println ("View processing status at " +:+ target +:+ ".")].

(** *** The project root *)

(** The path begins with a [..] segment. *)
Definition leading_dotdot (root : string) : bool :=
  String.eqb root ".." || strings.HasPrefix root "../".

(** The segments of a slash-separated path. *)
Definition segments (path : string) : list string := strings.Split path "/".

(** The argument names the [root] flag: [-root], [--root], [-root=...]
    or [--root=...]. *)
Definition names_root (arg : string) : bool :=
  String.eqb arg "-root" || String.eqb arg "--root" ||
  strings.HasPrefix arg "-root=" || strings.HasPrefix arg "--root=".

(** *** The query string *)

(** The parameters of the query string, in the order of their names, each
    with its value. *)
Definition query_pairs (repo commit token root indexer : string)
    : list (string * string) :=
  [("commit", commit)] ++
  (if String.eqb token "" then [] else [("github_token", token)]) ++
  (if String.eqb indexer "" then [] else [("indexerName", indexer)]) ++
  [("repository", repo)] ++
  (if String.eqb root "" then [] else [("root", root)]).

Definition render_pair (p : string * string) : string :=
  p.1 +:+ "=" +:+ url.QueryEscape p.2.

(** *** The request *)

(** The headers of the request. *)
Definition request_header (env : Env) : list (string * string) :=
  ("Content-Type", "application/x-ndjson+lsif") ::
  (if negb (String.eqb (cfg_AccessToken env) EmptyString)
   then [("Authorization", String.append "token " (cfg_AccessToken env))]
   else []).

(** *** Sample runs *)

Definition nl : string := String "010"%char EmptyString.

(** A workspace in which git and the file system answer; the remote and
    the commit that git prints, the result of the compressor's copy and
    the answer of the server, which reads the body before it answers,
    are left open. *)
Definition sample_env (remote head : result string) (copy : option error)
    (answer : result Response) : Env :=
  {| cfg_Endpoint := "https://sourcegraph.example.com";
     cfg_AccessToken := "";
     git_remote_get_url := remote;
     git_rev_parse_HEAD := head;
     git_show_toplevel := inl ("/home/dev/mux" +:+ nl);
     os_Stat_IsNotExist := fun _ => false;
     filepath_Abs := fun file => inl ("/home/dev/mux/" +:+ file);
     filepath_Rel := fun _ _ => inl "dump.lsif";
     os_Open := fun _ => None;
     gzip_copy := copy;
     http_NewRequest := None;
     http_Do := answer;
     http_awaits_body := true;
     isatty_IsTerminal := false;
     browser_OpenURL := fun _ => None;
     unicode_lower := fun r => r |}.

Definition sample_remote : result string :=
  inl ("git@github.com:gorilla/mux.git" +:+ nl).

Definition sample_head : result string :=
  inl ("0123456789abcdef0123456789abcdef01234567" +:+ nl).

Definition ok_response (body : string) : result Response :=
  inl (mkResponse 200 "200 OK" (inl body)).

(** The body [{"id":"abc"}]. *)
Definition id_abc : string :=
  "{" +:+ dquote +:+ "id" +:+ dquote +:+ ":" +:+ dquote +:+ "abc" +:+ dquote +:+ "}".

(** The request of a sample run with the given query string. *)
Definition sample_request (query : string) : Request :=
  mkRequest "POST"
    (url.mkURL "https" "" None "sourcegraph.example.com" "/.api/lsif/upload" ""
               false query "")
    [("Content-Type", "application/x-ndjson+lsif")].

Definition sample_query : string :=
  "commit=0123456789abcdef0123456789abcdef01234567&repository=github.com%2Fgorilla%2Fmux".

(** The body [{"id":5}]. *)
Definition id_5 : string := "{" +:+ dquote +:+ "id" +:+ dquote +:+ ":5}".

(** The sample workspace without the dump file. *)
Definition without_file (env : Env) : Env :=
  {| cfg_Endpoint := cfg_Endpoint env;
     cfg_AccessToken := cfg_AccessToken env;
     git_remote_get_url := git_remote_get_url env;
     git_rev_parse_HEAD := git_rev_parse_HEAD env;
     git_show_toplevel := git_show_toplevel env;
     os_Stat_IsNotExist := fun _ => true;
     filepath_Abs := filepath_Abs env;
     filepath_Rel := filepath_Rel env;
     os_Open := os_Open env;
     gzip_copy := gzip_copy env;
     http_NewRequest := http_NewRequest env;
     http_Do := http_Do env;
     http_awaits_body := http_awaits_body env;
     isatty_IsTerminal := isatty_IsTerminal env;
     browser_OpenURL := browser_OpenURL env;
     unicode_lower := unicode_lower env |}.

(** The same workspace with a server that answers before it has read
    the body. *)
Definition answering_early (env : Env) : Env :=
  {| cfg_Endpoint := cfg_Endpoint env;
     cfg_AccessToken := cfg_AccessToken env;
     git_remote_get_url := git_remote_get_url env;
     git_rev_parse_HEAD := git_rev_parse_HEAD env;
     git_show_toplevel := git_show_toplevel env;
     os_Stat_IsNotExist := os_Stat_IsNotExist env;
     filepath_Abs := filepath_Abs env;
     filepath_Rel := filepath_Rel env;
     os_Open := os_Open env;
     gzip_copy := gzip_copy env;
     http_NewRequest := http_NewRequest env;
     http_Do := http_Do env;
     http_awaits_body := false;
     isatty_IsTerminal := isatty_IsTerminal env;
     browser_OpenURL := browser_OpenURL env;
     unicode_lower := unicode_lower env |}.

(** The answer of a server that fails. *)
Definition failed_response (body : string) : result Response :=
  inl (mkResponse 500 "500 Internal Server Error" (inl body)).

(** *** More kinds of event *)


(** The commands the handler runs: three queries to git. *)
Definition git_queries : list (list string) :=
  [["git"; "remote"; "get-url"; "origin"];
   ["git"; "rev-parse"; "HEAD"];
   ["git"; "rev-parse"; "--show-toplevel"]].

Definition is_other_command (e : event) : bool :=
  match e with
  | Exec command => negb (bool_decide (command ∈ git_queries))
  | _ => false
  end.

(** The requests of a trace, in order. *)
Definition requests (tr : list event) : list event := List.filter is_network tr.

(** The commands of a trace, in order. *)
Definition commands (tr : list event) : list (list string) :=
  omap (fun e => match e with Exec command => Some command | _ => None end) tr.

(** *** The command line *)

(** The argument has the shape of a flag: at least two bytes, the first a
    dash. *)
Definition flag_shaped (arg : string) : bool :=
  match arg with
  | String c0 (String _ _) => Ascii.eqb c0 "-"
  | _ => false
  end.

(** *** The root derived from the place of the dump file *)

(** Lines 121-128: the path of the dump file relative to the top level of
    the repository, or the first error on the way. *)
Definition relative_file (env : Env) (file : string) : result string :=
  let? topLevel := git_show_toplevel env in
  let? absFile := filepath_Abs env file in
  filepath_Rel env (strings.TrimSpace topLevel) absFile.

(** *** Text between white space *)

(** An ASCII byte that is not white space. *)
Definition solid (c : ascii) : bool :=
  (byteZ c <? utf8.RuneSelf) && negb (strings.asciiSpace c).

(** The text is empty, or begins and ends with a solid byte. *)
Definition trimmed (s : string) : bool :=
  match s with
  | EmptyString => true
  | String c _ =>
    solid c && from_option solid false (String.get (len s - 1) s)
  end.

(** *** The body of a successful response *)

(** A byte that a JSON string literal holds as it is: printable ASCII
    other than the quote and the backslash. *)
Definition plain_id_byte (c : ascii) : bool :=
  (32 <=? byteZ c) && (byteZ c <? utf8.RuneSelf) &&
  negb (Ascii.eqb c "034"%char) && negb (Ascii.eqb c "\"%char).

(** The body [{"id":"ID"}]. *)
Definition id_body (ID : string) : string :=
  "{" +:+ dquote +:+ "id" +:+ dquote +:+ ":" +:+ dquote +:+ ID +:+ dquote +:+ "}".

(** *** The bytes of an escaped value *)

(** The bytes [QueryEscape] writes: letters, digits, the marks it leaves
    as they are, the sign of an escape and the plus that stands for a
    space. *)
Definition query_safe (c : ascii) : bool := is_alnum c || byte_in c "-_.~%+".

(** *** The symbols of an encoded reference *)

(** The symbols of [base64.URLEncoding]: letters, digits, dash,
    underscore, and the padding. *)
Definition base64_byte (c : ascii) : bool := is_alnum c || byte_in c "-_=".

(** The place of a byte in a string (its length when absent). *)
Fixpoint index_of (c : ascii) (s : string) : Z :=
  match s with
  | EmptyString => 0
  | String d s' => if Ascii.eqb c d then 0 else 1 + index_of c s'
  end.

(** The six bits a symbol stands for. *)
Definition sextet (c : ascii) : Z := index_of c base64.encodeURL.

(** The bytes that an encoded text stands for, read four symbols at a
    time. *)
Fixpoint decode_quads (s : string) : string :=
  match s with
  | String w (String x (String y (String z rest))) =>
    let b0 := byte_of_Z (Z.lor (Z.shiftl (sextet w) 2) (Z.shiftr (sextet x) 4)) in
    if Ascii.eqb y base64.StdPadding then String b0 EmptyString
    else
      let b1 := byte_of_Z (Z.lor (Z.shiftl (Z.land (sextet x) 15) 4)
                                 (Z.shiftr (sextet y) 2)) in
      if Ascii.eqb z base64.StdPadding then String b0 (String b1 EmptyString)
      else
        let b2 := byte_of_Z (Z.lor (Z.shiftl (Z.land (sextet y) 3) 6) (sextet z)) in
        String b0 (String b1 (String b2 (decode_quads rest)))
  | _ => EmptyString
  end.

(** All the bytes, and a check of a property on each of them. *)
Definition all_ascii : list ascii := List.map ascii_of_nat (List.seq 0 256).

Definition all256 (p : ascii -> bool) : bool := List.forallb p all_ascii.

(** *** The names of a clean path *)

(** The name of a file or directory: not empty, no slash, and neither
    [.] nor [..]. *)
Definition proper_name (e : string) : bool :=
  negb (String.eqb e "") && negb (byte_in "/" e) &&
  negb (String.eqb e ".") && negb (String.eqb e "..").

(** The path of the names, from the root or relative. *)
Definition join_path (rooted : bool) (names : list string) : string :=
  (if rooted then "/" else "") +:+ String.concat "/" names.

(** [k] times [..]. *)
Definition parents (k : nat) : list string := replicate k "..".

Definition nonempty (e : string) : Prop := e <> "".


(** * Properties *)

(** ** Strings *)

Lemma append_nil_r (s : string) : s +:+ "" = s.
Proof. induction s as [|c s IH]; simpl; [reflexivity | now rewrite IH]. Qed.

Lemma append_assoc (s t u : string) : (s +:+ t) +:+ u = s +:+ t +:+ u.
Proof. induction s as [|c s IH]; simpl; [reflexivity | now rewrite IH]. Qed.

Lemma len_app (s t : string) : len (s +:+ t) = (len s + len t)%nat.
Proof. unfold len. induction s as [|c s IH]; simpl; [reflexivity | now rewrite IH]. Qed.

Lemma take_app (s t : string) : take_bytes (len s) (s +:+ t) = s.
Proof. unfold len. induction s as [|c s IH]; simpl; [reflexivity | now rewrite IH]. Qed.

Lemma drop_app (s t : string) : drop_bytes (len s) (s +:+ t) = t.
Proof. unfold len. induction s as [|c s IH]; simpl; [reflexivity | assumption]. Qed.

Lemma take_drop (n : nat) (s : string) : take_bytes n s +:+ drop_bytes n s = s.
Proof.
  revert s. induction n as [|n IH]; intros [|c s]; simpl; try reflexivity.
  now rewrite IH.
Qed.

Lemma take_all (s : string) : take_bytes (len s) s = s.
Proof. rewrite <- (append_nil_r s) at 2. apply take_app. Qed.

Lemma drop_app_plus (n : nat) (s t : string) :
  drop_bytes (len s + n) (s +:+ t) = drop_bytes n t.
Proof. unfold len. induction s as [|c s IH]; simpl; [reflexivity | assumption]. Qed.

Lemma all_bytes_app (p : ascii -> bool) (s t : string) :
  all_bytes p (s +:+ t) = all_bytes p s && all_bytes p t.
Proof.
  induction s as [|c s IH]; simpl; [reflexivity |].
  now rewrite IH, andb_assoc.
Qed.

Lemma byte_in_app (c : ascii) (s t : string) :
  byte_in c (s +:+ t) = byte_in c s || byte_in c t.
Proof.
  induction s as [|d s IH]; simpl; [reflexivity |].
  now rewrite IH, orb_assoc.
Qed.

Lemma HasPrefix_nil (s : string) : strings.HasPrefix s "" = true.
Proof. reflexivity. Qed.

Lemma HasPrefix_cons (c d : ascii) (s p : string) :
  strings.HasPrefix (String c s) (String d p)
  = Ascii.eqb c d && strings.HasPrefix s p.
Proof.
  unfold strings.HasPrefix, len. simpl.
  destruct (Ascii.eqb c d), (String.length p <=? String.length s)%nat; reflexivity.
Qed.

Lemma HasPrefix_empty (d : ascii) (p : string) :
  strings.HasPrefix "" (String d p) = false.
Proof. reflexivity. Qed.

Lemma HasPrefix_app (p t : string) : strings.HasPrefix (p +:+ t) p = true.
Proof.
  induction p as [|c p IH]; [reflexivity |].
  simpl. rewrite HasPrefix_cons, IH, Ascii.eqb_refl. reflexivity.
Qed.

Lemma HasPrefix_spec (s p : string) :
  strings.HasPrefix s p = true <-> exists t, s = p +:+ t.
Proof.
  split.
  - revert s. induction p as [|d p IH]; intros s H.
    + now exists s.
    + destruct s as [|c s]; [discriminate |].
      rewrite HasPrefix_cons in H. apply andb_prop in H as [Hc Hp].
      apply Ascii.eqb_eq in Hc as ->. destruct (IH _ Hp) as [t ->].
      now exists t.
  - intros [t ->]. apply HasPrefix_app.
Qed.

Lemma TrimPrefix_app (p t : string) : strings.TrimPrefix (p +:+ t) p = t.
Proof. unfold strings.TrimPrefix. now rewrite HasPrefix_app, drop_app. Qed.

Lemma HasSuffix_app (s suf : string) : strings.HasSuffix (s +:+ suf) suf = true.
Proof.
  unfold strings.HasSuffix. rewrite len_app.
  replace (len s + len suf - len suf)%nat with (len s) by lia.
  rewrite drop_app, String.eqb_refl, andb_true_r.
  apply Nat.leb_le. lia.
Qed.

Lemma TrimSuffix_app (s suf : string) : strings.TrimSuffix (s +:+ suf) suf = s.
Proof.
  unfold strings.TrimSuffix. rewrite HasSuffix_app, len_app.
  replace (len s + len suf - len suf)%nat with (len s) by lia.
  apply take_app.
Qed.

(** *** Searching for one byte *)


Lemma Index_absent (c : ascii) (s : string) :
  byte_in c s = false -> strings.Index s (String c "") = None.
Proof.
  induction s as [|d s IH]; intros H; [reflexivity |].
  cbn [byte_in] in H. apply orb_false_elim in H as [Hd Hs].
  cbn [strings.Index]. rewrite HasPrefix_cons, HasPrefix_nil, andb_true_r.
  rewrite Ascii.eqb_sym, Hd. now rewrite (IH Hs).
Qed.

Lemma Index_first (c : ascii) (a b : string) :
  byte_in c a = false ->
  strings.Index (a +:+ String c b) (String c "") = Some (len a).
Proof.
  induction a as [|d a IH]; intros H.
  - simpl. now rewrite HasPrefix_cons, Ascii.eqb_refl.
  - cbn [byte_in] in H. apply orb_false_elim in H as [Hd Ha].
    simpl. rewrite HasPrefix_cons, HasPrefix_nil, andb_true_r.
    rewrite Ascii.eqb_sym, Hd. now rewrite (IH Ha).
Qed.

Lemma LastIndex_absent (c : ascii) (s : string) :
  byte_in c s = false -> strings.LastIndex s (String c "") = None.
Proof.
  induction s as [|d s IH]; intros H; [reflexivity |].
  cbn [byte_in] in H. apply orb_false_elim in H as [Hd Hs].
  cbn [strings.LastIndex]. rewrite (IH Hs).
  now rewrite HasPrefix_cons, Ascii.eqb_sym, Hd.
Qed.

Lemma Contains_absent (c : ascii) (s : string) :
  byte_in c s = false -> strings.Contains s (String c "") = false.
Proof.
  intros H. unfold strings.Contains. rewrite (Index_absent _ _ H).
  apply bool_decide_eq_false. intros [x Hx]. discriminate.
Qed.

Lemma Cut_absent (c : ascii) (s : string) :
  byte_in c s = false -> strings.Cut s (String c "") = (s, "", false).
Proof. intros H. unfold strings.Cut. now rewrite (Index_absent _ _ H). Qed.

Lemma Split_two (c : ascii) (a b : string) :
  byte_in c a = false -> byte_in c b = false ->
  strings.Split (a +:+ String c b) (String c "") = [a; b].
Proof.
  intros Ha Hb. unfold strings.Split. cbn [String.eqb].
  rewrite len_app. cbn [len String.length].
  replace (len a + S (String.length b))%nat with (S (len a + String.length b)) by lia.
  cbn [strings.split_go]. rewrite (Index_first _ _ _ Ha).
  rewrite take_app. f_equal.
  change (len (String c "")) with 1%nat.
  rewrite drop_app_plus. cbn [drop_bytes].
  destruct (len a + String.length b)%nat; cbn [strings.split_go]; [reflexivity |].
  now rewrite (Index_absent _ _ Hb).
Qed.


Lemma all_bytes_impl (p q : ascii -> bool) (s : string) :
  (forall c, p c = true -> q c = true) ->
  all_bytes p s = true -> all_bytes q s = true.
Proof.
  intros Hpq. induction s as [|c s IH]; simpl; [reflexivity |].
  intros H. apply andb_prop in H as [Hc Hs].
  now rewrite (Hpq _ Hc), (IH Hs).
Qed.

Lemma all_bytes_absent (p : ascii -> bool) (d : ascii) (s : string) :
  p d = false -> all_bytes p s = true -> byte_in d s = false.
Proof.
  intros Hd. induction s as [|c s IH]; simpl; [reflexivity |].
  intros H. apply andb_prop in H as [Hc Hs]. rewrite (IH Hs), orb_false_r.
  destruct (Ascii.eqb_spec d c) as [-> | Hne]; [congruence | reflexivity].
Qed.

Ltac by_cases c :=
  destruct c as [[] [] [] [] [] [] [] []]; vm_compute; intuition congruence.

Lemma scheme_byte_step (c : ascii) :
  scheme_byte c = true ->
  is_letter c = true \/ (is_letter c = false /\ (is_digit c || byte_in c "+-.") = true).
Proof. by_cases c. Qed.

Lemma scheme_byte_no_ctl (c : ascii) : scheme_byte c = true -> negb (is_ctl c) = true.
Proof. by_cases c. Qed.

Lemma host_byte_no_ctl (c : ascii) : host_byte c = true -> negb (is_ctl c) = true.
Proof. by_cases c. Qed.

Lemma path_byte_no_ctl (c : ascii) : path_byte c = true -> negb (is_ctl c) = true.
Proof. by_cases c. Qed.

Lemma host_byte_unescaped (c : ascii) :
  host_byte c = true ->
  Ascii.eqb c "%" = false /\
  ((byteZ c <? 0x80) && url.shouldEscape c url.encodeHost) = false.
Proof. by_cases c. Qed.

Lemma is_letter_not_star (c : ascii) : is_letter c = true -> Ascii.eqb c "*" = false.
Proof. by_cases c. Qed.

(** ** net/url on plain text *)

Lemma stringContainsCTLByte_plain (s : string) :
  all_bytes (fun c => negb (is_ctl c)) s = true ->
  url.stringContainsCTLByte s = false.
Proof.
  intros H. unfold url.stringContainsCTLByte. now rewrite H.
Qed.

Lemma unescape_build_plain (s : string) (mode : url.encoding) :
  byte_in "%" s = false -> mode <> url.encodeQueryComponent ->
  url.unescape_build s mode = s.
Proof.
  intros Hs Hmode. induction s as [|c s IH]; [reflexivity |].
  cbn [byte_in] in Hs. apply orb_false_elim in Hs as [Hc Hs].
  cbn [url.unescape_build]. rewrite Ascii.eqb_sym, Hc, (IH Hs).
  destruct (Ascii.eqb c "+"); [| reflexivity].
  destruct mode; try reflexivity. congruence.
Qed.

Lemma unescape_check_path (s : string) :
  byte_in "%" s = false -> url.unescape_check s url.encodePath = None.
Proof.
  induction s as [|c s IH]; intros Hs; [reflexivity |].
  cbn [byte_in] in Hs. apply orb_false_elim in Hs as [Hc Hs].
  cbn [url.unescape_check]. rewrite Ascii.eqb_sym, Hc, (IH Hs).
  cbn [url.is_host_mode andb]. now destruct (Ascii.eqb c "+").
Qed.

Lemma unescape_path_plain (s : string) :
  byte_in "%" s = false -> url.unescape s url.encodePath = inl s.
Proof.
  intros H. unfold url.unescape.
  rewrite (unescape_check_path _ H), unescape_build_plain; [reflexivity | assumption | discriminate].
Qed.

Lemma unescape_check_host (s : string) :
  all_bytes host_byte s = true -> url.unescape_check s url.encodeHost = None.
Proof.
  induction s as [|c s IH]; intros Hs; [reflexivity |].
  simpl in Hs. apply andb_prop in Hs as [Hc Hs].
  destruct (host_byte_unescaped _ Hc) as [Hpct Hesc].
  cbn [url.unescape_check]. rewrite Hpct, (IH Hs).
  cbn [url.is_host_mode andb]. rewrite Hesc. now destruct (Ascii.eqb c "+").
Qed.

Lemma host_no_byte (d : ascii) (s : string) :
  host_byte d = false -> all_bytes host_byte s = true -> byte_in d s = false.
Proof. apply all_bytes_absent. Qed.

Lemma unescape_host_plain (s : string) :
  all_bytes host_byte s = true -> url.unescape s url.encodeHost = inl s.
Proof.
  intros H. unfold url.unescape. rewrite (unescape_check_host _ H).
  rewrite unescape_build_plain; [reflexivity | | discriminate].
  now apply (host_no_byte "%").
Qed.

Lemma HasPrefix_one_absent (c : ascii) (s : string) :
  byte_in c s = false -> strings.HasPrefix s (String c "") = false.
Proof.
  destruct s as [|d s]; [reflexivity |]. cbn [byte_in]. intros H.
  apply orb_false_elim in H as [Hd _].
  now rewrite HasPrefix_cons, Ascii.eqb_sym, Hd.
Qed.

Lemma parseHost_plain (h : string) :
  all_bytes host_byte h = true -> url.parseHost h = inl h.
Proof.
  intros H. unfold url.parseHost.
  rewrite (HasPrefix_one_absent "[" h) by now apply host_no_byte.
  rewrite (LastIndex_absent ":" h) by now apply host_no_byte.
  now apply unescape_host_plain.
Qed.

Lemma parseAuthority_plain (h : string) :
  all_bytes host_byte h = true -> url.parseAuthority h = inl (None, h).
Proof.
  intros H. unfold url.parseAuthority.
  rewrite (LastIndex_absent "@" h) by now apply host_no_byte.
  now rewrite parseHost_plain.
Qed.

Lemma Hostname_plain (u : url.URL) :
  all_bytes host_byte (url.Host u) = true -> url.Hostname u = url.Host u.
Proof.
  intros H. unfold url.Hostname, url.splitHostPort.
  rewrite (LastIndex_absent ":" _) by now apply host_no_byte.
  now rewrite (HasPrefix_one_absent "[" _) by now apply host_no_byte.
Qed.

Lemma getScheme_go_scheme (sch rest raw : string) (i : nat) :
  all_bytes scheme_byte sch = true -> (0 < i)%nat ->
  url.getScheme_go i raw (sch +:+ String ":" rest)
  = inl (take_bytes (i + len sch) raw, rest).
Proof.
  revert i. induction sch as [|c sch IH]; intros i Hs Hi.
  - cbn. destruct i; [lia |]. cbn. now rewrite Nat.add_0_r.
  - simpl in Hs. apply andb_prop in Hs as [Hc Hs].
    cbn [String.append url.getScheme_go].
    replace (i + len (String c sch))%nat with (S i + len sch)%nat
      by (unfold len; simpl; lia).
    destruct (scheme_byte_step _ Hc) as [-> | [-> ->]].
    + apply IH; [assumption | lia].
    + destruct i; [lia |]. cbn [Nat.eqb]. apply IH; [assumption | lia].
Qed.

Lemma getScheme_scheme (scheme rest : string) :
  valid_scheme scheme = true ->
  url.getScheme (scheme +:+ String ":" rest) = inl (scheme, rest).
Proof.
  destruct scheme as [|c sch]; [discriminate |]. simpl.
  intros H. apply andb_prop in H as [Hc Hs].
  unfold url.getScheme. cbn [String.append url.getScheme_go]. rewrite Hc.
  rewrite getScheme_go_scheme by (assumption || lia).
  f_equal. f_equal. cbn [Nat.add take_bytes]. f_equal. apply take_app.
Qed.

Lemma lower_scheme_nonempty (scheme : string) :
  valid_scheme scheme = true ->
  String.eqb (map_bytes strings.lower_byte scheme) "" = false.
Proof. destruct scheme; [discriminate | reflexivity]. Qed.

Lemma HasSuffix_one_absent (c : ascii) (s : string) :
  byte_in c s = false -> strings.HasSuffix s (String c "") = false.
Proof.
  intros H. unfold strings.HasSuffix.
  destruct (len (String c "") <=? len s)%nat eqn:Hle; [| reflexivity].
  apply Nat.leb_le in Hle. cbn [andb].
  apply String.eqb_neq. intros Heq.
  assert (Hin : byte_in c (take_bytes (len s - len (String c "")) s +:+
                            drop_bytes (len s - len (String c "")) s) = true).
  { rewrite Heq, byte_in_app. simpl. now rewrite Ascii.eqb_refl, orb_true_r. }
  rewrite take_drop in Hin. congruence.
Qed.

Lemma scheme_no_byte (d : ascii) (scheme : string) :
  scheme_byte d = false -> valid_scheme scheme = true -> byte_in d scheme = false.
Proof.
  intros Hd. destruct scheme as [|c sch]; [reflexivity |]. cbn [valid_scheme].
  intros H. apply andb_prop in H as [Hc Hs].
  apply (all_bytes_absent scheme_byte); [assumption |].
  cbn [all_bytes]. rewrite Hs, andb_true_r.
  unfold scheme_byte. now rewrite Hc.
Qed.

Lemma path_no_byte (d : ascii) (s : string) :
  path_byte d = false -> all_bytes path_byte s = true -> byte_in d s = false.
Proof. apply all_bytes_absent. Qed.

Lemma valid_scheme_no_ctl (scheme : string) :
  valid_scheme scheme = true ->
  all_bytes (fun c => negb (is_ctl c)) scheme = true.
Proof.
  destruct scheme as [|c sch]; [reflexivity |]. cbn [valid_scheme].
  intros H. apply andb_prop in H as [Hc Hs]. cbn [all_bytes].
  rewrite (all_bytes_impl _ _ _ scheme_byte_no_ctl Hs), andb_true_r.
  apply scheme_byte_no_ctl. unfold scheme_byte. now rewrite Hc.
Qed.

Lemma url_text_absent (d : ascii) (scheme host path : string) :
  valid_scheme scheme = true -> all_bytes host_byte host = true ->
  all_bytes path_byte path = true ->
  scheme_byte d = false -> host_byte d = false -> path_byte d = false ->
  byte_in d (url_text scheme host path) = false.
Proof.
  intros Hs Hh Hp Hds Hdh Hdp. unfold url_text.
  rewrite !byte_in_app, (scheme_no_byte _ _ Hds Hs), (host_no_byte _ _ Hdh Hh),
    (path_no_byte _ _ Hdp Hp).
  cbn [byte_in orb].
  revert Hdh Hdp. destruct d as [[] [] [] [] [] [] [] []]; vm_compute; congruence.
Qed.

Lemma url_text_no_ctl (scheme host path : string) :
  valid_scheme scheme = true -> all_bytes host_byte host = true ->
  all_bytes path_byte path = true ->
  all_bytes (fun c => negb (is_ctl c)) (url_text scheme host path) = true.
Proof.
  intros Hs Hh Hp. unfold url_text. rewrite !all_bytes_app.
  rewrite (valid_scheme_no_ctl _ Hs), (all_bytes_impl _ _ _ host_byte_no_ctl Hh),
    (all_bytes_impl _ _ _ path_byte_no_ctl Hp).
  reflexivity.
Qed.

Lemma url_text_not_star (scheme host path : string) :
  valid_scheme scheme = true ->
  String.eqb (url_text scheme host path) "*" = false.
Proof.
  destruct scheme as [|c sch]; [discriminate |]. cbn [valid_scheme].
  intros H. apply andb_prop in H as [Hc _].
  unfold url_text. cbn [String.append String.eqb].
  now rewrite (is_letter_not_star _ Hc).
Qed.

Lemma parse_url_text (scheme host path : string) :
  valid_scheme scheme = true -> all_bytes host_byte host = true ->
  all_bytes path_byte path = true ->
  exists u,
    url.parse (url_text scheme host path) false = inl u /\
    url.Host u = host /\ url.Path u = "/" +:+ path.
Proof.
  intros Hs Hh Hp. unfold url.parse.
  rewrite (stringContainsCTLByte_plain _ (url_text_no_ctl _ _ _ Hs Hh Hp)).
  rewrite andb_false_r, (url_text_not_star _ _ _ Hs).
  unfold url_text at 1. change ("://" +:+ host +:+ "/" +:+ path)
    with (String ":" ("//" +:+ host +:+ "/" +:+ path)).
  rewrite (getScheme_scheme _ _ Hs). cbn [bind_result].
  assert (Hq : byte_in "?" ("//" +:+ host +:+ "/" +:+ path) = false).
  { rewrite !byte_in_app, (host_no_byte "?" _ eq_refl Hh), (path_no_byte "?" _ eq_refl Hp).
    reflexivity. }
  rewrite (HasSuffix_one_absent _ _ Hq). cbn [andb].
  rewrite (Cut_absent _ _ Hq).
  change ("//" +:+ host +:+ "/" +:+ path) with ("/" +:+ ("/" +:+ host +:+ "/" +:+ path)) at 1 2 3.
  rewrite HasPrefix_app. cbn [negb andb].
  rewrite (lower_scheme_nonempty _ Hs). cbn [negb orb andb].
  change ("/" +:+ "/" +:+ host +:+ "/" +:+ path) with ("//" +:+ (host +:+ "/" +:+ path)).
  rewrite HasPrefix_app.
  change (drop_bytes 2 ("//" +:+ host +:+ "/" +:+ path)) with (host +:+ "/" +:+ path).
  change (host +:+ "/" +:+ path) with (host +:+ String "/" path).
  rewrite (Index_first "/" host path) by now apply host_no_byte.
  rewrite take_app, drop_app, (parseAuthority_plain _ Hh). cbn [bind_result].
  rewrite unescape_path_plain.
  2:{ cbn [byte_in]. rewrite (path_no_byte "%" _ eq_refl Hp). reflexivity. }
  cbn [bind_result]. eexists. split; [reflexivity |]. split; reflexivity.
Qed.

Lemma Parse_url_text (scheme host path : string) :
  valid_scheme scheme = true -> all_bytes host_byte host = true ->
  all_bytes path_byte path = true ->
  exists u,
    url.Parse (url_text scheme host path) = inl u /\
    url.Host u = host /\ url.Path u = "/" +:+ path.
Proof.
  intros Hs Hh Hp. unfold url.Parse.
  rewrite (Cut_absent "#") by now apply url_text_absent.
  destruct (parse_url_text _ _ _ Hs Hh Hp) as (u & -> & Hhost & Hpath).
  cbn [String.eqb]. now exists u.
Qed.

Lemma scheme_byte_not_at (c : ascii) : scheme_byte c = true -> Ascii.eqb c "@" = false.
Proof. by_cases c. Qed.

Lemma scheme_not_git (scheme rest : string) :
  valid_scheme scheme = true ->
  strings.HasPrefix (scheme +:+ String ":" rest) "git@" = false.
Proof.
  destruct scheme as [|c0 sch]; [discriminate |]. cbn [valid_scheme].
  intros H. apply andb_prop in H as [_ Hs].
  destruct sch as [|c1 [|c2 [|c3 sch]]]; cbn [String.append];
    rewrite ?HasPrefix_cons; cbn [Ascii.eqb Bool.eqb andb];
    rewrite ?andb_false_r; try reflexivity.
  cbn [all_bytes] in Hs.
  apply andb_prop in Hs as [_ Hs]. apply andb_prop in Hs as [_ Hs].
  apply andb_prop in Hs as [H3 _].
  pose proof (scheme_byte_not_at _ H3) as E. unfold Ascii.eqb in E.
  destruct c3 as [b0 b1 b2 b3 b4 b5 b6 b7]. cbn [Bool.eqb] in *.
  rewrite ?andb_assoc in *. 
  destruct (Ascii.eqb c0 "g"), (Ascii.eqb c1 "i"), (Ascii.eqb c2 "t"); cbn [andb]; try reflexivity.
  rewrite HasPrefix_nil, andb_true_r. exact E.
Qed.


Lemma parseRemoteURL_ssh (H P : string) :
  byte_in ":" H = false -> byte_in ":" P = false ->
  strings.HasPrefix P "/" = false ->
  parseRemoteURL (ssh_remote H P) = inl (repo_name H P).
Proof.
  intros HH HP Hslash. unfold parseRemoteURL, ssh_remote.
  rewrite HasPrefix_app.
  rewrite <- (append_assoc "git@" H).
  change (":" +:+ P +:+ ".git") with (String ":" (P +:+ ".git")).
  rewrite Split_two.
  - rewrite TrimPrefix_app, TrimSuffix_app. unfold strings.TrimPrefix.
    now rewrite Hslash.
  - rewrite byte_in_app, HH. reflexivity.
  - rewrite byte_in_app, HP. reflexivity.
Qed.

Lemma parseRemoteURL_url (scheme H P : string) :
  valid_scheme scheme = true -> all_bytes host_byte H = true ->
  all_bytes path_byte P = true ->
  parseRemoteURL (url_remote scheme H P) = inl (repo_name H P).
Proof.
  intros Hs HH HP. unfold parseRemoteURL, url_remote.
  change ("://" +:+ H +:+ "/" +:+ P +:+ ".git")
    with (String ":" ("//" +:+ H +:+ "/" +:+ P +:+ ".git")).
  rewrite (scheme_not_git _ _ Hs).
  change (scheme +:+ String ":" ("//" +:+ H +:+ "/" +:+ P +:+ ".git"))
    with (url_text scheme H (P +:+ ".git")).
  destruct (Parse_url_text scheme H (P +:+ ".git")) as (u & -> & Hhost & Hpath);
    try assumption.
  { rewrite all_bytes_app, HP. reflexivity. }
  rewrite Hostname_plain by now rewrite Hhost.
  rewrite Hhost, Hpath.
  change ("/" +:+ P +:+ ".git") with (String "/" (P +:+ ".git")).
  change (String "/" (P +:+ ".git")) with (String "/" P +:+ ".git").
  now rewrite TrimSuffix_app.
Qed.

Lemma split_go_skip (f : nat) (c d : ascii) (s : string) :
  Ascii.eqb d c = false ->
  length (strings.split_go f (String d s) (String c "")) =
  length (strings.split_go f s (String c "")).
Proof.
  intros Hd. destruct f as [|f]; [reflexivity |].
  cbn [strings.split_go strings.Index].
  rewrite HasPrefix_cons, Hd. cbn [andb].
  destruct (strings.Index s (String c "")) as [i|]; reflexivity.
Qed.

Lemma split_go_count (c : ascii) (s : string) (f : nat) :
  (len s <= f)%nat ->
  length (strings.split_go f s (String c "")) = S (count_byte c s).
Proof.
  revert f. induction s as [|d s IH]; intros f Hf.
  - destruct f; reflexivity.
  - cbn [count_byte]. destruct (Ascii.eqb d c) eqn:Hd.
    + destruct f as [|f]; [cbn in Hf; lia |].
      cbn [strings.split_go strings.Index]. rewrite HasPrefix_cons, Hd, HasPrefix_nil.
      cbn [andb take_bytes drop_bytes Nat.add len String.length length].
      rewrite IH; [reflexivity | cbn in Hf; unfold len; lia].
    + rewrite (split_go_skip _ _ _ _ Hd). apply IH. cbn in Hf. unfold len. lia.
Qed.

Lemma Split_count (c : ascii) (s : string) :
  length (strings.Split s (String c "")) = S (count_byte c s).
Proof. unfold strings.Split. cbn [String.eqb]. now apply split_go_count. Qed.

Lemma parseRemoteURL_error (s : string) (e : error) :
  parseRemoteURL s = inr e -> e = errorString ("unrecognized remote URL: " +:+ s).
Proof.
  unfold parseRemoteURL.
  destruct (strings.HasPrefix s "git@").
  - destruct (strings.Split s ":") as [|p0 [|p1 [|p2 ps]]]; congruence.
  - destruct (url.Parse s); congruence.
Qed.

Lemma parseRemoteURL_fails (s : string) :
  (exists e, parseRemoteURL s = inr e) <->
  (strings.HasPrefix s "git@" = true /\ count_byte ":" s <> 1%nat) \/
  (strings.HasPrefix s "git@" = false /\ exists e, url.Parse s = inr e).
Proof.
  unfold parseRemoteURL. pose proof (Split_count ":" s) as Hn.
  destruct (strings.HasPrefix s "git@").
  - split.
    + intros [e He]. left. split; [reflexivity |].
      destruct (strings.Split s ":") as [|p0 [|p1 [|p2 ps]]];
        cbn [length] in Hn; try discriminate; lia.
    + intros [[_ Hc] | [Hf _]]; [| discriminate].
      destruct (strings.Split s ":") as [|p0 [|p1 [|p2 ps]]];
        cbn [length] in Hn; eauto. lia.
  - destruct (url.Parse s) as [u | e0].
    + split; [intros [e He]; discriminate |].
      intros [[Hf _] | [_ [e He]]]; discriminate.
    + split; [intros _; right; eauto | eauto].
Qed.

Lemma ssh_form_colon (s : string) : ssh_form s -> byte_in ":" s = true.
Proof.
  intros (u & h & p & ->). rewrite !byte_in_app. cbn [byte_in Ascii.eqb].
  now rewrite !orb_true_r.
Qed.

Lemma url_form_colon (s : string) : url_form s -> byte_in ":" s = true.
Proof.
  intros (u & h & p & ->). rewrite !byte_in_app. cbn [byte_in Ascii.eqb].
  now rewrite !orb_true_r.
Qed.


(** ** Runs *)

Lemma absent_nil (p : event -> bool) : absent p [].
Proof. intros e H. inversion H. Qed.

Lemma absent_app (p : event -> bool) (tr1 tr2 : list event) :
  absent p tr1 -> absent p tr2 -> absent p (tr1 ++ tr2).
Proof.
  intros H1 H2 e Hin. apply elem_of_app in Hin as [Hin | Hin]; auto.
Qed.

Lemma absent_app_inv (p : event -> bool) (tr1 tr2 : list event) :
  absent p (tr1 ++ tr2) -> absent p tr1 /\ absent p tr2.
Proof.
  intros H. split; intros e Hin; apply H, elem_of_app; auto.
Qed.

Lemma no_network_spec (tr : list event) :
  no_network tr <-> forall req, HTTPDo req ∉ tr.
Proof.
  split.
  - intros H req Hin. specialize (H _ Hin). discriminate.
  - intros H e Hin. destruct e; try reflexivity. exfalso. eapply H; eassumption.
Qed.

Lemma bind_trace {A B} (m : M A) (k : A -> M B) :
  (bind m k).1 = m.1 ++ match m.2 with inl a => (k a).1 | inr _ => [] end.
Proof.
  destruct m as [tr [a | o]]; cbn; [| now rewrite app_nil_r].
  now destruct (k a).
Qed.

Lemma bind_inv_inl {A B} (m : M A) (k : A -> M B) (tr : list event) (b : B) :
  bind m k = (tr, inl b) ->
  exists tr1 a tr2, m = (tr1, inl a) /\ k a = (tr2, inl b) /\ tr = tr1 ++ tr2.
Proof.
  destruct m as [tr1 [a | o]]; cbn; [| discriminate].
  destruct (k a) as [tr2 r] eqn:E. intros [= <- ->]. eauto 6.
Qed.

Lemma bind_inv_inr {A B} (m : M A) (k : A -> M B) (tr : list event) (o : outcome) :
  bind m k = (tr, inr o) ->
  m = (tr, inr o) \/
  exists tr1 a tr2, m = (tr1, inl a) /\ k a = (tr2, inr o) /\ tr = tr1 ++ tr2.
Proof.
  destruct m as [tr1 [a | o1]]; cbn.
  - destruct (k a) as [tr2 r] eqn:E. intros [= <- ->]. right. eauto 6.
  - intros [= <- <-]. now left.
Qed.

Lemma avoids_ret {A} (p : event -> bool) (a : A) : avoids p (ret a).
Proof. apply absent_nil. Qed.

Lemma avoids_stop {A} (p : event -> bool) (o : outcome) : avoids p (@stop A o).
Proof. apply absent_nil. Qed.

Lemma avoids_emit (p : event -> bool) (e : event) : p e = false -> avoids p (emit e).
Proof. intros He e' Hin. apply list_elem_of_singleton in Hin. now subst. Qed.

Lemma avoids_bind {A B} (p : event -> bool) (m : M A) (k : A -> M B) :
  avoids p m -> (forall a, avoids p (k a)) -> avoids p (bind m k).
Proof.
  intros Hm Hk. unfold avoids. rewrite bind_trace.
  apply absent_app; [assumption |].
  destruct m.2; [apply Hk | apply absent_nil].
Qed.

Lemma avoids_run (p : event -> bool) (m : M outcome) : avoids p m -> absent p (run m).1.
Proof. now destruct m as [tr [o | o]]. Qed.

Ltac avoid_step :=
  first
    [ apply avoids_ret | apply avoids_stop
    | apply avoids_emit; reflexivity
    | apply avoids_bind; [| intros ?]
    | match goal with
      | |- avoids _ (match ?x with _ => _ end) => destruct x
      | |- avoids _ (let '(_, _) := ?x in _) => destruct x
      end ].

Ltac avoid_tac := repeat avoid_step.

Ltac tracked_tac H := destruct H as [-> | [-> | ->]]; avoid_tac.

Lemma avoids_println (p : event -> bool) (line : string) :
  tracked p -> avoids p (println line).
Proof. intros H. unfold println. tracked_tac H. Qed.

Lemma avoids_attempt {A} (p : event -> bool) (r : result A) : avoids p (attempt r).
Proof. unfold attempt, return_. avoid_tac. Qed.

Lemma avoids_attempt_err (p : event -> bool) (r : option error) : avoids p (attempt_err r).
Proof. unfold attempt_err, return_. avoid_tac. Qed.

Lemma avoids_checkError {A} (p : event -> bool) (r : result A) :
  tracked p -> avoids p (checkError r).
Proof. intros H. unfold checkError, println, os_Exit. tracked_tac H. Qed.

Lemma avoids_parseFlags (p : event -> bool) (args : list string) :
  avoids p (parseFlags args).
Proof. unfold parseFlags, os_Exit. avoid_tac. Qed.

Lemma avoids_resolveRepository (p : event -> bool) (env : Env) (fs : flag.FlagSet) :
  tracked p -> avoids p (resolveRepository env fs).
Proof. intros H. unfold resolveRepository, println, os_Exit. tracked_tac H. Qed.

Lemma avoids_resolveCommit (p : event -> bool) (env : Env) (fs : flag.FlagSet) :
  tracked p -> avoids p (resolveCommit env fs).
Proof. intros H. unfold resolveCommit, println, os_Exit. tracked_tac H. Qed.

Lemma avoids_checkFile (p : event -> bool) (env : Env) (fs : flag.FlagSet) :
  tracked p -> avoids p (checkFile env fs).
Proof. intros H. unfold checkFile, println, os_Exit. tracked_tac H. Qed.

Lemma quiet_givenRoot (env : Env) (fs : flag.FlagSet) (file : string) :
  avoids is_network (givenRoot env fs file).
Proof.
  unfold givenRoot. avoid_tac; apply avoids_checkError; now left.
Qed.

Lemma givenRoot_explicit (env : Env) (fs : flag.FlagSet) (file : string) :
  isFlagSet fs "root" = true ->
  givenRoot env fs file = ret (flag.String_ fs "root").
Proof. intros H. unfold givenRoot. now rewrite H. Qed.

Lemma avoids_normalizeRoot (p : event -> bool) (root : string) :
  tracked p -> avoids p (normalizeRoot root).
Proof. intros H. unfold normalizeRoot, println, os_Exit. tracked_tac H. Qed.

Lemma quiet_contextUpToRoot (env : Env) (args : list string) :
  avoids is_network (contextUpToRoot env args).
Proof.
  assert (Ht : tracked is_network) by now left.
  unfold contextUpToRoot.
  apply avoids_bind; [apply avoids_parseFlags | intros fs].
  apply avoids_bind; [now apply avoids_resolveRepository | intros repo].
  apply avoids_bind; [now apply avoids_resolveCommit | intros commit].
  apply avoids_bind; [now apply avoids_checkFile | intros file].
  apply avoids_bind; [apply quiet_givenRoot | intros root].
  apply avoids_ret.
Qed.

Lemma silent_stop_quiet {A} (m : M A) : avoids is_network m -> silent_stop m.
Proof. intros H tr o ->. exact H. Qed.

Lemma silent_stop_bind {A B} (m : M A) (k : A -> M B) :
  avoids is_network m -> (forall a, silent_stop (k a)) -> silent_stop (bind m k).
Proof.
  intros Hm Hk tr o Hb.
  apply bind_inv_inr in Hb as [-> | (tr1 & a & tr2 & -> & Hka & ->)].
  - exact Hm.
  - apply absent_app; [exact Hm | eapply Hk; eassumption].
Qed.

Lemma silent_stop_sendRequest (env : Env) (fs : flag.FlagSet)
    (repo commit file root : string) :
  silent_stop (sendRequest env fs repo commit file root).
Proof.
  unfold sendRequest.
  apply silent_stop_bind; [apply avoids_attempt | intros target].
  destruct (flag.Bool_ fs "get-curl").
  { apply silent_stop_quiet. unfold return_. avoid_tac. }
  apply silent_stop_bind; [avoid_tac | intros _].
  apply silent_stop_bind; [apply avoids_attempt_err | intros _].
  apply silent_stop_bind; [apply avoids_attempt_err | intros _].
  intros tr o. cbn. discriminate.
Qed.

Lemma sendRequest_compressor (env : Env) (fs : flag.FlagSet)
    (repo commit file root : string) (tr : list event) (gz : compressor) :
  sendRequest env fs repo commit file root = (tr, inl gz) ->
  gz = gzipReader (gzip_copy env).
Proof.
  unfold sendRequest. intros H.
  apply bind_inv_inl in H as (tr1 & target & tr2 & _ & H & _).
  destruct (flag.Bool_ fs "get-curl"); [discriminate |].
  do 3 apply bind_inv_inl in H as (? & ? & ? & _ & H & _).
  cbn [bind emit ret] in H. now injection H as _ <-.
Qed.

Lemma silent_stop_prepare (env : Env) (args : list string) :
  silent_stop (prepare env args).
Proof.
  unfold prepare.
  apply silent_stop_bind; [apply quiet_contextUpToRoot | intros [[[[fs repo] commit] file] root0]].
  apply silent_stop_bind; [apply avoids_normalizeRoot; now left | intros root].
  intros tr o H. apply bind_inv_inr in H as [H | (? & ? & ? & _ & H & _)].
  - eapply silent_stop_sendRequest; eassumption.
  - discriminate.
Qed.

Lemma prepare_inv (env : Env) (args : list string) (tr : list event)
    (repo : string) (openFlag : bool) (gz : compressor) :
  prepare env args = (tr, inl (repo, openFlag, gz)) ->
  exists tr0 fs commit file root0 tr1,
    contextUpToRoot env args = (tr0, inl (fs, repo, commit, file, root0)) /\
    tr = tr0 ++ tr1 /\ gz = gzipReader (gzip_copy env).
Proof.
  unfold prepare. intros H.
  apply bind_inv_inl in H as (tr0 & [[[[fs repo'] commit] file] root0] & tr1 & Hc & H & ->).
  apply bind_inv_inl in H as (? & root & ? & _ & H & _).
  apply bind_inv_inl in H as (? & gz' & ? & Hs & H & _).
  cbn in H. inversion H; subst.
  exists tr0, fs, commit, file, root0, tr1. split; [assumption |].
  split; [reflexivity |]. eapply sendRequest_compressor; eassumption.
Qed.

Lemma handler_prepared (env : Env) (args : list string) (tr : list event)
    (repo : string) (openFlag : bool) (gz : compressor) :
  prepare env args = (tr, inl (repo, openFlag, gz)) ->
  handler env args =
    (tr ++ (afterRequest env repo openFlag gz).1,
     (afterRequest env repo openFlag gz).2).
Proof.
  intros H. unfold handler, afterRequest. rewrite H. cbn [bind].
  destruct (bind (awaitResponse env gz) _) as [tr' [o | o]]; reflexivity.
Qed.

Lemma handler_stopped (env : Env) (args : list string) (tr : list event)
    (o : outcome) :
  prepare env args = (tr, inr o) -> handler env args = (tr, o).
Proof. intros H. unfold handler. now rewrite H. Qed.

Lemma handler_network (env : Env) (args : list string) (req : Request) :
  HTTPDo req ∈ (handler env args).1 ->
  exists tr repo openFlag,
    prepare env args = (tr, inl (repo, openFlag, gzipReader (gzip_copy env))).
Proof.
  intros Hin.
  destruct (prepare env args) as [tr [[[repo openFlag] gz] | o]] eqn:E.
  - destruct (prepare_inv _ _ _ _ _ _ E) as (? & ? & ? & ? & ? & ? & _ & _ & ->).
    eauto.
  - rewrite (handler_stopped _ _ _ _ E) in Hin.
    exfalso. apply (proj1 (no_network_spec tr) (silent_stop_prepare _ _ _ _ E) _ Hin).
Qed.

(** *** The exchange between the handler, the goroutine and the server *)

Lemma exchange_transport_error (env : Env) (gz : compressor) (err : error) :
  http_Do env = inr err -> (exchange env gz).1 = Returned err.
Proof.
  intros Hdo. destruct gz as [copy at_ pipe closed].
  unfold exchange.
  destruct at_; [destruct copy | ..]; cbn; unfold handler_step; cbn;
    rewrite ?Hdo; cbn; unfold handler_step; cbn; rewrite ?Hdo; reflexivity.
Qed.

Lemma exchange_copied (env : Env) (resp : Response) :
  http_Do env = inl resp ->
  exchange env (gzipReader None)
  = (Received resp, mkCompressor None Finished true true).
Proof.
  intros Hdo. unfold exchange. cbn. unfold handler_step. cbn.
  rewrite Hdo, andb_false_r. cbn. reflexivity.
Qed.

Lemma exchange_failed_copy (env : Env) (resp : Response) (err : error) :
  http_Do env = inl resp ->
  exchange env (gzipReader (Some err))
  = if http_awaits_body env
    then (InDo, mkCompressor (Some err) (Send err) false false)
    else (Returned err, mkCompressor (Some err) Finished true true).
Proof.
  intros Hdo. unfold exchange. cbn. unfold handler_step. cbn.
  rewrite Hdo. destruct (http_awaits_body env); cbn; reflexivity.
Qed.

Lemma awaitResponse_failed_copy (env : Env) (resp : Response) (err : error) :
  http_Do env = inl resp -> gzip_copy env = Some err ->
  awaitResponse env (gzipReader (gzip_copy env))
  = ([], inr (if http_awaits_body env then Blocked else Return (Some err))).
Proof.
  intros Hdo Hgz. unfold awaitResponse.
  rewrite Hgz, (exchange_failed_copy _ _ _ Hdo).
  now destruct (http_awaits_body env).
Qed.

Lemma awaitResponse_transport_error (env : Env) (gz : compressor) (err : error) :
  http_Do env = inr err ->
  awaitResponse env gz = ([], inr (Return (Some err))).
Proof.
  intros Hdo. unfold awaitResponse.
  now rewrite (exchange_transport_error _ _ _ Hdo).
Qed.

Lemma awaitResponse_ok (env : Env) (resp : Response) (body : string) :
  http_Do env = inl resp -> gzip_copy env = None -> Body resp = inl body ->
  awaitResponse env (gzipReader (gzip_copy env)) = ([], inl (resp, body)).
Proof.
  intros Hdo Hgz Hb. unfold awaitResponse.
  rewrite Hgz, (exchange_copied _ _ Hdo). cbn.
  now rewrite Hb.
Qed.


(** ** strings.ToLower keeps ASCII text in place *)

Lemma Contains_nil (s : string) : strings.Contains s "" = true.
Proof.
  unfold strings.Contains. apply bool_decide_eq_true.
  destruct s; cbn; eauto.
Qed.

Lemma Contains_middle (x p y : string) : strings.Contains (x +:+ p +:+ y) p = true.
Proof.
  unfold strings.Contains. apply bool_decide_eq_true.
  induction x as [|c x IH].
  - cbn [String.append]. destruct (p +:+ y) eqn:E; cbn [strings.Index];
      rewrite <- E, HasPrefix_app; eauto.
  - cbn [String.append strings.Index].
    destruct (strings.HasPrefix _ p); [eauto |].
    destruct IH as [i ->]. cbn. eauto.
Qed.

Lemma map_bytes_app (f : ascii -> ascii) (s t : string) :
  map_bytes f (s +:+ t) = map_bytes f s +:+ map_bytes f t.
Proof. induction s as [|c s IH]; simpl; [reflexivity | now rewrite IH]. Qed.

Lemma accept_lo (b0 : Z) : 0x80 <= (utf8.accept b0).1.
Proof.
  unfold utf8.accept.
  repeat match goal with |- context [if ?b then _ else _] => destruct b end;
    cbn; lia.
Qed.

Lemma in_range_hi (lo hi : Z) (c : ascii) :
  0x80 <= lo -> in_range lo hi c = true -> (0x80 <=? byteZ c) = true.
Proof.
  unfold in_range. intros Hlo H. apply andb_prop in H as [H _].
  apply Z.leb_le in H. apply Z.leb_le. lia.
Qed.

Lemma decode_hi (c : ascii) (s : string) :
  hi_prefix (snd (utf8.DecodeRuneInString (String c s)) - 1) s = true.
Proof.
  unfold utf8.DecodeRuneInString.
  pose proof (accept_lo (byteZ c)) as Hlo.
  destruct (utf8.accept (byteZ c)) as [lo hi]. cbn [fst] in Hlo.
  destruct (utf8.seq_len (byteZ c)) as [|[|[|[|[|n]]]]]; try reflexivity.
  - destruct s as [|c1 s]; [reflexivity |].
    destruct (in_range lo hi c1) eqn:E1; [| reflexivity].
    cbn. now rewrite (in_range_hi _ _ _ Hlo E1).
  - destruct s as [|c1 [|c2 s]]; try reflexivity.
    destruct (in_range lo hi c1) eqn:E1; [| reflexivity].
    destruct (in_range 128 191 c2) eqn:E2; [| reflexivity].
    cbn. rewrite (in_range_hi _ _ _ Hlo E1), (in_range_hi 128 _ _ ltac:(lia) E2).
    reflexivity.
  - destruct s as [|c1 [|c2 [|c3 s]]]; try reflexivity.
    destruct (in_range lo hi c1) eqn:E1; [| reflexivity].
    destruct (in_range 128 191 c2) eqn:E2; [| reflexivity].
    destruct (in_range 128 191 c3) eqn:E3; [| reflexivity].
    cbn. rewrite (in_range_hi _ _ _ Hlo E1), (in_range_hi 128 _ _ ltac:(lia) E2),
      (in_range_hi 128 _ _ ltac:(lia) E3).
    reflexivity.
Qed.

Lemma Map_map_go (mapping : Z -> Z) (s : string) :
  strings.Map mapping s = map_go mapping 0 s.
Proof. reflexivity. Qed.

Lemma lower_ascii_byte (tab : unicode.CaseTable) (c : ascii) :
  (byteZ c <? utf8.RuneSelf) = true ->
  utf8.DecodeRuneInString (String c "") = (byteZ c, 1%nat) /\
  (0 <=? unicode.ToLower tab (byteZ c)) = true /\
  utf8.EncodeRune (unicode.ToLower tab (byteZ c))
  = String (strings.lower_byte c) "".
Proof.
  destruct c as [b0 b1 b2 b3 b4 b5 b6 [|]]; intros H;
    [vm_compute in H; destruct b0, b1, b2, b3, b4, b5, b6; discriminate H |].
  clear H. destruct b0, b1, b2, b3, b4, b5, b6; vm_compute; auto.
Qed.

Lemma decode_ascii (c : ascii) (s : string) :
  (byteZ c <? utf8.RuneSelf) = true ->
  utf8.DecodeRuneInString (String c s) = (byteZ c, 1%nat).
Proof.
  intros H. unfold utf8.DecodeRuneInString, utf8.seq_len.
  change 128 with utf8.RuneSelf. rewrite H.
  now destruct (utf8.accept (byteZ c)).
Qed.

Lemma map_go_ascii (tab : unicode.CaseTable) (w rest : string) :
  strings.isASCII w = true ->
  map_go (unicode.ToLower tab) 0 (w +:+ rest)
  = map_bytes strings.lower_byte w +:+ map_go (unicode.ToLower tab) 0 rest.
Proof.
  induction w as [|c w IH]; intros Hw; [reflexivity |].
  cbn [strings.isASCII all_bytes] in Hw. apply andb_prop in Hw as [Hc Hw].
  cbn [String.append map_bytes]. unfold map_go in *.
  cbn [utf8.range_go]. rewrite (decode_ascii _ _ Hc). cbn [snd Nat.sub foldr].
  unfold strings.isASCII in IH. rewrite (IH Hw).
  unfold map_rune at 1. cbn [fst].
  destruct (lower_ascii_byte tab c Hc) as (_ & -> & ->). reflexivity.
Qed.

Lemma map_go_prefix (mapping : Z -> Z) (a : string) (c0 : ascii) (rest : string)
    (skip : nat) :
  (byteZ c0 <? utf8.RuneSelf) = true ->
  hi_prefix skip (a +:+ String c0 rest) = true ->
  exists x, map_go mapping skip (a +:+ String c0 rest)
            = x +:+ map_go mapping 0 (String c0 rest).
Proof.
  intros Hc0. revert skip. induction a as [|c a IH]; intros skip Hskip.
  - destruct skip as [|k]; [now exists "" |].
    cbn in Hskip. apply andb_prop in Hskip as [Hhi _].
    unfold utf8.RuneSelf in Hc0. apply Z.ltb_lt in Hc0. apply Z.leb_le in Hhi. lia.
  - cbn [String.append]. destruct skip as [|k].
    + unfold map_go. cbn [utf8.range_go foldr].
      destruct (IH _ (decode_hi c (a +:+ String c0 rest))) as [x Hx].
      unfold map_go in Hx. rewrite Hx. unfold map_rune at 1.
      destruct (0 <=? _); [| now exists x].
      eexists. now rewrite <- append_assoc.
    + cbn in Hskip. apply andb_prop in Hskip as [_ Hskip].
      unfold map_go. cbn [utf8.range_go]. apply (IH _ Hskip).
Qed.

Lemma lower_phrase_ascii (w : string) :
  strings.isASCII (map_bytes strings.lower_byte w) = true ->
  strings.isASCII w = true.
Proof.
  unfold strings.isASCII. induction w as [|c w IH]; [reflexivity |].
  cbn [map_bytes all_bytes]. intros H. apply andb_prop in H as [Hc Hw].
  rewrite (IH Hw), andb_true_r. revert Hc.
  destruct c as [[] [] [] [] [] [] [] []]; vm_compute; congruence.
Qed.

Lemma ToLower_contains (tab : unicode.CaseTable) (body phrase : string) :
  strings.isASCII phrase = true ->
  contains_fold body phrase ->
  strings.Contains (strings.ToLower tab body) phrase = true.
Proof.
  intros Hp (a & w & b & -> & Hw). subst phrase.
  pose proof (lower_phrase_ascii _ Hp) as Hascii.
  unfold strings.ToLower. destruct (strings.isASCII (a +:+ w +:+ b)).
  - rewrite !map_bytes_app. apply Contains_middle.
  - rewrite Map_map_go. destruct w as [|c0 w]; [apply Contains_nil |].
    pose proof Hascii as Hc0. cbn [strings.isASCII all_bytes] in Hc0.
    apply andb_prop in Hc0 as [Hc0 _].
    cbn [String.append].
    destruct (map_go_prefix (unicode.ToLower tab) a c0 (w +:+ b) 0 Hc0 eq_refl)
      as [x ->].
    change (String c0 (w +:+ b)) with (String c0 w +:+ b).
    rewrite (map_go_ascii tab _ b Hascii). apply Contains_middle.
Qed.


(** ** The response interpreter *)

Lemma interpret_github_token (env : Env) (repo : string) (openFlag : bool)
    (resp : Response) (body : string) :
  StatusCode resp = 401 ->
  contains_fold body "must provide github_token" ->
  interpretResponse env repo openFlag resp body
  = ([], inr (Return (Some (errorString github_token_hint)))).
Proof.
  intros Hs Hb. unfold interpretResponse. rewrite Hs.
  rewrite (ToLower_contains _ body "must provide github_token" eq_refl Hb).
  reflexivity.
Qed.

Lemma saved_error_stays (ms : list (string * json.Value)) (cur : string) (e : error) :
  (json.decode_members ms cur (Some e)).2 = Some e.
Proof.
  revert cur. induction ms as [|[k v] ms IH]; intros cur; [reflexivity |].
  cbn [json.decode_members]. destruct (json.is_id_key k); [| apply IH].
  destruct (json.store_string v cur) as [cur' err]. apply IH.
Qed.

Lemma decode_members_ok (ms : list (string * json.Value)) (cur : string) :
  (json.decode_members ms cur None).2 = None <-> Forall id_member_ok ms.
Proof.
  revert cur. induction ms as [|[k v] ms IH]; intros cur.
  - split; [constructor | reflexivity].
  - cbn [json.decode_members]. rewrite Forall_cons. unfold id_member_ok at 1.
    cbn [fst snd]. destruct (json.is_id_key k).
    + destruct v; cbn [json.store_string json.saveError];
        rewrite ?saved_error_stays, ?IH.
      * split; [intros H; split; [intros _; now left | exact H] | tauto].
      * split; [discriminate | intros [H _]].
        destruct (H eq_refl) as [? | [? ?]]; discriminate.
      * split; [discriminate | intros [H _]].
        destruct (H eq_refl) as [? | [? ?]]; discriminate.
      * split; [intros H; split; [intros _; right; eauto | exact H] | tauto].
      * split; [discriminate | intros [H _]].
        destruct (H eq_refl) as [? | [? ?]]; discriminate.
      * split; [discriminate | intros [H _]].
        destruct (H eq_refl) as [? | [? ?]]; discriminate.
    + rewrite IH. split; [intros H; split; [discriminate | exact H] | tauto].
Qed.

Lemma Unmarshal_accepted (data : string) :
  (exists ID, json.Unmarshal data = inl ID) <->
  exists v, json.parse data = Some v /\ accepted v.
Proof.
  unfold json.Unmarshal, accepted.
  destruct (json.parse data) as [v|].
  2:{ split; [intros [? ?]; discriminate | intros (? & ? & ?); discriminate]. }
  destruct v as [| b | lit | s | vs | ms].
  1:{ split; eauto. }
  5:{ pose proof (decode_members_ok ms "") as Hok.
      destruct (json.decode_members ms "" None) as [ID [e|]]; cbn [snd] in Hok.
      - split; [intros [? ?]; discriminate |].
        intros (v & [= <-] & [? | (ms' & [= <-] & HF)]); [discriminate |].
        apply Hok in HF. discriminate.
      - split; [| eauto]. intros _. eexists. split; [reflexivity |].
        right. eexists. split; [reflexivity |]. now apply Hok. }
  all: split; [intros [? ?]; discriminate |];
    intros (v & [= <-] & [? | (ms' & ? & _)]); discriminate.
Qed.

Lemma decode_members_error (ms : list (string * json.Value)) (cur : string)
    (saved : option error) (e : error) :
  (saved = None \/ exists t, saved = Some (UnmarshalTypeError t)) ->
  (json.decode_members ms cur saved).2 = Some e ->
  exists t, e = UnmarshalTypeError t.
Proof.
  revert cur saved. induction ms as [|[k v] ms IH]; intros cur saved Hs;
    cbn [json.decode_members].
  - cbn. destruct Hs as [-> | [t ->]]; [discriminate | intros [= <-]; eauto].
  - destruct (json.is_id_key k); [| now apply IH].
    destruct v; cbn [json.store_string]; apply IH;
      destruct Hs as [-> | [t ->]]; cbn; eauto.
Qed.

Lemma Unmarshal_error (data : string) (e : error) :
  json.Unmarshal data = inr e -> is_ParseError e.
Proof.
  unfold json.Unmarshal, is_ParseError.
  destruct (json.parse data) as [v|]; [| intros [= <-]; eauto].
  destruct v as [| b | lit | s | vs | ms].
  - intros H. discriminate H.
  - intros [= <-]; eauto.
  - intros [= <-]; eauto.
  - intros [= <-]; eauto.
  - intros [= <-]; eauto.
  - destruct (json.decode_members ms "" None) as [ID [e'|]] eqn:E.
    + intros [= <-].
      destruct (decode_members_error ms "" None e' (or_introl eq_refl)) as [t ->];
        [now rewrite E | eauto].
    + intros H. discriminate H.
Qed.

Lemma uploadURL_status_page (endpoint repo ID : string) :
  uploadURL endpoint repo ID = status_page endpoint repo ID.
Proof. reflexivity. Qed.

Lemma reference_nonempty (ID : string) : reference ID <> "".
Proof. unfold reference. cbn. discriminate. Qed.

Lemma resolveRepository_prints (env : Env) (fs : flag.FlagSet)
    (tr : list event) (repo : string) :
  resolveRepository env fs = (tr, inl repo) ->
  Println ("Repository: " +:+ repo) ∈ tr.
Proof.
  unfold resolveRepository. intros H.
  apply bind_inv_inl in H as (tr1 & repo1 & tr2 & _ & H & ->).
  cbn in H. injection H as <- <-. apply elem_of_app. right. constructor.
Qed.

Lemma contextUpToRoot_prints_repo (env : Env) (args : list string)
    (tr : list event) (fs : flag.FlagSet) (repo commit file root : string) :
  contextUpToRoot env args = (tr, inl (fs, repo, commit, file, root)) ->
  Println ("Repository: " +:+ repo) ∈ tr.
Proof.
  unfold contextUpToRoot. intros H.
  apply bind_inv_inl in H as (tr0 & fs0 & tr0' & _ & H & ->).
  apply bind_inv_inl in H as (tr1 & repo1 & tr1' & Hr & H & ->).
  do 3 apply bind_inv_inl in H as (? & ? & ? & _ & H & _).
  cbn in H. inversion H; subst.
  apply elem_of_app. right. apply elem_of_app. left.
  eapply resolveRepository_prints; eassumption.
Qed.

Lemma prepare_prints_repo (env : Env) (args : list string) (tr : list event)
    (repo : string) (openFlag : bool) (gz : compressor) :
  prepare env args = (tr, inl (repo, openFlag, gz)) ->
  Println ("Repository: " +:+ repo) ∈ tr.
Proof.
  intros H.
  destruct (prepare_inv _ _ _ _ _ _ H) as (tr0 & fs & c & f & r & tr1 & Hc & -> & _).
  apply elem_of_app. left. eapply contextUpToRoot_prints_repo; eassumption.
Qed.

Lemma interpret_success (env : Env) (repo : string) (openFlag : bool)
    (resp : Response) (body ID : string) :
  200 <= StatusCode resp < 300 ->
  json.Unmarshal body = inl ID ->
  (forall target, browser_OpenURL env target = None) ->
  interpretResponse env repo openFlag resp body
  = (success_lines (status_page (cfg_Endpoint env) repo ID) ++
     (if openFlag then [OpenURL (status_page (cfg_Endpoint env) repo ID)] else []),
     inl (Return None)).
Proof.
  intros Hs HU Hb. unfold interpretResponse.
  replace (StatusCode resp <? 200) with false by (symmetry; apply Z.ltb_ge; lia).
  replace (300 <=? StatusCode resp) with false by (symmetry; apply Z.leb_gt; lia).
  cbn [orb]. rewrite HU. cbn [attempt bind ret].
  change (uploadURL (cfg_Endpoint env) repo ID)
    with (status_page (cfg_Endpoint env) repo ID).
  destruct openFlag; cbn; [rewrite Hb |]; reflexivity.
Qed.

Lemma interpret_parse_error (env : Env) (repo : string) (openFlag : bool)
    (resp : Response) (body : string) (e : error) :
  200 <= StatusCode resp < 300 ->
  json.Unmarshal body = inr e ->
  interpretResponse env repo openFlag resp body = ([], inr (Return (Some e))).
Proof.
  intros Hs HU. unfold interpretResponse.
  replace (StatusCode resp <? 200) with false by (symmetry; apply Z.ltb_ge; lia).
  replace (300 <=? StatusCode resp) with false by (symmetry; apply Z.leb_gt; lia).
  cbn [orb]. now rewrite HU.
Qed.

Lemma handler_interprets (env : Env) (args : list string) (req : Request)
    (resp : Response) (body : string) :
  HTTPDo req ∈ (handler env args).1 ->
  http_Do env = inl resp -> gzip_copy env = None -> Body resp = inl body ->
  exists tr repo openFlag,
    Println ("Repository: " +:+ repo) ∈ tr /\
    handler env args =
      (tr ++ (run (interpretResponse env repo openFlag resp body)).1,
       (run (interpretResponse env repo openFlag resp body)).2).
Proof.
  intros Hin Hdo Hgz Hb.
  destruct (handler_network _ _ _ Hin) as (tr & repo & openFlag & Hp).
  exists tr, repo, openFlag. split; [eapply prepare_prints_repo; eassumption |].
  rewrite (handler_prepared _ _ _ _ _ _ Hp). unfold afterRequest.
  rewrite (awaitResponse_ok _ _ _ Hdo Hgz Hb). cbn [bind].
  now destruct (interpretResponse env repo openFlag resp body) as [tr' [o | o]].
Qed.

(** C8.  When the request was sent, the server answered with status 401,
    the compressor signalled no error and the body could be read, and
    the body contains "must provide github_token" in any letter case,
    the handler returns the error whose message tells the user to pass
    [-github-token] (the AuthScopeError of the specification). *)
Theorem unauthorized_github_token (env : Env) (args : list string)
    (req : Request) (resp : Response) (body : string) :
  HTTPDo req ∈ (handler env args).1 ->
  http_Do env = inl resp -> gzip_copy env = None -> Body resp = inl body ->
  StatusCode resp = 401 ->
  contains_fold body "must provide github_token" ->
  (handler env args).2 = Return (Some (errorString github_token_hint)) /\
  strings.Contains github_token_hint "-github-token" = true.
Proof.
  intros Hin Hdo Hgz Hb Hs Hc. split; [| reflexivity].
  destruct (handler_interprets _ _ _ _ _ Hin Hdo Hgz Hb)
    as (tr & repo & openFlag & _ & ->).
  now rewrite (interpret_github_token _ _ _ _ _ Hs Hc).
Qed.

(** C1, as amended.  For a response with status in [200,300) (request
    sent, no compressor error, body read, browser launch not failing),
    the handler succeeds exactly when [json.Unmarshal] accepts the body:
    the body is the JSON text [null] or an object in which every member
    named [id], in any letter case, holds a string or [null]; an [id]
    member is not required.  On success the status page printed is the
    endpoint, the repository name printed earlier and the non-empty
    reference [base64url(LSIFUpload:"ID")]; otherwise the handler returns
    the error of [json.Unmarshal], a syntax or type error (ParseError). *)
Theorem success_response (env : Env) (args : list string)
    (req : Request) (resp : Response) (body : string) :
  HTTPDo req ∈ (handler env args).1 ->
  http_Do env = inl resp -> gzip_copy env = None -> Body resp = inl body ->
  200 <= StatusCode resp < 300 ->
  (forall target, browser_OpenURL env target = None) ->
  ((handler env args).2 = Return None <->
   exists v, json.parse body = Some v /\ accepted v) /\
  (forall ID, json.Unmarshal body = inl ID ->
     (handler env args).2 = Return None /\
     reference ID <> "" /\
     exists repo,
       Println ("Repository: " +:+ repo) ∈ (handler env args).1 /\
       Println ("View processing status at " +:+
                status_page (cfg_Endpoint env) repo ID +:+ ".")
         ∈ (handler env args).1) /\
  (forall e, json.Unmarshal body = inr e ->
     (handler env args).2 = Return (Some e) /\ is_ParseError e).
Proof.
  intros Hin Hdo Hgz Hb Hs Hbr.
  destruct (handler_interprets _ _ _ _ _ Hin Hdo Hgz Hb)
    as (tr & repo & openFlag & Hrepo & ->).
  assert (Hok : forall ID, json.Unmarshal body = inl ID ->
            run (interpretResponse env repo openFlag resp body)
            = (success_lines (status_page (cfg_Endpoint env) repo ID) ++
               (if openFlag
                then [OpenURL (status_page (cfg_Endpoint env) repo ID)] else []),
               Return None)).
  { intros ID HU. now rewrite (interpret_success _ _ _ _ _ _ Hs HU Hbr). }
  assert (Herr : forall e, json.Unmarshal body = inr e ->
            run (interpretResponse env repo openFlag resp body)
            = ([], Return (Some e))).
  { intros e HU. now rewrite (interpret_parse_error _ _ _ _ _ _ Hs HU). }
  cbn [fst snd]. split; [| split].
  - rewrite <- Unmarshal_accepted.
    destruct (json.Unmarshal body) as [ID | e] eqn:HU.
    + rewrite (Hok ID eq_refl). split; eauto.
    + rewrite (Herr e eq_refl). split; [discriminate | intros [? ?]; discriminate].
  - intros ID HU. rewrite (Hok ID HU). cbn [fst snd].
    split; [reflexivity |]. split; [apply reference_nonempty |].
    exists repo. split.
    + apply elem_of_app. now left.
    + apply elem_of_app. right. apply elem_of_app. left.
      unfold success_lines. do 2 apply list_elem_of_further. apply list_elem_of_here.
  - intros e HU. rewrite (Herr e HU). split; [reflexivity |].
    eapply Unmarshal_error; eassumption.
Qed.

(** ** The signal of the compressor *)

(** C2.  A run that sent the request while the copy of the compressor's
    goroutine fails does not always return the error of the copy.  The
    goroutine waits at its send with the pipe still open, and the
    handler receives only after [Do] has returned: with a server that
    reads the body of the request to its end before it answers, the run
    blocks for ever and returns nothing, whatever the status the server
    would have answered.  The error of the copy is what the handler
    returns only when the server answers without awaiting the body. *)
Theorem failed_copy_blocks_the_upload (env : Env) (args : list string)
    (req : Request) (resp : Response) (err : error) :
  HTTPDo req ∈ (handler env args).1 ->
  http_Do env = inl resp ->
  gzip_copy env = Some err ->
  (handler env args).2
  = if http_awaits_body env then Blocked else Return (Some err).
Proof.
  intros Hin Hdo Hgz.
  destruct (handler_network _ _ _ Hin) as (tr & repo & openFlag & Hp).
  rewrite (handler_prepared _ _ _ _ _ _ Hp). cbn [snd].
  unfold afterRequest. rewrite (awaitResponse_failed_copy _ _ _ Hdo Hgz).
  reflexivity.
Qed.


(** ** filepath.Clean and the root *)

Lemma len_take (w : nat) (s : string) :
  (w <= len s)%nat -> len (take_bytes w s) = w.
Proof.
  unfold len. revert s. induction w as [|w IH]; intros [|c s] H; cbn in *;
    try reflexivity; try lia.
  rewrite IH; [reflexivity | lia].
Qed.

Lemma take_app_le (w : nat) (s t : string) :
  (w <= len s)%nat -> take_bytes w (s +:+ t) = take_bytes w s.
Proof.
  unfold len. revert s. induction w as [|w IH]; intros [|c s] H; cbn in *;
    try reflexivity; try lia.
  rewrite IH; [reflexivity | lia].
Qed.

Lemma HasPrefix_app_l (out p x : string) :
  strings.HasPrefix out p = true -> strings.HasPrefix (out +:+ x) p = true.
Proof.
  intros H. apply HasPrefix_spec in H as [t ->]. rewrite append_assoc.
  apply HasPrefix_app.
Qed.

Lemma HasPrefix_take (out p : string) (w : nat) :
  strings.HasPrefix out p = true -> (len p <= w)%nat ->
  strings.HasPrefix (take_bytes w out) p = true.
Proof.
  intros H Hw. apply HasPrefix_spec in H as [t ->].
  apply HasPrefix_spec. exists (take_bytes (w - len p) t).
  clear -Hw. unfold len in *. revert w Hw.
  induction p as [|c p IH]; intros w Hw; cbn in *.
  - now rewrite Nat.sub_0_r.
  - destruct w as [|w]; [lia |]. cbn. rewrite IH; [reflexivity | lia].
Qed.

Lemma HasPrefix_len (s p : string) :
  strings.HasPrefix s p = true -> (len p <= len s)%nat.
Proof. intros H. apply HasPrefix_spec in H as [t ->]. rewrite len_app. lia. Qed.

Lemma backtrack_bounds (fuel : nat) (buf : string) (w dotdot : nat) :
  (dotdot <= w)%nat ->
  (dotdot <= filepath.backtrack fuel buf w dotdot <= w)%nat.
Proof.
  revert w. induction fuel as [|fuel IH]; intros w Hw; cbn [filepath.backtrack];
    [lia |].
  destruct (dotdot <? w)%nat eqn:E; cbn [andb]; [| lia].
  apply Nat.ltb_lt in E.
  destruct (negb _); [| lia].
  specialize (IH (w - 1)%nat ltac:(lia)). lia.
Qed.

Lemma copy_element_app (rest out : string) :
  exists e, (filepath.copy_element rest out).1 = out +:+ e.
Proof.
  revert out. induction rest as [|c rest IH]; intros out; cbn [filepath.copy_element].
  - exists "". now rewrite append_nil_r.
  - destruct (filepath.IsPathSeparator c).
    + exists "". now rewrite append_nil_r.
    + destruct (IH (out +:+ String c "")) as [e ->].
      eexists. now rewrite append_assoc.
Qed.

(** Once the buffer starts with [..] and [dotdot] protects it, it keeps
    starting with [..]. *)
Lemma clean_loop_keeps_dotdot (fuel : nat) (rest out : string) (dotdot : nat) :
  strings.HasPrefix out ".." = true ->
  (2 <= dotdot <= len out)%nat ->
  strings.HasPrefix (filepath.clean_loop fuel false rest out dotdot) ".." = true.
Proof.
  revert rest out dotdot.
  induction fuel as [|fuel IH]; intros rest out dotdot Hp Hd; [exact Hp |].
  assert (Hreal : forall r out1,
    strings.HasPrefix out1 ".." = true -> (2 <= dotdot <= len out1)%nat ->
    strings.HasPrefix
      (let '(out2, rest2) := filepath.copy_element r out1 in
       filepath.clean_loop fuel false rest2 out2 dotdot) ".." = true).
  { intros r out1 Hp1 Hd1.
    destruct (copy_element_app r out1) as [e He].
    destruct (filepath.copy_element r out1) as [out2 rest2]. cbn [fst] in He.
    subst out2. apply IH.
    - now apply HasPrefix_app_l.
    - rewrite len_app. lia. }
  assert (Hreal' : forall r,
    strings.HasPrefix
      (let '(out2, rest2) :=
         filepath.copy_element r
           (if (false && negb (len out =? 1)%nat) ||
               (negb false && negb (len out =? 0)%nat)
            then out +:+ String filepath.Separator "" else out) in
       filepath.clean_loop fuel false rest2 out2 dotdot) ".." = true).
  { intros r. apply Hreal.
    - destruct (_ || _); [now apply HasPrefix_app_l | assumption].
    - destruct (_ || _); [rewrite len_app |]; lia. }
  cbn [filepath.clean_loop]. cbv zeta.
  destruct rest as [|c r1]; [exact Hp |].
  destruct (filepath.IsPathSeparator c); [now apply IH |].
  destruct (Ascii.eqb c "." && filepath.at_element_end r1); [now apply IH |].
  destruct r1 as [|c1 r2]; [apply Hreal' |].
  destruct (Ascii.eqb c "." && Ascii.eqb c1 "." && filepath.at_element_end r2);
    [| apply Hreal'].
  destruct (dotdot <? len out)%nat eqn:E.
  - apply Nat.ltb_lt in E.
    pose proof (backtrack_bounds (len out) out (len out - 1) dotdot ltac:(lia)) as Hb.
    apply IH.
    + apply HasPrefix_take; [assumption | cbn; lia].
    + rewrite len_take; lia.
  - cbn [negb]. apply IH.
    + apply HasPrefix_app_l.
      destruct (0 <? len out)%nat; [now apply HasPrefix_app_l | assumption].
    + rewrite len_app. change (len "..") with 2%nat. lia.
Qed.

Lemma clean_loop_first_dotdot (n : nat) (t : string) :
  filepath.clean_loop (S n) false (String "." (String "." (String "/" t))) "" 0
  = filepath.clean_loop n false (String "/" t) ".." 2.
Proof. reflexivity. Qed.

Lemma Clean_leading_dotdot (root : string) :
  leading_dotdot root = true -> strings.HasPrefix (filepath.Clean root) ".." = true.
Proof.
  unfold leading_dotdot. intros H. apply orb_prop in H as [H | H].
  - apply String.eqb_eq in H as ->. reflexivity.
  - apply HasPrefix_spec in H as [t ->].
    change ("../" +:+ t) with (String "." (String "." (String "/" t))).
    unfold filepath.Clean.
    change (filepath.IsPathSeparator ".") with false. cbv iota.
    change (len (String "." (String "." (String "/" t)))) with (S (S (S (len t)))).
    rewrite clean_loop_first_dotdot.
    match goal with
    | |- context [filepath.clean_loop ?f false ?r ".." 2] =>
      pose proof (clean_loop_keeps_dotdot f r ".." 2 eq_refl ltac:(cbn; lia)) as Hk;
      set (out := filepath.clean_loop f false r ".." 2) in *
    end.
    pose proof (HasPrefix_len _ _ Hk) as Hl. change (len "..") with 2%nat in Hl.
    destruct (len out =? 0)%nat eqn:E; [apply Nat.eqb_eq in E; lia | exact Hk].
Qed.


Lemma normalizeRoot_rejects (root : string) :
  strings.HasPrefix (filepath.Clean root) ".." = true ->
  normalizeRoot root
  = ([Println ("-root is outside the repository: " +:+ filepath.Clean root)],
     inr (Exit 1)).
Proof. intros H. unfold normalizeRoot. now rewrite H. Qed.

Lemma normalizeRoot_accepts (root : string) (tr : list event) (r : string) :
  normalizeRoot root = (tr, inl r) ->
  strings.HasPrefix (filepath.Clean root) ".." = false /\
  tr = [Println ("Root: " +:+ r)] /\
  r = (if String.eqb (filepath.Clean root) "." || String.eqb (filepath.Clean root) "/"
       then "" else filepath.Clean root).
Proof.
  unfold normalizeRoot.
  destruct (strings.HasPrefix (filepath.Clean root) "..") eqn:E; [discriminate |].
  cbn. intros [= <- <-]. auto.
Qed.

Lemma normalized_not_dotdot (root : string) (tr : list event) (r : string) :
  normalizeRoot root = (tr, inl r) -> strings.HasPrefix r ".." = false.
Proof.
  intros H. apply normalizeRoot_accepts in H as (Hp & _ & ->).
  now destruct (_ || _).
Qed.

Lemma leading_dotdot_prefix (r : string) :
  leading_dotdot r = true -> strings.HasPrefix r ".." = true.
Proof.
  unfold leading_dotdot. intros H. apply orb_prop in H as [H | H].
  - apply String.eqb_eq in H as ->. reflexivity.
  - apply HasPrefix_spec in H as [t ->]. reflexivity.
Qed.

Lemma handler_root_rejected (env : Env) (args : list string) (tr : list event)
    (fs : flag.FlagSet) (repo commit file root0 : string) :
  contextUpToRoot env args = (tr, inl (fs, repo, commit, file, root0)) ->
  strings.HasPrefix (filepath.Clean root0) ".." = true ->
  handler env args
  = (tr ++ [Println ("-root is outside the repository: " +:+ filepath.Clean root0)],
     Exit 1) /\
  no_network (handler env args).1.
Proof.
  intros Hc Hp.
  assert (E : prepare env args
          = (tr ++ [Println ("-root is outside the repository: " +:+ filepath.Clean root0)],
             inr (Exit 1))).
  { unfold prepare. rewrite Hc. cbn [bind].
    now rewrite (normalizeRoot_rejects _ Hp). }
  rewrite (handler_stopped _ _ _ _ E). split; [reflexivity |].
  eapply silent_stop_prepare; eassumption.
Qed.

(** C5.  Normalization maps the roots [.] and [/] to the empty string; a
    root that begins with a [..] segment, given or derived, ends the run
    with exit status 1 and the "outside the repository" diagnostic before
    any network call; and a root that passed normalization does not begin
    with a [..] segment. *)
Theorem root_normalization :
  (normalizeRoot "." = ([Println "Root: "], inl "") /\
   normalizeRoot "/" = ([Println "Root: "], inl "")) /\
  (forall env args tr fs repo commit file root0,
     contextUpToRoot env args = (tr, inl (fs, repo, commit, file, root0)) ->
     leading_dotdot root0 = true ->
     handler env args
     = (tr ++ [Println ("-root is outside the repository: " +:+ filepath.Clean root0)],
        Exit 1) /\
     no_network (handler env args).1) /\
  (forall root tr r,
     normalizeRoot root = (tr, inl r) ->
     leading_dotdot r = false /\ strings.HasPrefix r ".." = false).
Proof.
  split; [split; reflexivity |]. split.
  - intros env args tr fs repo commit file root0 Hc Hl.
    eapply handler_root_rejected; [eassumption |].
    now apply Clean_leading_dotdot.
  - intros root tr r H. pose proof (normalized_not_dotdot _ _ _ H) as Hp.
    split; [| assumption].
    destruct (leading_dotdot r) eqn:E; [| reflexivity].
    apply leading_dotdot_prefix in E. congruence.
Qed.

(** C10.  The escape check is a test on the first two bytes of the cleaned
    root: every root whose cleaned form starts with [..] is rejected,
    which covers every cleaned root that begins with a [..] segment and
    also names such as [..foo], which have no [..] segment. *)
Theorem root_escape_is_a_prefix_test :
  (forall env args tr fs repo commit file root0,
     contextUpToRoot env args = (tr, inl (fs, repo, commit, file, root0)) ->
     strings.HasPrefix (filepath.Clean root0) ".." = true ->
     handler env args
     = (tr ++ [Println ("-root is outside the repository: " +:+ filepath.Clean root0)],
        Exit 1)) /\
  (forall r, leading_dotdot r = true -> strings.HasPrefix r ".." = true) /\
  (filepath.Clean "..foo" = "..foo" /\
   leading_dotdot "..foo" = false /\
   (".." ∉ segments "..foo") /\
   normalizeRoot "..foo"
   = ([Println "-root is outside the repository: ..foo"], inr (Exit 1))).
Proof.
  split; [| split].
  - intros env args tr fs repo commit file root0 Hc Hp.
    now apply (handler_root_rejected _ _ _ _ _ _ _ _ Hc Hp).
  - apply leading_dotdot_prefix.
  - repeat split; try reflexivity.
    intros H. vm_compute in H. apply list_elem_of_singleton in H. discriminate.
Qed.


(** ** Flags *)

Lemma foldl_found (name : string) (l : list string) (acc : bool) :
  foldl (fun acc f => if String.eqb f name then true else acc) acc l = true <->
  acc = true \/ name ∈ l.
Proof.
  revert acc. induction l as [|f l IH]; intros acc; cbn [foldl].
  - rewrite elem_of_nil. tauto.
  - rewrite IH, elem_of_cons. destruct (String.eqb_spec f name) as [-> | Hne].
    + tauto.
    + split; [tauto |]. intros [H | [H | H]]; auto; congruence.
Qed.

Lemma isFlagSet_spec (fs : flag.FlagSet) (name : string) :
  isFlagSet fs name = true <-> name ∈ flag.actual fs.
Proof.
  unfold isFlagSet, flag.Visit. rewrite foldl_found.
  rewrite merge_sort_Permutation, elem_of_elements.
  split; [intros [H | H]; [discriminate | assumption] | auto].
Qed.

Lemma split_value_name (name0 name : string) (v : option string) :
  flag.split_value name0 = (name, v) ->
  name0 = name \/ strings.HasPrefix name0 (name +:+ "=") = true.
Proof.
  unfold flag.split_value. destruct name0 as [|c rest]; [intros [= <- _]; now left |].
  destruct (strings.Index rest "=") as [i|] eqn:E; intros [= <- <-]; [| now left].
  right. apply HasPrefix_spec. exists (drop_bytes (S i) rest).
  cbn [String.append]. f_equal.
  clear -E. revert i E. induction rest as [|d rest IH]; intros i E.
  - cbn in E. discriminate.
  - cbn [strings.Index] in E. rewrite HasPrefix_cons, HasPrefix_nil, andb_true_r in E.
    destruct (Ascii.eqb_spec d "=") as [-> | Hne].
    + injection E as <-. reflexivity.
    + destruct (strings.Index rest "=") as [j|] eqn:Ej; [| discriminate].
      cbn in E. injection E as <-. cbn [take_bytes drop_bytes String.append].
      f_equal. now apply IH.
Qed.

(** A flag that [parseOne] sets is named by the argument it reads. *)
Lemma parseOne_actual (f f' : flag.FlagSet) (seen : bool) (err : option error)
    (name : string) :
  flag.parseOne f = (f', seen, err) ->
  name ∈ flag.actual f' ->
  name ∈ flag.actual f \/
  exists arg rest, flag.args f = arg :: rest /\
    (arg = "-" +:+ name \/ arg = "--" +:+ name \/
     strings.HasPrefix arg ("-" +:+ name +:+ "=") = true \/
     strings.HasPrefix arg ("--" +:+ name +:+ "=") = true).
Proof.
  unfold flag.parseOne. destruct (flag.args f) as [|s rest] eqn:Ea.
  { intros [= <- _ _]. now left. }
  destruct s as [|c0 [|c1 s2]]; try (intros [= <- _ _]; now left).
  destruct (Ascii.eqb_spec c0 "-") as [-> | Hc0]; cbn [negb];
    [| intros [= <- _ _]; now left].
  destruct (Ascii.eqb c1 "-" && String.eqb s2 "") eqn:Eterm.
  { intros [= <- _ _]. now left. }
  set (name0 := if Ascii.eqb c1 "-" then s2 else String c1 s2).
  assert (Harg : String "-" (String c1 s2) = "-" +:+ name0 \/
                 String "-" (String c1 s2) = "--" +:+ name0).
  { subst name0. destruct (Ascii.eqb_spec c1 "-") as [-> | ?]; [now right | now left]. }
  destruct (_ || _); [intros [= <- _ _]; now left |].
  destruct (flag.split_value name0) as [nm value] eqn:Esv.
  apply split_value_name in Esv.
  assert (Hset : forall v rest', 
    name ∈ flag.actual (flag.set_flag (flag.mkFlagSet (flag.formal f) (flag.actual f) rest) nm v rest') ->
    name ∈ flag.actual f \/
    exists arg rest0, String "-" (String c1 s2) :: rest = arg :: rest0 /\
      (arg = "-" +:+ name \/ arg = "--" +:+ name \/
       strings.HasPrefix arg ("-" +:+ name +:+ "=") = true \/
       strings.HasPrefix arg ("--" +:+ name +:+ "=") = true)).
  { intros v rest' Hin. cbn [flag.set_flag flag.actual] in Hin.
    apply elem_of_union in Hin as [Hin | Hin]; [| now left].
    apply elem_of_singleton in Hin as ->. right.
    exists (String "-" (String c1 s2)), rest. split; [reflexivity |].
    destruct Esv as [<- | Hpre], Harg as [-> | ->]; auto. }
  cbn [flag.formal].
  destruct (flag.formal f !! nm) as [[sv | bv]|].
  - destruct value as [v|]; [intros [= <- _ _]; apply Hset |].
    destruct rest as [|v rest']; [intros [= <- _ _]; now left |].
    intros [= <- _ _]. apply Hset.
  - destruct value as [v|]; [| intros [= <- _ _]; apply Hset].
    destruct (flag.ParseBool v); intros [= <- _ _]; [apply Hset | now left].
  - destruct (_ || _); intros [= <- _ _]; now left.
Qed.

Lemma parseOne_args (f f' : flag.FlagSet) (seen : bool) (err : option error)
    (a : string) :
  flag.parseOne f = (f', seen, err) -> a ∈ flag.args f' -> a ∈ flag.args f.
Proof.
  unfold flag.parseOne. destruct (flag.args f) as [|s rest] eqn:Ea.
  { intros [= <- _ _]. now rewrite Ea. }
  assert (Hrest : forall r, a ∈ r -> r = rest \/ (exists v, rest = v :: r) -> a ∈ s :: rest).
  { intros r Hin [-> | [v ->]]; repeat apply list_elem_of_further; assumption. }
  destruct s as [|c0 [|c1 s2]]; try (intros [= <- _ _]; now rewrite Ea).
  destruct (negb _); [intros [= <- _ _]; now rewrite Ea |].
  destruct (_ && _); [intros [= <- _ _]; cbn; eauto |].
  destruct (_ || _); [intros [= <- _ _]; now rewrite Ea |].
  destruct (flag.split_value _) as [nm value].
  cbn [flag.formal].
  destruct (flag.formal f !! nm) as [[sv | bv]|].
  - destruct value as [v|]; [intros [= <- _ _]; cbn; eauto |].
    destruct rest as [|v rest']; intros [= <- _ _]; cbn; eauto.
  - destruct value as [v|]; [| intros [= <- _ _]; cbn; eauto].
    destruct (flag.ParseBool v); intros [= <- _ _]; cbn; eauto.
  - destruct (_ || _); intros [= <- _ _]; cbn; eauto.
Qed.

Lemma names_root_spec (arg : string) :
  arg = "-" +:+ "root" \/ arg = "--" +:+ "root" \/
  strings.HasPrefix arg ("-" +:+ "root" +:+ "=") = true \/
  strings.HasPrefix arg ("--" +:+ "root" +:+ "=") = true ->
  names_root arg = true.
Proof.
  unfold names_root. intros [-> | [-> | [H | H]]]; try reflexivity.
  - change ("-" +:+ "root" +:+ "=") with "-root=" in H. rewrite H.
    now rewrite orb_true_r.
  - change ("--" +:+ "root" +:+ "=") with "--root=" in H. rewrite H.
    now rewrite !orb_true_r.
Qed.

Lemma parse_loop_root (fuel : nat) (f f' : flag.FlagSet) (err : option error) :
  flag.parse_loop fuel f = (f', err) ->
  "root" ∈ flag.actual f' ->
  "root" ∈ flag.actual f \/ exists arg, arg ∈ flag.args f /\ names_root arg = true.
Proof.
  revert f. induction fuel as [|fuel IH]; intros f; cbn [flag.parse_loop].
  { intros [= <- _]. now left. }
  destruct (flag.parseOne f) as [[f1 seen] e1] eqn:E1.
  assert (Hone : "root" ∈ flag.actual f1 ->
            "root" ∈ flag.actual f \/
            exists arg, arg ∈ flag.args f /\ names_root arg = true).
  { intros Hin. destruct (parseOne_actual _ _ _ _ _ E1 Hin)
      as [? | (arg & rest & Ha & Hn)]; [now left | right].
    exists arg. split; [rewrite Ha; constructor | now apply names_root_spec]. }
  destruct seen.
  - intros H Hin. destruct (IH _ H Hin) as [Hin1 | (arg & Ha & Hn)]; [auto |].
    right. exists arg. split; [| assumption].
    eapply parseOne_args; eassumption.
  - intros [= <- _]. exact Hone.
Qed.

Lemma Parse_root_absent (args : list string) :
  Forall (fun arg => names_root arg = false) args ->
  isFlagSet (flag.Parse flagSet args).1 "root" = false.
Proof.
  intros Hall. destruct (isFlagSet _ "root") eqn:E; [| reflexivity].
  apply isFlagSet_spec in E. unfold flag.Parse in E.
  destruct (flag.parse_loop _ _) as [f' err] eqn:Ep. cbn [fst] in E.
  destruct (parse_loop_root _ _ _ _ Ep E) as [Hin | (arg & Ha & Hn)].
  - cbn in Hin. set_solver.
  - cbn [flag.args] in Ha. rewrite Forall_forall in Hall.
    rewrite (Hall _ Ha) in Hn. discriminate.
Qed.

(** ** The root given on the command line *)

Lemma contextUpToRoot_inv (env : Env) (args : list string) (tr : list event)
    (fs : flag.FlagSet) (repo commit file root0 : string) :
  contextUpToRoot env args = (tr, inl (fs, repo, commit, file, root0)) ->
  flag.Parse flagSet args = (fs, None) /\
  exists tr1 tr2,
    givenRoot env fs file = (tr2, inl root0) /\ tr = tr1 ++ tr2 /\
    absent is_toplevel tr1.
Proof.
  unfold contextUpToRoot. intros H.
  assert (Ht : tracked is_toplevel) by (right; now left).
  apply bind_inv_inl in H as (t0 & fs0 & t0' & H0 & H & ->).
  apply bind_inv_inl in H as (t1 & repo1 & t1' & H1 & H & ->).
  apply bind_inv_inl in H as (t2 & commit1 & t2' & H2 & H & ->).
  apply bind_inv_inl in H as (t3 & file1 & t3' & H3 & H & ->).
  apply bind_inv_inl in H as (t4 & root1 & t4' & H4 & H & ->).
  cbn in H. inversion H; subst. clear H.
  split.
  - unfold parseFlags in H0. destruct (flag.Parse flagSet args) as [fs' [e|]];
      [discriminate |]. cbn in H0. now inversion H0.
  - exists (t0 ++ t1 ++ t2 ++ t3), t4. split; [assumption |]. split.
    + now rewrite app_nil_r, <- !app_assoc.
    + pose proof (avoids_parseFlags is_toplevel args) as A0.
      pose proof (avoids_resolveRepository is_toplevel env fs Ht) as A1.
      pose proof (avoids_resolveCommit is_toplevel env fs Ht) as A2.
      pose proof (avoids_checkFile is_toplevel env fs Ht) as A3.
      unfold avoids in *. rewrite H0 in A0. rewrite H1 in A1.
      rewrite H2 in A2. rewrite H3 in A3.
      repeat apply absent_app; assumption.
Qed.


Lemma bind_ret {A B} (a : A) (k : A -> M B) : bind (ret a) k = k a.
Proof. unfold bind, ret. now destruct (k a). Qed.

Lemma parseFlags_ok (args : list string) (fs : flag.FlagSet) :
  flag.Parse flagSet args = (fs, None) -> parseFlags args = ret fs.
Proof. intros H. unfold parseFlags. now rewrite H. Qed.

Lemma parseFlags_error (args : list string) (fs : flag.FlagSet) (err : error) :
  flag.Parse flagSet args = (fs, Some err) ->
  exists code, parseFlags args = ([], inr (Exit code)).
Proof. intros H. unfold parseFlags. rewrite H. eexists. reflexivity. Qed.

Lemma avoids_sendRequest_toplevel (env : Env) (fs : flag.FlagSet)
    (repo commit file root : string) :
  avoids is_toplevel (sendRequest env fs repo commit file root).
Proof.
  unfold sendRequest, return_. avoid_tac; first [apply avoids_attempt | apply avoids_attempt_err].
Qed.

Lemma avoids_awaitResponse_toplevel (env : Env) (gz : compressor) :
  avoids is_toplevel (awaitResponse env gz).
Proof.
  unfold awaitResponse. avoid_tac; first [apply avoids_attempt | apply avoids_attempt_err].
Qed.

Lemma avoids_interpretResponse_toplevel (env : Env) (repo : string)
    (openFlag : bool) (resp : Response) (body : string) :
  avoids is_toplevel (interpretResponse env repo openFlag resp body).
Proof.
  unfold interpretResponse, return_, println.
  avoid_tac; first [apply avoids_attempt | apply avoids_attempt_err].
Qed.

Lemma handler_no_toplevel (env : Env) (args : list string) (fs : flag.FlagSet) :
  flag.Parse flagSet args = (fs, None) ->
  isFlagSet fs "root" = true ->
  absent is_toplevel (handler env args).1.
Proof.
  intros Hp Hset. assert (Ht : tracked is_toplevel) by (right; now left).
  unfold handler. apply avoids_run.
  apply avoids_bind.
  - unfold prepare, contextUpToRoot.
    rewrite (parseFlags_ok _ _ Hp), bind_ret.
    apply avoids_bind.
    + apply avoids_bind; [now apply avoids_resolveRepository | intros repo].
      apply avoids_bind; [now apply avoids_resolveCommit | intros commit].
      apply avoids_bind; [now apply avoids_checkFile | intros file].
      rewrite (givenRoot_explicit _ _ _ Hset), bind_ret. apply avoids_ret.
    + intros [[[[fs' repo] commit] file] root0].
      apply avoids_bind; [now apply avoids_normalizeRoot | intros root].
      apply avoids_bind; [apply avoids_sendRequest_toplevel | intros gz].
      apply avoids_ret.
  - intros [[repo openFlag] gz].
    apply avoids_bind; [apply avoids_awaitResponse_toplevel | intros [resp body]].
    apply avoids_interpretResponse_toplevel.
Qed.

Lemma handler_parse_error (env : Env) (args : list string) (fs : flag.FlagSet)
    (err : error) :
  flag.Parse flagSet args = (fs, Some err) -> (handler env args).1 = [].
Proof.
  intros H. destruct (parseFlags_error _ _ _ H) as [code Hc].
  unfold handler, prepare, contextUpToRoot. now rewrite Hc.
Qed.

Lemma givenRoot_derived (env : Env) (fs : flag.FlagSet) (file : string) :
  isFlagSet fs "root" = false -> git_toplevel ∈ (givenRoot env fs file).1.
Proof.
  intros H. unfold givenRoot. rewrite H. cbn [negb].
  rewrite bind_trace. apply elem_of_app. left. constructor.
Qed.

(** C9.  When the [root] flag was set on the command line with the empty
    value, the root is not derived: no query for the top level of the
    repository is made, [Clean] turns the empty value into [.] and
    normalization into the empty root.  The query for the top level is
    made only in runs whose parsed flags do not set [root], it is made
    whenever they do not, and arguments that never name the flag do not
    set it; [-root=] and [-root ""] do set it, to the empty value. *)
Theorem explicit_empty_root :
  (forall env args tr fs repo commit file root0,
     contextUpToRoot env args = (tr, inl (fs, repo, commit, file, root0)) ->
     isFlagSet fs "root" = true ->
     flag.String_ fs "root" = "" ->
     root0 = "" /\ filepath.Clean root0 = "." /\
     normalizeRoot root0 = ([Println "Root: "], inl "") /\
     absent is_toplevel tr) /\
  (forall env args e,
     is_toplevel e = true -> e ∈ (handler env args).1 ->
     exists fs, flag.Parse flagSet args = (fs, None) /\
                isFlagSet fs "root" = false) /\
  (forall env fs file,
     isFlagSet fs "root" = false -> git_toplevel ∈ (givenRoot env fs file).1) /\
  (forall args,
     Forall (fun arg => names_root arg = false) args ->
     isFlagSet (flag.Parse flagSet args).1 "root" = false) /\
  (isFlagSet (flag.Parse flagSet ["-root="]).1 "root" = true /\
   flag.String_ (flag.Parse flagSet ["-root="]).1 "root" = "" /\
   isFlagSet (flag.Parse flagSet ["-root"; ""]).1 "root" = true /\
   flag.String_ (flag.Parse flagSet ["-root"; ""]).1 "root" = "").
Proof.
  split; [| split; [| split; [| split]]].
  - intros env args tr fs repo commit file root0 Hc Hset Hval.
    destruct (contextUpToRoot_inv _ _ _ _ _ _ _ _ Hc)
      as (_ & tr1 & tr2 & Hg & -> & Habs).
    rewrite (givenRoot_explicit _ _ _ Hset) in Hg. cbn in Hg.
    injection Hg as <- <-. rewrite Hval. repeat split; try reflexivity.
    rewrite app_nil_r. exact Habs.
  - intros env args e He Hin.
    destruct (flag.Parse flagSet args) as [fs [err|]] eqn:Hp.
    + rewrite (handler_parse_error _ _ _ _ Hp) in Hin. inversion Hin.
    + exists fs. split; [reflexivity |].
      destruct (isFlagSet fs "root") eqn:Hset; [| reflexivity].
      rewrite (handler_no_toplevel _ _ _ Hp Hset _ Hin) in He. discriminate.
  - apply givenRoot_derived.
  - apply Parse_root_absent.
  - vm_compute. auto.
Qed.


(** ** The query string *)

Lemma Add_lookup_eq (v : url.Values) (key value : string) :
  url.Add v key value !! key = Some (default [] (v !! key) ++ [value]).
Proof. unfold url.Add. apply lookup_insert_eq. Qed.

Lemma Add_lookup_ne (v : url.Values) (key value k : string) :
  key <> k -> url.Add v key value !! k = v !! k.
Proof. intros H. unfold url.Add. now apply lookup_insert_ne. Qed.

Lemma queryValues_lookup (repo commit token root indexer : string) :
  let qs := queryValues repo commit token root indexer in
  qs !! "repository" = Some [repo] /\
  qs !! "commit" = Some [commit] /\
  qs !! "github_token" = (if String.eqb token "" then None else Some [token]) /\
  qs !! "root" = (if String.eqb root "" then None else Some [root]) /\
  qs !! "indexerName" = (if String.eqb indexer "" then None else Some [indexer]) /\
  forall k, k ∉ ["repository"; "commit"; "github_token"; "root"; "indexerName"] ->
            qs !! k = None.
Proof.
  cbv zeta. unfold queryValues.
  destruct (String.eqb token ""), (String.eqb root ""), (String.eqb indexer "");
    cbn [negb];
    (repeat split;
     [ .. | intros k Hk; repeat rewrite Add_lookup_ne;
            [apply lookup_empty | intros <-; apply Hk; set_solver ..] ]);
    repeat first [ rewrite Add_lookup_eq; rewrite ?Add_lookup_ne by discriminate;
                   rewrite ?lookup_empty; reflexivity
                 | rewrite Add_lookup_ne by discriminate
                 | apply lookup_empty ].
Qed.

Lemma resolveCommit_prints (env : Env) (fs : flag.FlagSet)
    (tr : list event) (commit : string) :
  resolveCommit env fs = (tr, inl commit) ->
  Println ("Commit: " +:+ commit) ∈ tr.
Proof.
  unfold resolveCommit. intros H.
  apply bind_inv_inl in H as (tr1 & commit1 & tr2 & _ & H & ->).
  cbn in H. injection H as <- <-. apply elem_of_app. right. constructor.
Qed.

Lemma contextUpToRoot_prints_commit (env : Env) (args : list string)
    (tr : list event) (fs : flag.FlagSet) (repo commit file root : string) :
  contextUpToRoot env args = (tr, inl (fs, repo, commit, file, root)) ->
  Println ("Commit: " +:+ commit) ∈ tr.
Proof.
  unfold contextUpToRoot. intros H.
  apply bind_inv_inl in H as (tr0 & fs0 & tr0' & _ & H & ->).
  apply bind_inv_inl in H as (tr1 & repo1 & tr1' & _ & H & ->).
  apply bind_inv_inl in H as (tr2 & commit1 & tr2' & Hc & H & ->).
  do 2 apply bind_inv_inl in H as (? & ? & ? & _ & H & _).
  cbn in H. inversion H; subst.
  apply elem_of_app. right. apply elem_of_app. right. apply elem_of_app. left.
  eapply resolveCommit_prints; eassumption.
Qed.

Lemma sendRequest_inv (env : Env) (fs : flag.FlagSet)
    (repo commit file root : string) (tr : list event) (gz : compressor) :
  sendRequest env fs repo commit file root = (tr, inl gz) ->
  exists target header,
    tr = [Open file;
          HTTPDo (mkRequest "POST"
                    (url.with_RawQuery target
                       (url.Encode (queryValues repo commit
                          (flag.String_ fs "github-token") root
                          (flag.String_ fs "indexerName"))))
                    header)].
Proof.
  unfold sendRequest. intros H.
  apply bind_inv_inl in H as (tr1 & target & tr2 & Ht & H & ->).
  destruct (flag.Bool_ fs "get-curl"); [discriminate |].
  apply bind_inv_inl in H as (t1 & ? & ? & H1 & H & ->).
  apply bind_inv_inl in H as (t2 & ? & ? & H2 & H & ->).
  apply bind_inv_inl in H as (t3 & ? & ? & H3 & H & ->).
  apply bind_inv_inl in H as (t4 & ? & ? & H4 & H & ->).
  cbn in H. injection H as <- _.
  unfold attempt in Ht. destruct (url.Parse _); [| discriminate]. injection Ht as <- <-.
  unfold attempt_err in H2, H3.
  destruct (os_Open env file); [discriminate |]. injection H2 as <- _.
  destruct (http_NewRequest env); [discriminate |]. injection H3 as <- _.
  cbn in H1, H4. injection H1 as <- _. injection H4 as <- _.
  eexists _, _. reflexivity.
Qed.

Lemma prepare_request (env : Env) (args : list string) (tr : list event)
    (repo : string) (openFlag : bool) (gz : compressor) :
  prepare env args = (tr, inl (repo, openFlag, gz)) ->
  exists tr0 fs commit file root0 root target header,
    contextUpToRoot env args = (tr0, inl (fs, repo, commit, file, root0)) /\
    tr = tr0 ++ [Println ("Root: " +:+ root); Open file;
                 HTTPDo (mkRequest "POST"
                   (url.with_RawQuery target
                      (url.Encode (queryValues repo commit
                         (flag.String_ fs "github-token") root
                         (flag.String_ fs "indexerName"))))
                   header)].
Proof.
  unfold prepare. intros H.
  apply bind_inv_inl in H
    as (tr0 & [[[[fs repo'] commit] file] root0] & tr1 & Hc & H & ->).
  apply bind_inv_inl in H as (tn & root & tr2 & Hn & H & ->).
  apply bind_inv_inl in H as (ts & gz' & tr3 & Hs & H & ->).
  cbn in H. inversion H; subst. clear H.
  apply normalizeRoot_accepts in Hn as (_ & -> & _).
  apply sendRequest_inv in Hs as (target & header & ->).
  exists tr0, fs, commit, file, root0, root, target, header.
  split; [assumption |]. now rewrite app_nil_r.
Qed.

Lemma quiet_awaitResponse (env : Env) (gz : compressor) :
  avoids is_network (awaitResponse env gz).
Proof.
  unfold awaitResponse. avoid_tac; first [apply avoids_attempt | apply avoids_attempt_err].
Qed.

Lemma quiet_interpretResponse (env : Env) (repo : string)
    (openFlag : bool) (resp : Response) (body : string) :
  avoids is_network (interpretResponse env repo openFlag resp body).
Proof.
  unfold interpretResponse, return_, println.
  avoid_tac; first [apply avoids_attempt | apply avoids_attempt_err].
Qed.

Lemma quiet_afterRequest (env : Env) (repo : string) (openFlag : bool) (gz : compressor) :
  no_network (afterRequest env repo openFlag gz).1.
Proof.
  unfold afterRequest. apply avoids_run.
  apply avoids_bind; [apply quiet_awaitResponse | intros [resp body]].
  apply quiet_interpretResponse.
Qed.

(** The request that a run sends carries the query string built from the
    repository, commit and root that the run printed. *)
Lemma handler_query (env : Env) (args : list string) (req : Request) :
  HTTPDo req ∈ (handler env args).1 ->
  exists fs repo commit root,
    flag.Parse flagSet args = (fs, None) /\
    Println ("Repository: " +:+ repo) ∈ (handler env args).1 /\
    Println ("Commit: " +:+ commit) ∈ (handler env args).1 /\
    Println ("Root: " +:+ root) ∈ (handler env args).1 /\
    url.RawQuery (URL req)
    = url.Encode (queryValues repo commit (flag.String_ fs "github-token") root
                    (flag.String_ fs "indexerName")).
Proof.
  intros Hin.
  destruct (handler_network _ _ _ Hin) as (tr & repo & openFlag & Hp).
  rewrite (handler_prepared _ _ _ _ _ _ Hp) in *. cbn [fst] in *.
  destruct (prepare_request _ _ _ _ _ _ Hp)
    as (tr0 & fs & commit & file & root0 & root & target & header & Hc & ->).
  destruct (contextUpToRoot_inv _ _ _ _ _ _ _ _ Hc) as (Hparse & _).
  exists fs, repo, commit, root. split; [assumption |].
  split; [| split; [| split]].
  - apply elem_of_app. left. apply elem_of_app. left.
    eapply contextUpToRoot_prints_repo; eassumption.
  - apply elem_of_app. left. apply elem_of_app. left.
    eapply contextUpToRoot_prints_commit; eassumption.
  - apply elem_of_app. left. apply elem_of_app. right. constructor.
  - apply elem_of_app in Hin as [Hin | Hin].
    + apply elem_of_app in Hin as [Hin | Hin].
      * pose proof (quiet_contextUpToRoot env args) as Hq. unfold avoids in Hq.
        rewrite Hc in Hq. specialize (Hq _ Hin). discriminate.
      * apply elem_of_cons in Hin as [Hin | Hin]; [discriminate |].
        apply elem_of_cons in Hin as [Hin | Hin]; [discriminate |].
        apply list_elem_of_singleton in Hin. injection Hin as ->. reflexivity.
    + pose proof (quiet_afterRequest env repo openFlag (gzipReader (gzip_copy env)) _ Hin).
      discriminate.
Qed.

Lemma Encode_with (esc : string -> string) (repo commit token root indexer : string) :
  let qs := queryValues repo commit token root indexer in
  String.concat "&"
    (concat ((fun k => (fun x => esc k +:+ "=" +:+ esc x) <$> default [] (qs !! k))
             <$> url.sorted_keys qs))
  = String.concat "&"
      ((fun p => esc p.1 +:+ "=" +:+ esc p.2)
       <$> query_pairs repo commit token root indexer).
Proof.
  unfold queryValues, query_pairs, url.sorted_keys.
  destruct (String.eqb token ""), (String.eqb indexer ""), (String.eqb root "");
    cbn [negb]; vm_compute; reflexivity.
Qed.

(** The query string lists the parameters by name, each as
    [name=value] with the value escaped, joined by [&]. *)
Lemma Encode_queryValues (repo commit token root indexer : string) :
  url.Encode (queryValues repo commit token root indexer)
  = String.concat "&" (render_pair <$> query_pairs repo commit token root indexer).
Proof.
  unfold url.Encode, url.encode_key.
  pose proof (Encode_with url.QueryEscape repo commit token root indexer) as H.
  cbv zeta in H. rewrite H. f_equal. unfold query_pairs, render_pair.
  destruct (String.eqb token ""), (String.eqb indexer ""), (String.eqb root "");
    reflexivity.
Qed.

(** C6, as amended.  The query parameters always hold [repository] and
    [commit], also when their value is empty; they hold [github_token],
    [root] and [indexerName] exactly when the value is not empty, and no
    other parameter.  The request a run sends carries the encoding of
    these parameters for the repository, commit and root it printed; the
    encoding lists them by name as [name=value], the value escaped,
    joined by [&]. *)
Theorem query_parameters :
  (forall repo commit token root indexer,
     let qs := queryValues repo commit token root indexer in
     qs !! "repository" = Some [repo] /\
     qs !! "commit" = Some [commit] /\
     qs !! "github_token" = (if String.eqb token "" then None else Some [token]) /\
     qs !! "root" = (if String.eqb root "" then None else Some [root]) /\
     qs !! "indexerName" = (if String.eqb indexer "" then None else Some [indexer]) /\
     forall k, k ∉ ["repository"; "commit"; "github_token"; "root"; "indexerName"] ->
               qs !! k = None) /\
  (forall env args req,
     HTTPDo req ∈ (handler env args).1 ->
     exists fs repo commit root,
       flag.Parse flagSet args = (fs, None) /\
       Println ("Repository: " +:+ repo) ∈ (handler env args).1 /\
       Println ("Commit: " +:+ commit) ∈ (handler env args).1 /\
       Println ("Root: " +:+ root) ∈ (handler env args).1 /\
       url.RawQuery (URL req)
       = url.Encode (queryValues repo commit (flag.String_ fs "github-token") root
                       (flag.String_ fs "indexerName"))) /\
  (forall repo commit token root indexer,
     url.Encode (queryValues repo commit token root indexer)
     = String.concat "&"
         (render_pair <$> query_pairs repo commit token root indexer)).
Proof.
  split; [| split].
  - intros repo commit token root indexer.
    apply queryValues_lookup.
  - intros env args req Hin. now apply handler_query.
  - intros repo commit token root indexer.
    apply Encode_queryValues.
Qed.


(** ** Remote URLs *)

(** C3, as amended.  A remote [git@H:P.git] resolves to [H/P] when neither
    [H] nor [P] contains a colon and [P] does not start with a slash; a
    remote [scheme://H/P.git] resolves to [H/P] when the scheme is a
    letter followed by letters, digits, [+], [-], [.], the host [H] is
    plain (no user, port, bracket or escape) and the path [P] has no
    query, fragment, escape or control byte.  Both remotes of
    github.com/gorilla/mux resolve to that name. *)
Theorem parseRemoteURL_recognized :
  (forall H P,
     byte_in ":" H = false -> byte_in ":" P = false ->
     strings.HasPrefix P "/" = false ->
     parseRemoteURL (ssh_remote H P) = inl (repo_name H P)) /\
  (forall scheme H P,
     valid_scheme scheme = true -> all_bytes host_byte H = true ->
     all_bytes path_byte P = true ->
     parseRemoteURL (url_remote scheme H P) = inl (repo_name H P)) /\
  parseRemoteURL "git@github.com:gorilla/mux.git" = inl "github.com/gorilla/mux" /\
  parseRemoteURL "https://github.com/gorilla/mux.git" = inl "github.com/gorilla/mux".
Proof.
  split; [exact parseRemoteURL_ssh |]. split; [exact parseRemoteURL_url |].
  split; reflexivity.
Qed.

Lemma parseRemoteURL_recognized_witness :
  parseRemoteURL (ssh_remote "example.org" "team/tool") = inl "example.org/team/tool" /\
  parseRemoteURL (url_remote "ssh" "example.org" "team/tool") = inl "example.org/team/tool".
Proof.
  split.
  - exact (proj1 parseRemoteURL_recognized "example.org" "team/tool"
             eq_refl eq_refl eq_refl).
  - exact (proj1 (proj2 parseRemoteURL_recognized) "ssh" "example.org" "team/tool"
             eq_refl eq_refl eq_refl).
Defined.

Lemma parseRemoteURL_form_counterexample :
  parseRemoteURL (ssh_remote "example.org" "a:b")
  = inr (errorString "unrecognized remote URL: git@example.org:a:b.git") /\
  parseRemoteURL (ssh_remote "example.org" "/srv/tool") = inl "example.org/srv/tool" /\
  repo_name "example.org" "/srv/tool" = "example.org//srv/tool" /\
  parseRemoteURL (url_remote "https" "github.com:443" "gorilla/mux")
  = inl "github.com/gorilla/mux" /\
  repo_name "github.com:443" "gorilla/mux" = "github.com:443/gorilla/mux" /\
  parseRemoteURL (url_remote "ssh" "git@github.com" "gorilla/mux")
  = inl "github.com/gorilla/mux" /\
  repo_name "git@github.com" "gorilla/mux" = "git@github.com/gorilla/mux".
Proof. repeat split; reflexivity. Qed.

Lemma resolveRepository_fails (env : Env) (fs : flag.FlagSet) (out : string)
    (e : error) :
  flag.String_ fs "repo" = "" ->
  git_remote_get_url env = inl out ->
  parseRemoteURL (strings.TrimSpace out) = inr e ->
  resolveRepository env fs
  = ([Exec ["git"; "remote"; "get-url"; "origin"];
      Println (Error e); Println "Set -repo explicitly."], inr (Exit 1)).
Proof.
  intros Hr Hg Hp. unfold resolveRepository. rewrite Hr, Hg, Hp. reflexivity.
Qed.

(** C4, as amended.  Resolution fails exactly when the remote starts with
    [git@] and does not hold exactly one colon, or does not start with
    [git@] and is rejected by [url.Parse]; the failure is the error
    "unrecognized remote URL" and the run prints it with "Set -repo
    explicitly." and exits with status 1.  (Text that has neither form
    but parses as a URL reference is resolved, not rejected.) *)
Theorem unrecognized_remote_fails (s : string) :
  ((exists e, parseRemoteURL s = inr e) <->
   (strings.HasPrefix s "git@" = true /\ count_byte ":" s <> 1%nat) \/
   (strings.HasPrefix s "git@" = false /\ exists e, url.Parse s = inr e)) /\
  (forall e, parseRemoteURL s = inr e ->
     e = errorString ("unrecognized remote URL: " +:+ s) /\
     forall env args fs out,
       flag.Parse flagSet args = (fs, None) ->
       flag.String_ fs "repo" = "" ->
       git_remote_get_url env = inl out ->
       strings.TrimSpace out = s ->
       handler env args
       = ([Exec ["git"; "remote"; "get-url"; "origin"];
           Println ("unrecognized remote URL: " +:+ s);
           Println "Set -repo explicitly."], Exit 1)).
Proof.
  split; [apply parseRemoteURL_fails |].
  intros e He. pose proof (parseRemoteURL_error _ _ He) as ->.
  split; [reflexivity |].
  intros env args fs out Hparse Hrepo Hgit <-.
  unfold handler, prepare, contextUpToRoot.
  rewrite (parseFlags_ok _ _ Hparse), bind_ret.
  now rewrite (resolveRepository_fails _ _ _ _ Hrepo Hgit He).
Qed.

Lemma unrecognized_remote_fails_witness :
  parseRemoteURL "git@github.com" = inr (errorString "unrecognized remote URL: git@github.com") /\
  handler (sample_env (inl ("git@github.com" +:+ nl)) sample_head None
             (ok_response id_abc)) []
  = ([Exec ["git"; "remote"; "get-url"; "origin"];
      Println "unrecognized remote URL: git@github.com";
      Println "Set -repo explicitly."], Exit 1).
Proof.
  split; [reflexivity |].
  exact (proj2 (proj2 (unrecognized_remote_fails "git@github.com") _ eq_refl)
           (sample_env (inl ("git@github.com" +:+ nl)) sample_head None
              (ok_response id_abc))
           [] (flag.Parse flagSet []).1 ("git@github.com" +:+ nl)
           eq_refl eq_refl eq_refl eq_refl).
Defined.

Lemma unrecognized_remote_counterexample :
  parseRemoteURL "foo" = inl "foo" /\ ~ ssh_form "foo" /\ ~ url_form "foo".
Proof.
  split; [reflexivity |].
  split; intros H; [apply ssh_form_colon in H | apply url_form_colon in H];
    discriminate.
Qed.


(** ** Sample runs *)

Ltac in_trace :=
  vm_compute; repeat first [apply list_elem_of_here | apply list_elem_of_further].

Lemma success_response_witness :
  HTTPDo (sample_request sample_query)
    ∈ (handler (sample_env sample_remote sample_head None (ok_response id_abc)) []).1 /\
  (handler (sample_env sample_remote sample_head None (ok_response id_abc)) []).2
  = Return None /\
  reference "abc" <> "".
Proof.
  assert (Hin : HTTPDo (sample_request sample_query)
    ∈ (handler (sample_env sample_remote sample_head None (ok_response id_abc)) []).1)
    by in_trace.
  split; [exact Hin |].
  assert (Hr : 200 <= 200 < 300) by lia.
  destruct (success_response
              (sample_env sample_remote sample_head None (ok_response id_abc)) []
              (sample_request sample_query) (mkResponse 200 "200 OK" (inl id_abc))
              id_abc Hin eq_refl eq_refl eq_refl
              Hr
              (fun _ => eq_refl))
    as (_ & Hok & _).
  destruct (Hok "abc" eq_refl) as (Hret & Href & _).
  split; assumption.
Defined.

Lemma success_response_counterexample :
  (handler (sample_env sample_remote sample_head None (ok_response "{}")) []).2
  = Return None /\
  json.parse "{}" = Some (json.Object []) /\
  ~ valid_json_with_id "{}" /\
  valid_json_with_id id_5 /\
  (handler (sample_env sample_remote sample_head None (ok_response id_5)) []).2
  = Return (Some (UnmarshalTypeError "number")).
Proof.
  split; [reflexivity |]. split; [reflexivity |]. split; [| split].
  - intros (v & Hv & ms & x & -> & Hin). vm_compute in Hv.
    injection Hv as <-. inversion Hin.
  - exists (json.Object [("id", json.Number "5")]). split; [reflexivity |].
    exists [("id", json.Number "5")], (json.Number "5"). split; [reflexivity | constructor].
  - reflexivity.
Qed.

Lemma failed_copy_witness :
  HTTPDo (sample_request sample_query)
    ∈ (handler (sample_env sample_remote sample_head
                  (Some (external "read ./dump.lsif: is a directory"))
                  (ok_response id_abc)) []).1 /\
  (handler (sample_env sample_remote sample_head
              (Some (external "read ./dump.lsif: is a directory"))
              (ok_response id_abc)) []).2
  = Blocked.
Proof.
  assert (Hin : HTTPDo (sample_request sample_query)
    ∈ (handler (sample_env sample_remote sample_head
                  (Some (external "read ./dump.lsif: is a directory"))
                  (ok_response id_abc)) []).1) by in_trace.
  split; [exact Hin |].
  exact (failed_copy_blocks_the_upload _ [] _
           (mkResponse 200 "200 OK" (inl id_abc)) _ Hin eq_refl eq_refl).
Defined.

Lemma unauthorized_github_token_witness :
  HTTPDo (sample_request sample_query)
    ∈ (handler (sample_env sample_remote sample_head None
                  (inl (mkResponse 401 "401 Unauthorized"
                          (inl "Error: Must Provide GITHUB_TOKEN for this repository")))) []).1 /\
  (handler (sample_env sample_remote sample_head None
              (inl (mkResponse 401 "401 Unauthorized"
                      (inl "Error: Must Provide GITHUB_TOKEN for this repository")))) []).2
  = Return (Some (errorString github_token_hint)).
Proof.
  assert (Hin : HTTPDo (sample_request sample_query)
    ∈ (handler (sample_env sample_remote sample_head None
                  (inl (mkResponse 401 "401 Unauthorized"
                          (inl "Error: Must Provide GITHUB_TOKEN for this repository")))) []).1)
    by in_trace.
  split; [exact Hin |].
  refine (proj1 (unauthorized_github_token _ [] _
            (mkResponse 401 "401 Unauthorized"
               (inl "Error: Must Provide GITHUB_TOKEN for this repository"))
            _ Hin eq_refl eq_refl eq_refl eq_refl _)).
  exists "Error: ", "Must Provide GITHUB_TOKEN", " for this repository".
  split; reflexivity.
Defined.

Lemma root_normalization_witness :
  contextUpToRoot (sample_env sample_remote sample_head None (ok_response id_abc))
    ["-root=../sibling"]
  = ((contextUpToRoot (sample_env sample_remote sample_head None (ok_response id_abc))
        ["-root=../sibling"]).1,
     inl ((flag.Parse flagSet ["-root=../sibling"]).1,
          "github.com/gorilla/mux",
          "0123456789abcdef0123456789abcdef01234567", "./dump.lsif",
          "../sibling")) /\
  handler (sample_env sample_remote sample_head None (ok_response id_abc))
    ["-root=../sibling"]
  = ((contextUpToRoot (sample_env sample_remote sample_head None (ok_response id_abc))
        ["-root=../sibling"]).1
     ++ [Println "-root is outside the repository: ../sibling"], Exit 1).
Proof.
  assert (Hc : contextUpToRoot
                 (sample_env sample_remote sample_head None (ok_response id_abc))
                 ["-root=../sibling"]
    = ((contextUpToRoot (sample_env sample_remote sample_head None (ok_response id_abc))
          ["-root=../sibling"]).1,
       inl ((flag.Parse flagSet ["-root=../sibling"]).1,
            "github.com/gorilla/mux",
            "0123456789abcdef0123456789abcdef01234567", "./dump.lsif",
            "../sibling"))) by (vm_compute; reflexivity).
  split; [exact Hc |].
  exact (proj1 (proj1 (proj2 root_normalization) _ _ _ _ _ _ _ "../sibling" Hc eq_refl)).
Defined.

Lemma query_parameters_witness :
  HTTPDo (sample_request sample_query)
    ∈ (handler (sample_env sample_remote sample_head None (ok_response id_abc)) []).1 /\
  exists fs repo commit root,
    flag.Parse flagSet [] = (fs, None) /\
    url.RawQuery (URL (sample_request sample_query))
    = url.Encode (queryValues repo commit (flag.String_ fs "github-token") root
                    (flag.String_ fs "indexerName")).
Proof.
  assert (Hin : HTTPDo (sample_request sample_query)
    ∈ (handler (sample_env sample_remote sample_head None (ok_response id_abc)) []).1)
    by in_trace.
  split; [exact Hin |].
  destruct (proj1 (proj2 query_parameters) _ _ _ Hin)
    as (fs & repo & commit & root & Hp & _ & _ & _ & Hq).
  exists fs, repo, commit, root. split; assumption.
Defined.

Lemma query_parameters_counterexample :
  Println "Commit: "
    ∈ (handler (sample_env sample_remote (inl nl) None (ok_response id_abc))
         ["-repo=r"; "-root=x"]).1 /\
  HTTPDo (sample_request "commit=&repository=r&root=x")
    ∈ (handler (sample_env sample_remote (inl nl) None (ok_response id_abc))
         ["-repo=r"; "-root=x"]).1 /\
  queryValues "r" "" "" "x" "" !! "commit" = Some [""] /\
  url.Encode (queryValues "r" "" "" "x" "") = "commit=&repository=r&root=x".
Proof.
  split; [in_trace |]. split; [in_trace |]. split; reflexivity.
Qed.

Lemma explicit_empty_root_witness :
  contextUpToRoot (sample_env sample_remote sample_head None (ok_response id_abc))
    ["-root="]
  = ((contextUpToRoot (sample_env sample_remote sample_head None (ok_response id_abc))
        ["-root="]).1,
     inl ((flag.Parse flagSet ["-root="]).1,
          "github.com/gorilla/mux",
          "0123456789abcdef0123456789abcdef01234567", "./dump.lsif", "")) /\
  normalizeRoot "" = ([Println "Root: "], inl "") /\
  absent is_toplevel
    (contextUpToRoot (sample_env sample_remote sample_head None (ok_response id_abc))
       ["-root="]).1.
Proof.
  assert (Hc : contextUpToRoot
                 (sample_env sample_remote sample_head None (ok_response id_abc))
                 ["-root="]
    = ((contextUpToRoot (sample_env sample_remote sample_head None (ok_response id_abc))
          ["-root="]).1,
       inl ((flag.Parse flagSet ["-root="]).1,
            "github.com/gorilla/mux",
            "0123456789abcdef0123456789abcdef01234567", "./dump.lsif", "")))
    by (vm_compute; reflexivity).
  split; [exact Hc |].
  exact (proj2 (proj2 (proj1 explicit_empty_root _ _ _ _ _ _ _ "" Hc eq_refl eq_refl))).
Defined.

Lemma root_escape_is_a_prefix_test_witness :
  contextUpToRoot (sample_env sample_remote sample_head None (ok_response id_abc))
    ["-root=..foo"]
  = ((contextUpToRoot (sample_env sample_remote sample_head None (ok_response id_abc))
        ["-root=..foo"]).1,
     inl ((flag.Parse flagSet ["-root=..foo"]).1,
          "github.com/gorilla/mux",
          "0123456789abcdef0123456789abcdef01234567", "./dump.lsif", "..foo")) /\
  handler (sample_env sample_remote sample_head None (ok_response id_abc))
    ["-root=..foo"]
  = ((contextUpToRoot (sample_env sample_remote sample_head None (ok_response id_abc))
        ["-root=..foo"]).1
     ++ [Println "-root is outside the repository: ..foo"], Exit 1).
Proof.
  assert (Hc : contextUpToRoot
                 (sample_env sample_remote sample_head None (ok_response id_abc))
                 ["-root=..foo"]
    = ((contextUpToRoot (sample_env sample_remote sample_head None (ok_response id_abc))
          ["-root=..foo"]).1,
       inl ((flag.Parse flagSet ["-root=..foo"]).1,
            "github.com/gorilla/mux",
            "0123456789abcdef0123456789abcdef01234567", "./dump.lsif", "..foo")))
    by (vm_compute; reflexivity).
  split; [exact Hc |].
  exact (proj1 root_escape_is_a_prefix_test _ _ _ _ _ _ _ "..foo" Hc eq_refl).
Defined.


(** ** The loops run to their end

    The functions that follow a Go loop with a counter of steps are given
    as many steps as the loop can take; more steps change nothing. *)

Lemma copy_element_rest (rest out : string) :
  (len (filepath.copy_element rest out).2 <= len rest)%nat.
Proof.
  revert out. induction rest as [|c rest IH]; intros out; cbn [filepath.copy_element];
    [reflexivity |].
  destruct (filepath.IsPathSeparator c); [reflexivity |].
  specialize (IH (out +:+ String c "")). cbn [len String.length] in *.
  unfold len in *. lia.
Qed.

Lemma clean_loop_fuel (f1 f2 : nat) (rooted : bool) (rest out : string)
    (dotdot : nat) :
  (len rest <= f1)%nat -> (len rest <= f2)%nat ->
  filepath.clean_loop f1 rooted rest out dotdot
  = filepath.clean_loop f2 rooted rest out dotdot.
Proof.
  revert f2 rest out dotdot.
  induction f1 as [|f1 IH]; intros f2 rest out dotdot H1 H2.
  - destruct rest; [| cbn in H1; lia]. now destruct f2.
  - destruct f2 as [|f2].
    { destruct rest; [reflexivity | cbn in H2; lia]. }
    cbn [filepath.clean_loop]. cbv zeta.
    destruct rest as [|c r1]; [reflexivity |].
    assert (Hr1 : (len r1 <= f1)%nat /\ (len r1 <= f2)%nat)
      by (cbn [len String.length] in *; unfold len; lia).
    assert (Hreal : forall o,
      (let '(out2, rest2) := filepath.copy_element (String c r1) o in
       filepath.clean_loop f1 rooted rest2 out2 dotdot)
      = (let '(out2, rest2) := filepath.copy_element (String c r1) o in
         filepath.clean_loop f2 rooted rest2 out2 dotdot) \/
      filepath.IsPathSeparator c = true).
    { intros o. destruct (filepath.IsPathSeparator c) eqn:Ec; [now right | left].
      cbn [filepath.copy_element]. rewrite Ec.
      pose proof (copy_element_rest r1 (o +:+ String c "")) as Hl.
      destruct (filepath.copy_element r1 (o +:+ String c "")) as [out2 rest2].
      cbn [snd] in Hl. apply IH; lia. }
    destruct (filepath.IsPathSeparator c) eqn:Ec; [apply IH; lia |].
    assert (Hreal' : forall o,
      (let '(out2, rest2) := filepath.copy_element (String c r1) o in
       filepath.clean_loop f1 rooted rest2 out2 dotdot)
      = (let '(out2, rest2) := filepath.copy_element (String c r1) o in
         filepath.clean_loop f2 rooted rest2 out2 dotdot)).
    { intros o. destruct (Hreal o) as [H | H]; [exact H | discriminate]. }
    destruct (Ascii.eqb c "." && filepath.at_element_end r1); [apply IH; lia |].
    destruct r1 as [|c1 r2]; [apply Hreal' |].
    destruct (Ascii.eqb c "." && Ascii.eqb c1 "." && filepath.at_element_end r2);
      [| apply Hreal'].
    assert (Hr2 : (len r2 <= f1)%nat /\ (len r2 <= f2)%nat)
      by (cbn [len String.length] in *; unfold len in *; lia).
    destruct (dotdot <? len out)%nat; [apply IH; lia |].
    destruct (negb rooted); apply IH; lia.
Qed.


(** What a scanner leaves is no longer than what it was given. *)

Lemma skip_ws_len (s : string) : (len (json.skip_ws s) <= len s)%nat.
Proof.
  induction s as [|c s IH]; cbn [json.skip_ws]; [reflexivity |].
  destruct (json.isSpace c); [| reflexivity].
  cbn [len String.length] in *. unfold len in *. lia.
Qed.

Lemma scan_string_len (n : nat) (s raw r : string) :
  (len s <= n)%nat -> json.scan_string s = Some (raw, r) -> (len r < len s)%nat.
Proof.
  unfold len. revert s raw r.
  induction n as [|n IH]; intros s raw r Hn H.
  { destruct s; [discriminate | cbn in Hn; lia]. }
  destruct s as [|c rest]; [discriminate |].
  cbn [json.scan_string] in H. cbn [String.length] in *.
  destruct (Ascii.eqb c "034").
  { injection H as _ <-. lia. }
  destruct (Ascii.eqb c "\").
  - destruct rest as [|e rest1]; [discriminate |]. cbn [String.length] in *.
    destruct (byte_in e "bfnrt\/" || Ascii.eqb e "034").
    + destruct (json.scan_string rest1) as [[raw1 r1]|] eqn:E; [| discriminate].
      injection H as _ <-. apply IH in E; lia.
    + destruct (Ascii.eqb e "u"); [| discriminate].
      destruct rest1 as [|h1 [|h2 [|h3 [|h4 rest2]]]]; try discriminate.
      destruct (url.ishex h1 && url.ishex h2 && url.ishex h3 && url.ishex h4);
        [| discriminate].
      cbn [String.length] in *.
      destruct (json.scan_string rest2) as [[raw1 r1]|] eqn:E; [| discriminate].
      injection H as _ <-. apply IH in E; lia.
  - destruct (byteZ c <? 32); [discriminate |].
    destruct (json.scan_string rest) as [[raw1 r1]|] eqn:E; [| discriminate].
    injection H as _ <-. apply IH in E; lia.
Qed.

Lemma scan_digits_len (s : string) :
  (len (json.scan_digits s).2 <= len s)%nat.
Proof.
  unfold len. induction s as [|c s IH]; cbn [json.scan_digits]; [reflexivity |].
  destruct (is_digit c); [| reflexivity].
  destruct (json.scan_digits s) as [ds r]. cbn [snd String.length] in *. lia.
Qed.

Lemma scan_digits1_len (s ds r : string) :
  json.scan_digits1 s = Some (ds, r) -> (len r <= len s)%nat.
Proof.
  unfold json.scan_digits1. pose proof (scan_digits_len s) as H.
  destruct (json.scan_digits s) as [ds' r']. cbn [snd] in H.
  destruct (String.eqb ds' ""); [discriminate |]. now intros [= _ <-].
Qed.

Lemma scan_number_len (s lit r : string) :
  json.scan_number s = Some (lit, r) -> (len r <= len s)%nat.
Proof.
  unfold json.scan_number.
  set (p := match s with
            | String c rest =>
              if Ascii.eqb c "-" then (String c EmptyString, rest)
              else (EmptyString, s)
            | EmptyString => (EmptyString, s)
            end).
  assert (Hp : (len p.2 <= len s)%nat).
  { subst p. unfold len. destruct s as [|c rest]; [reflexivity |].
    destruct (Ascii.eqb c "-"); cbn [snd String.length]; lia. }
  destruct p as [sign s1]. cbn [snd] in Hp.
  destruct (json.scan_int s1) as [[i s2]|] eqn:Ei; [| discriminate].
  assert (H2 : (len s2 <= len s1)%nat).
  { unfold json.scan_int in Ei. destruct s1 as [|c rest]; [discriminate |].
    destruct (Ascii.eqb c "0").
    - injection Ei as _ <-. unfold len. cbn [String.length]. lia.
    - destruct (in_range 49 57 c); [| discriminate].
      now apply scan_digits1_len in Ei. }
  destruct (json.scan_frac s2) as [[f s3]|] eqn:Ef; [| discriminate].
  assert (H3 : (len s3 <= len s2)%nat).
  { unfold json.scan_frac in Ef. destruct s2 as [|c rest]; [now injection Ef as _ <- |].
    destruct (Ascii.eqb c ".").
    - destruct (json.scan_digits1 rest) as [[ds r']|] eqn:Ed; [| discriminate].
      injection Ef as _ <-. apply scan_digits1_len in Ed.
      unfold len in *. cbn [String.length]. lia.
    - now injection Ef as _ <-. }
  destruct (json.scan_exp s3) as [[e s4]|] eqn:Ee; [| discriminate].
  assert (H4 : (len s4 <= len s3)%nat).
  { unfold json.scan_exp in Ee. destruct s3 as [|c rest]; [now injection Ee as _ <- |].
    destruct (byte_in c "eE"); [| now injection Ee as _ <-].
    set (q := match rest with
              | String g rest1 =>
                if byte_in g "+-" then (String g EmptyString, rest1)
                else (EmptyString, rest)
              | EmptyString => (EmptyString, rest)
              end) in Ee.
    assert (Hq : (len q.2 <= len rest)%nat).
    { subst q. unfold len. destruct rest as [|g rest1]; [reflexivity |].
      destruct (byte_in g "+-"); cbn [snd String.length]; lia. }
    destruct q as [sg rest1]. cbn [snd] in Hq.
    destruct (json.scan_digits1 rest1) as [[ds r']|] eqn:Ed; [| discriminate].
    injection Ee as _ <-. apply scan_digits1_len in Ed.
    unfold len in *. cbn [String.length]. lia. }
  intros [= _ <-]. lia.
Qed.

Lemma literal_len (word : string) (v v' : json.Value) (s r : string) :
  json.literal word v s = Some (v', r) -> (len r <= len s)%nat.
Proof.
  unfold json.literal. destruct (strings.HasPrefix s word); [| discriminate].
  intros [= _ <-]. clear. unfold len. generalize (String.length word) as n.
  intros n. revert s. induction n as [|n IH]; intros s; cbn [drop_bytes];
    [reflexivity |].
  destruct s as [|c s]; [reflexivity |]. cbn [String.length]. specialize (IH s). lia.
Qed.

Lemma skip_ws_cons_len (s : string) (c : ascii) (rest : string) :
  json.skip_ws s = String c rest -> (S (len rest) <= len s)%nat.
Proof.
  intros H. pose proof (skip_ws_len s) as Hl. rewrite H in Hl. exact Hl.
Qed.

Lemma parse_len (fuel : nat) :
  (forall depth s v r,
     json.parse_value fuel depth s = Some (v, r) -> (len r <= len s)%nat) /\
  (forall depth s vs r,
     json.parse_elems fuel depth s = Some (vs, r) -> (len r <= len s)%nat) /\
  (forall depth s ms r,
     json.parse_members fuel depth s = Some (ms, r) -> (len r <= len s)%nat).
Proof.
  induction fuel as [|fuel (IHv & IHe & IHm)]; [repeat split; discriminate |].
  repeat split.
  - intros depth s v r H. cbn [json.parse_value] in H.
    destruct (json.skip_ws s) as [|c rest] eqn:Es; [discriminate |].
    apply skip_ws_cons_len in Es.
    destruct (Ascii.eqb c "{").
    { destruct (json.maxNestingDepth <? depth + 1)%N; [discriminate |].
      destruct (json.skip_ws rest) as [|d rest1] eqn:Er; [discriminate |].
      apply skip_ws_cons_len in Er.
      destruct (Ascii.eqb d "}"); [injection H as _ <-; lia |].
      destruct (json.parse_members fuel (depth + 1) rest) as [[ms r']|] eqn:E;
        [| discriminate].
      injection H as _ <-. apply IHm in E. lia. }
    destruct (Ascii.eqb c "[").
    { destruct (json.maxNestingDepth <? depth + 1)%N; [discriminate |].
      destruct (json.skip_ws rest) as [|d rest1] eqn:Er; [discriminate |].
      apply skip_ws_cons_len in Er.
      destruct (Ascii.eqb d "]"); [injection H as _ <-; lia |].
      destruct (json.parse_elems fuel (depth + 1) rest) as [[vs r']|] eqn:E;
        [| discriminate].
      injection H as _ <-. apply IHe in E. lia. }
    destruct (Ascii.eqb c "034").
    { destruct (json.scan_string rest) as [[raw r']|] eqn:E; [| discriminate].
      destruct (json.unquote (len raw) raw); [| discriminate].
      injection H as _ <-. apply (scan_string_len (len rest)) in E; lia. }
    assert (Hc : (len (String c rest) <= len s)%nat) by exact Es.
    destruct (Ascii.eqb c "-" || is_digit c).
    { destruct (json.scan_number (String c rest)) as [[lit r']|] eqn:E;
        [| discriminate].
      injection H as _ <-. apply scan_number_len in E. lia. }
    destruct (Ascii.eqb c "t"); [apply literal_len in H; lia |].
    destruct (Ascii.eqb c "f"); [apply literal_len in H; lia |].
    destruct (Ascii.eqb c "n"); [apply literal_len in H; lia | discriminate].
  - intros depth s vs r H. cbn [json.parse_elems] in H.
    destruct (json.parse_value fuel depth s) as [[v r0]|] eqn:Ev; [| discriminate].
    apply IHv in Ev.
    destruct (json.skip_ws r0) as [|c r1] eqn:Er; [discriminate |].
    apply skip_ws_cons_len in Er.
    destruct (Ascii.eqb c ",").
    { destruct (json.parse_elems fuel depth r1) as [[vs' r2]|] eqn:E;
        [| discriminate].
      injection H as _ <-. apply IHe in E. lia. }
    destruct (Ascii.eqb c "]"); [| discriminate]. injection H as _ <-. lia.
  - intros depth s ms r H. cbn [json.parse_members] in H.
    destruct (json.skip_ws s) as [|q r0] eqn:Es; [discriminate |].
    apply skip_ws_cons_len in Es.
    destruct (Ascii.eqb q "034"); [| discriminate].
    destruct (json.scan_string r0) as [[raw r1]|] eqn:Ek; [| discriminate].
    apply (scan_string_len (len r0)) in Ek; [| lia].
    destruct (json.unquote (len raw) raw) as [key|]; [| discriminate].
    destruct (json.skip_ws r1) as [|colon r2] eqn:Ec; [discriminate |].
    apply skip_ws_cons_len in Ec.
    destruct (Ascii.eqb colon ":"); [| discriminate].
    destruct (json.parse_value fuel depth r2) as [[v r3]|] eqn:Ev; [| discriminate].
    apply IHv in Ev.
    destruct (json.skip_ws r3) as [|c r4] eqn:Er; [discriminate |].
    apply skip_ws_cons_len in Er.
    destruct (Ascii.eqb c ",").
    { destruct (json.parse_members fuel depth r4) as [[ms' r5]|] eqn:E;
        [| discriminate].
      injection H as _ <-. apply IHm in E. lia. }
    destruct (Ascii.eqb c "}"); [| discriminate]. injection H as _ <-. lia.
Qed.

(** The parser is given twice the length of its input in steps, and two
    more; any larger number of steps gives the same result. *)
Lemma parse_fuel (f1 : nat) :
  forall f2 : nat,
  (forall depth s, (2 * len s + 1 <= f1)%nat -> (2 * len s + 1 <= f2)%nat ->
     json.parse_value f1 depth s = json.parse_value f2 depth s) /\
  (forall depth s, (2 * len s + 2 <= f1)%nat -> (2 * len s + 2 <= f2)%nat ->
     json.parse_elems f1 depth s = json.parse_elems f2 depth s) /\
  (forall depth s, (2 * len s + 2 <= f1)%nat -> (2 * len s + 2 <= f2)%nat ->
     json.parse_members f1 depth s = json.parse_members f2 depth s).
Proof.
  induction f1 as [|f1 IH]; intros f2.
  { repeat split; intros; lia. }
  destruct f2 as [|f2]; [repeat split; intros; lia |].
  destruct (IH f2) as (IHv & IHe & IHm). clear IH.
  repeat split.
  - intros depth s H1 H2. cbn [json.parse_value].
    destruct (json.skip_ws s) as [|c rest] eqn:Es; [reflexivity |].
    apply skip_ws_cons_len in Es.
    rewrite (IHm (depth + 1)%N rest) by lia.
    rewrite (IHe (depth + 1)%N rest) by lia.
    reflexivity.
  - intros depth s H1 H2. cbn [json.parse_elems].
    rewrite (IHv depth s) by lia.
    destruct (json.parse_value f2 depth s) as [[v r0]|] eqn:Ev; [| reflexivity].
    apply (proj1 (parse_len f2)) in Ev.
    destruct (json.skip_ws r0) as [|c r1] eqn:Er; [reflexivity |].
    apply skip_ws_cons_len in Er.
    rewrite (IHe depth r1) by lia. reflexivity.
  - intros depth s H1 H2. cbn [json.parse_members].
    destruct (json.skip_ws s) as [|q r0] eqn:Es; [reflexivity |].
    apply skip_ws_cons_len in Es.
    destruct (Ascii.eqb q "034"); [| reflexivity].
    destruct (json.scan_string r0) as [[raw r1]|] eqn:Ek; [| reflexivity].
    apply (scan_string_len (len r0)) in Ek; [| lia].
    destruct (json.unquote (len raw) raw) as [key|]; [| reflexivity].
    destruct (json.skip_ws r1) as [|colon r2] eqn:Ec; [reflexivity |].
    apply skip_ws_cons_len in Ec.
    destruct (Ascii.eqb colon ":"); [| reflexivity].
    rewrite (IHv depth r2) by lia.
    destruct (json.parse_value f2 depth r2) as [[v r3]|] eqn:Ev; [| reflexivity].
    apply (proj1 (parse_len f2)) in Ev.
    destruct (json.skip_ws r3) as [|c r4] eqn:Er; [reflexivity |].
    apply skip_ws_cons_len in Er.
    rewrite (IHm depth r4) by lia. reflexivity.
Qed.

(** [json.parse] stops for no lack of steps. *)
Lemma parse_enough_fuel (fuel : nat) (data : string) :
  (2 * len data + 2 <= fuel)%nat ->
  json.parse data
  = match json.parse_value fuel 0 data with
    | Some (v, rest) =>
      if String.eqb (json.skip_ws rest) EmptyString then Some v else None
    | None => None
    end.
Proof.
  intros H. unfold json.parse.
  now rewrite (proj1 (parse_fuel (2 * len data + 2) fuel) 0%N data) by lia.
Qed.

Lemma drop_bytes_len (n : nat) (s : string) :
  len (drop_bytes n s) = (len s - n)%nat.
Proof.
  unfold len. revert s. induction n as [|n IH]; intros s; cbn [drop_bytes].
  - lia.
  - destruct s as [|c s]; [reflexivity |]. cbn [String.length]. now rewrite IH.
Qed.

Lemma DecodeRuneInString_size (c : ascii) (s : string) :
  (1 <= (utf8.DecodeRuneInString (String c s)).2)%nat.
Proof.
  unfold utf8.DecodeRuneInString.
  destruct (utf8.accept (byteZ c)) as [lo hi].
  destruct (utf8.seq_len (byteZ c)) as [|[|[|[|[|n]]]]]; cbn [snd]; try lia.
  - destruct s as [|c1 s]; cbn [snd]; [lia |].
    destruct (in_range lo hi c1); cbn [snd]; lia.
  - destruct s as [|c1 [|c2 s]]; cbn [snd]; try lia.
    destruct (in_range lo hi c1 && in_range 128 191 c2); cbn [snd]; lia.
  - destruct s as [|c1 [|c2 [|c3 s]]]; cbn [snd]; try lia.
    destruct (in_range lo hi c1 && in_range 128 191 c2 && in_range 128 191 c3);
      cbn [snd]; lia.
Qed.

(** [unquote] is given one step per byte of the literal. *)
Lemma unquote_fuel (f1 f2 : nat) (s : string) :
  (len s <= f1)%nat -> (len s <= f2)%nat -> json.unquote f1 s = json.unquote f2 s.
Proof.
  revert f2 s. induction f1 as [|f1 IH]; intros f2 s H1 H2.
  { destruct s; [now destruct f2 | cbn in H1; lia]. }
  destruct f2 as [|f2]; [destruct s; [reflexivity | cbn in H2; lia] |].
  destruct s as [|c rest]; [reflexivity |].
  cbn [json.unquote]. unfold len in H1, H2. cbn [String.length] in H1, H2.
  assert (Hrest : json.unquote f1 rest = json.unquote f2 rest)
    by (apply IH; unfold len; lia).
  assert (Hdrop : forall n, (1 <= n)%nat ->
            json.unquote f1 (drop_bytes n (String c rest))
            = json.unquote f2 (drop_bytes n (String c rest))).
  { intros n Hn. apply IH; rewrite drop_bytes_len; unfold len;
      cbn [String.length]; lia. }
  destruct (Ascii.eqb c "\").
  - destruct rest as [|e rest1]; [reflexivity |].
    destruct (Ascii.eqb e "u").
    + destruct (json.getu4 (String c (String e rest1)) <? 0); [reflexivity |].
      set (after := drop_bytes 6 (String c (String e rest1))).
      assert (Ha : json.unquote f1 after = json.unquote f2 after)
        by (apply Hdrop; lia).
      assert (Hb : json.unquote f1 (drop_bytes 6 after)
                   = json.unquote f2 (drop_bytes 6 after)).
      { apply IH; subst after; rewrite !drop_bytes_len; unfold len;
          cbn [String.length] in *; lia. }
      now rewrite Ha, Hb.
    + destruct (json.escape_char e); [| reflexivity].
      rewrite (IH f2 rest1); [reflexivity | |];
        unfold len; cbn [String.length] in *; lia.
  - destruct (Ascii.eqb c "034" || (byteZ c <? 32)); [reflexivity |].
    destruct (byteZ c <? utf8.RuneSelf); [now rewrite Hrest |].
    pose proof (DecodeRuneInString_size c rest) as Hsz.
    destruct (utf8.DecodeRuneInString (String c rest)) as [rr size].
    cbn [snd] in Hsz. now rewrite (Hdrop size Hsz).
Qed.

(** [flag.Parse] takes at most one turn of its loop per argument, and one
    more to see that none is left. *)
Lemma parseOne_consumes (f f' : flag.FlagSet) (err : option error) :
  flag.parseOne f = (f', true, err) ->
  (length (flag.args f') < length (flag.args f))%nat.
Proof.
  unfold flag.parseOne. destruct (flag.args f) as [|s rest]; [discriminate |].
  destruct s as [|c0 [|c1 s2]]; try discriminate.
  destruct (negb (Ascii.eqb c0 "-")); [discriminate |].
  destruct (Ascii.eqb c1 "-" && String.eqb s2 ""); [discriminate |].
  match goal with |- context [if ?b then _ else _] => destruct b end;
    [discriminate |].
  cbv zeta. destruct (flag.split_value _) as [name value].
  cbn [flag.formal].
  destruct (flag.formal f !! name) as [[dflt|dflt]|].
  - destruct value as [v|].
    + intros [= <- _]. cbn. lia.
    + destruct rest as [|v rest']; [discriminate |]. intros [= <- _]. cbn. lia.
  - destruct value as [v|].
    + destruct (flag.ParseBool v); [| discriminate]. intros [= <- _]. cbn. lia.
    + intros [= <- _]. cbn. lia.
  - destruct (String.eqb name "help" || String.eqb name "h"); discriminate.
Qed.

Lemma parse_loop_fuel (f1 f2 : nat) (f : flag.FlagSet) :
  (length (flag.args f) < f1)%nat -> (length (flag.args f) < f2)%nat ->
  flag.parse_loop f1 f = flag.parse_loop f2 f.
Proof.
  revert f2 f. induction f1 as [|f1 IH]; intros f2 f H1 H2; [lia |].
  destruct f2 as [|f2]; [lia |]. cbn [flag.parse_loop].
  destruct (flag.parseOne f) as [[f' seen] err] eqn:E.
  destruct seen; [| reflexivity].
  apply parseOne_consumes in E. apply IH; lia.
Qed.


(** ** The library functions on the examples of their documentation *)

Example Clean_examples :
  map filepath.Clean
    [""; "a//b"; "a/./b/../c"; "/.."; "../a"; "a/../.."; "/"; "cmd/";
     "abc/def/../../.."; "/../abc"; "abc/./../def"; "//abc"; "a/../../b"]
  = ["."; "a/b"; "a/c"; "/"; "../a"; ".."; "/"; "cmd";
     ".."; "/abc"; "def"; "/abc"; "../b"].
Proof. vm_compute. reflexivity. Qed.

Example Dir_examples :
  map filepath.Dir
    ["dump.lsif"; "cmd/project1/dump.lsif"; "/a"; ""; "a/"; "../dump.lsif"; "/"]
  = ["."; "cmd/project1"; "/"; "."; "a"; ".."; "/"].
Proof. vm_compute. reflexivity. Qed.

Example base64_examples :
  map base64.EncodeToString
    [""; "f"; "fo"; "foo"; "foob"; "fooba"; "foobar";
     String (byte_of_Z 251) (String (byte_of_Z 255) "")]
  = [""; "Zg=="; "Zm8="; "Zm9v"; "Zm9vYg=="; "Zm9vYmE="; "Zm9vYmFy"; "-_8="].
Proof. vm_compute. reflexivity. Qed.

Example QueryEscape_example :
  url.QueryEscape "a b&c=d/~_-.*" = "a+b%26c%3Dd%2F~_-.%2A".
Proof. vm_compute. reflexivity. Qed.

Example Encode_example :
  url.Encode
    (url.Add (url.Add (url.Add ∅ "repository" "github.com/gorilla/mux")
                      "commit" "abc def") "root" "cmd/x")
  = "commit=abc+def&repository=github.com%2Fgorilla%2Fmux&root=cmd%2Fx".
Proof. vm_compute. reflexivity. Qed.

Example Split_examples :
  strings.Split "a:b:c" ":" = ["a"; "b"; "c"] /\
  strings.Split "abc" "" = ["a"; "b"; "c"] /\
  strings.Split "" ":" = [""].
Proof. repeat split; vm_compute; reflexivity. Qed.

Example TrimSpace_example :
  strings.TrimSpace (String "009" " x y " +:+ nl) = "x y".
Proof. vm_compute. reflexivity. Qed.

Example ToLower_example (tab : unicode.CaseTable) :
  strings.ToLower tab "MUST Provide GitHub_Token" = "must provide github_token".
Proof. vm_compute. reflexivity. Qed.

(** The two remotes of the comment above [parseRemoteURL]. *)
Example parseRemoteURL_examples :
  parseRemoteURL "git@github.com:gorilla/mux.git" = inl "github.com/gorilla/mux" /\
  parseRemoteURL "https://github.com/gorilla/mux.git" = inl "github.com/gorilla/mux".
Proof. split; vm_compute; reflexivity. Qed.

Example Unmarshal_examples :
  map json.Unmarshal
    ["{}"; "null"; "[]"; "{} x"; "01"; "tru"; "1e5"; "-"; "[1,]"; "[[[]]]"; "";
     "{" +:+ dquote +:+ "ID" +:+ dquote +:+ " : " +:+ dquote +:+ "aé" +:+
       dquote +:+ " } "]
  = [inl ""; inl ""; inr (UnmarshalTypeError "array");
     inr (SyntaxError "invalid JSON input"); inr (SyntaxError "invalid JSON input");
     inr (SyntaxError "invalid JSON input"); inr (UnmarshalTypeError "number");
     inr (SyntaxError "invalid JSON input"); inr (SyntaxError "invalid JSON input");
     inr (UnmarshalTypeError "array"); inr (SyntaxError "invalid JSON input");
     inl ("a" +:+ String (byte_of_Z 195) (String (byte_of_Z 169) ""))].
Proof. vm_compute. reflexivity. Qed.

Example Parse_example :
  let '(f, err) :=
    flag.Parse flagSet ["-root="; "--file"; "x"; "-open"; "rest"; "-repo"; "r"] in
  flag.args f = ["rest"; "-repo"; "r"] /\ err = None /\
  flag.String_ f "root" = "" /\ flag.String_ f "file" = "x" /\
  flag.Bool_ f "open" = true /\
  isFlagSet f "root" = true /\ isFlagSet f "repo" = false.
Proof. vm_compute. repeat split. Qed.

Example Parse_errors :
  (flag.Parse flagSet ["-h"]).2 = Some flag.ErrHelp /\
  (flag.Parse flagSet ["-nope"]).2
  = Some (errorString "flag provided but not defined: -nope") /\
  (flag.Parse flagSet ["-root"]).2
  = Some (errorString "flag needs an argument: -root").
Proof. repeat split; vm_compute; reflexivity. Qed.


(** ** Further properties of the handler *)

(** X1.  When the request was sent and answered with a status outside
    [200,300) that is not the 401 of a missing GitHub token, the handler
    returns the error "error: <status>", an empty line, and the body; when
    the status is 401 and the output is a terminal, the three lines about
    the access token are printed. *)
Theorem failure_status_reported (env : Env) (args : list string)
    (req : Request) (resp : Response) (body : string) :
  HTTPDo req ∈ (handler env args).1 ->
  http_Do env = inl resp -> gzip_copy env = None -> Body resp = inl body ->
  StatusCode resp < 200 \/ 300 <= StatusCode resp ->
  (StatusCode resp = 401 ->
   strings.Contains (strings.ToLower (unicode_lower env) body)
                    "must provide github_token" = false) ->
  (handler env args).2
  = Return (Some (errorString
      ("error: " +:+ Status resp +:+ nl +:+ nl +:+ body))) /\
  (StatusCode resp = 401 -> isatty_IsTerminal env = true ->
   Println "You may need to specify or update your GitHub access token to use this endpoint."
     ∈ (handler env args).1 /\
   Println "See https://github.com/sourcegraph/src-cli#authentication"
     ∈ (handler env args).1).
Proof.
  intros Hin Hdo Hgz Hb Hs Hphrase.
  destruct (handler_interprets _ _ _ _ _ Hin Hdo Hgz Hb)
    as (tr & repo & openFlag & _ & ->).
  unfold interpretResponse.
  replace ((StatusCode resp <? 200) || (300 <=? StatusCode resp)) with true.
  2:{ symmetry. apply orb_true_iff. destruct Hs; [left; apply Z.ltb_lt | right; apply Z.leb_le]; lia. }
  destruct (StatusCode resp =? 401) eqn:E401.
  - apply Z.eqb_eq in E401. rewrite (Hphrase E401). cbn [andb].
    destruct (isatty_IsTerminal env).
    + split; [reflexivity |]. intros _ _. cbn.
      split; apply elem_of_app; right; repeat constructor.
    + split; [reflexivity |]. intros _ Hf. discriminate Hf.
  - cbn [andb]. split; [reflexivity |].
    intros H401. apply Z.eqb_neq in E401. contradiction.
Qed.

Lemma failure_status_witness :
  (handler (sample_env sample_remote sample_head None (failed_response "boom")) []).2
  = Return (Some (errorString
      ("error: " +:+ "500 Internal Server Error" +:+ nl +:+ nl +:+ "boom"))).
Proof.
  set (env := sample_env sample_remote sample_head None (failed_response "boom")).
  refine (proj1 (failure_status_reported env [] (sample_request sample_query)
                   (mkResponse 500 "500 Internal Server Error" (inl "boom"))
                   "boom" _ eq_refl eq_refl eq_refl _ _)).
  - vm_compute. repeat first [apply list_elem_of_here | apply list_elem_of_further].
  - right. cbn. lia.
  - cbn. intros H. discriminate H.
Defined.

(** X2.  When the request was sent and the transport failed, the handler
    returns the error of the transport. *)
Theorem transport_error_returned (env : Env) (args : list string)
    (req : Request) (err : error) :
  HTTPDo req ∈ (handler env args).1 ->
  http_Do env = inr err ->
  (handler env args).2 = Return (Some err).
Proof.
  intros Hin Hdo.
  destruct (handler_network _ _ _ Hin) as (tr & repo & openFlag & Hp).
  rewrite (handler_prepared _ _ _ _ _ _ Hp). unfold afterRequest.
  now rewrite (awaitResponse_transport_error _ _ _ Hdo).
Qed.

Lemma transport_error_witness :
  (handler (sample_env sample_remote sample_head None
              (inr (external "connection refused"))) []).2
  = Return (Some (external "connection refused")).
Proof.
  refine (transport_error_returned
            (sample_env sample_remote sample_head None
               (inr (external "connection refused")))
            [] (sample_request sample_query) (external "connection refused")
            _ eq_refl).
  vm_compute. repeat first [apply list_elem_of_here | apply list_elem_of_further].
Defined.

(** X3.  When the flags are parsed and the repository and the commit are
    resolved, and the dump file does not exist, the run prints the two
    lines about the file and exits with status 1: the file is not opened
    and no request is sent. *)
Theorem missing_file_exits (env : Env) (args : list string) (fs : flag.FlagSet)
    (tr1 tr2 : list event) (repo commit : string) :
  flag.Parse flagSet args = (fs, None) ->
  resolveRepository env fs = (tr1, inl repo) ->
  resolveCommit env fs = (tr2, inl commit) ->
  os_Stat_IsNotExist env (flag.String_ fs "file") = true ->
  handler env args
  = (tr1 ++ tr2 ++
     [Stat (flag.String_ fs "file");
      Println ("File does not exist: " +:+ flag.String_ fs "file");
      Println "Either cd to the directory where it was generated or set -file explicitly."],
     Exit 1).
Proof.
  intros Hp Hr Hc Hs. unfold handler, prepare, contextUpToRoot.
  rewrite (parseFlags_ok _ _ Hp), bind_ret, Hr.
  unfold checkFile. rewrite Hs. cbn. rewrite Hc. cbn.
  now rewrite <- ?app_assoc, ?app_nil_r.
Qed.

Lemma missing_file_witness :
  handler (without_file (sample_env sample_remote sample_head None (ok_response id_abc))) []
  = ([Exec ["git"; "remote"; "get-url"; "origin"];
      Println "Repository: github.com/gorilla/mux";
      Exec ["git"; "rev-parse"; "HEAD"];
      Println "Commit: 0123456789abcdef0123456789abcdef01234567";
      Stat "./dump.lsif";
      Println "File does not exist: ./dump.lsif";
      Println "Either cd to the directory where it was generated or set -file explicitly."],
     Exit 1).
Proof.
  exact (missing_file_exits
           (without_file (sample_env sample_remote sample_head None (ok_response id_abc)))
           [] (flag.Parse flagSet []).1
           [Exec ["git"; "remote"; "get-url"; "origin"];
            Println "Repository: github.com/gorilla/mux"]
           [Exec ["git"; "rev-parse"; "HEAD"];
            Println "Commit: 0123456789abcdef0123456789abcdef01234567"]
           "github.com/gorilla/mux" "0123456789abcdef0123456789abcdef01234567"
           eq_refl eq_refl eq_refl eq_refl).
Defined.

(** X4.  When no repository is given on the command line and git cannot
    tell the origin remote, the run prints the failure of git and the two
    lines of advice and exits with status 1; nothing else happens. *)
Theorem git_remote_failure_exits (env : Env) (args : list string)
    (fs : flag.FlagSet) (err : error) :
  flag.Parse flagSet args = (fs, None) ->
  flag.String_ fs "repo" = "" ->
  git_remote_get_url env = inr err ->
  handler env args
  = ([Exec ["git"; "remote"; "get-url"; "origin"];
      Println ("Failed to invoke git: " +:+ Error err);
      Println "Unable to detect repository from environment.";
      Println "Either cd into a git repository or set -repo explicitly."],
     Exit 1).
Proof.
  intros Hp Hrepo Hgit. unfold handler, prepare, contextUpToRoot.
  rewrite (parseFlags_ok _ _ Hp), bind_ret.
  unfold resolveRepository. rewrite Hrepo, Hgit. reflexivity.
Qed.

Lemma git_remote_failure_witness :
  handler (sample_env (inr (external "exit status 128")) sample_head None
             (ok_response id_abc)) []
  = ([Exec ["git"; "remote"; "get-url"; "origin"];
      Println "Failed to invoke git: exit status 128";
      Println "Unable to detect repository from environment.";
      Println "Either cd into a git repository or set -repo explicitly."],
     Exit 1).
Proof.
  exact (git_remote_failure_exits
           (sample_env (inr (external "exit status 128")) sample_head None
              (ok_response id_abc))
           [] (flag.Parse flagSet []).1 (external "exit status 128")
           eq_refl eq_refl eq_refl).
Defined.

(** A repository or a commit given on the command line is used as it
    is, and git is not asked for it; without the flag (or with the empty
    value) git is asked first. *)
Lemma explicit_repo_and_commit (env : Env) (fs : flag.FlagSet) :
  (flag.String_ fs "repo" <> "" ->
   resolveRepository env fs
   = ([Println ("Repository: " +:+ flag.String_ fs "repo")],
      inl (flag.String_ fs "repo"))) /\
  (flag.String_ fs "commit" <> "" ->
   resolveCommit env fs
   = ([Println ("Commit: " +:+ flag.String_ fs "commit")],
      inl (flag.String_ fs "commit"))) /\
  (flag.String_ fs "repo" = "" ->
   head (resolveRepository env fs).1
   = Some (Exec ["git"; "remote"; "get-url"; "origin"])) /\
  (flag.String_ fs "commit" = "" ->
   head (resolveCommit env fs).1 = Some (Exec ["git"; "rev-parse"; "HEAD"])).
Proof.
  unfold resolveRepository, resolveCommit. repeat split.
  - intros H. apply String.eqb_neq in H. now rewrite H.
  - intros H. apply String.eqb_neq in H. now rewrite H.
  - intros ->. cbn [String.eqb]. rewrite !bind_trace. reflexivity.
  - intros ->. cbn [String.eqb]. rewrite !bind_trace. reflexivity.
Qed.

Lemma sendRequest_sent (env : Env) (fs : flag.FlagSet)
    (repo commit file root : string) (tr : list event) (gz : compressor) :
  sendRequest env fs repo commit file root = (tr, inl gz) ->
  flag.Bool_ fs "get-curl" = false /\
  os_Open env file = None /\ http_NewRequest env = None /\
  exists target,
    url.Parse (cfg_Endpoint env +:+ "/.api/lsif/upload") = inl target /\
    tr = [Open file;
          HTTPDo (mkRequest "POST"
                    (url.with_RawQuery target
                       (url.Encode (queryValues repo commit
                          (flag.String_ fs "github-token") root
                          (flag.String_ fs "indexerName"))))
                    (request_header env))].
Proof.
  unfold sendRequest. intros H.
  apply bind_inv_inl in H as (tr1 & target & tr2 & Ht & H & ->).
  destruct (flag.Bool_ fs "get-curl"); [discriminate |].
  apply bind_inv_inl in H as (t1 & ? & ? & H1 & H & ->).
  apply bind_inv_inl in H as (t2 & ? & ? & H2 & H & ->).
  apply bind_inv_inl in H as (t3 & ? & ? & H3 & H & ->).
  apply bind_inv_inl in H as (t4 & ? & ? & H4 & H & ->).
  cbn in H. injection H as <- _.
  unfold attempt in Ht. destruct (url.Parse _) as [target'|]; [| discriminate].
  injection Ht as <- <-.
  unfold attempt_err in H2, H3.
  destruct (os_Open env file); [discriminate |]. injection H2 as <- _.
  destruct (http_NewRequest env); [discriminate |]. injection H3 as <- _.
  cbn in H1, H4. injection H1 as <- _. injection H4 as <- _.
  repeat split. exists target'. split; reflexivity.
Qed.

Lemma prepare_stages (env : Env) (args : list string) (tr : list event)
    (repo : string) (openFlag : bool) (gz : compressor) :
  prepare env args = (tr, inl (repo, openFlag, gz)) ->
  exists tr0 fs commit file root0 root trs,
    contextUpToRoot env args = (tr0, inl (fs, repo, commit, file, root0)) /\
    sendRequest env fs repo commit file root = (trs, inl gz) /\
    tr = tr0 ++ Println ("Root: " +:+ root) :: trs /\
    openFlag = flag.Bool_ fs "open".
Proof.
  unfold prepare. intros H.
  apply bind_inv_inl in H
    as (tr0 & [[[[fs repo'] commit] file] root0] & tr1 & Hc & H & ->).
  apply bind_inv_inl in H as (tn & root & tr2 & Hn & H & ->).
  apply bind_inv_inl in H as (ts & gz' & tr3 & Hs & H & ->).
  cbn in H. inversion H; subst. clear H.
  apply normalizeRoot_accepts in Hn as (_ & -> & _).
  exists tr0, fs, commit, file, root0, root, ts.
  rewrite app_nil_r. auto.
Qed.

(** The run that sends a request, laid out. *)
Lemma handler_sends (env : Env) (args : list string) (req : Request) :
  HTTPDo req ∈ (handler env args).1 ->
  exists tr0 fs repo commit file root0 root target,
    contextUpToRoot env args = (tr0, inl (fs, repo, commit, file, root0)) /\
    flag.Bool_ fs "get-curl" = false /\
    url.Parse (cfg_Endpoint env +:+ "/.api/lsif/upload") = inl target /\
    req = mkRequest "POST"
            (url.with_RawQuery target
               (url.Encode (queryValues repo commit
                  (flag.String_ fs "github-token") root
                  (flag.String_ fs "indexerName"))))
            (request_header env) /\
    handler env args
    = (tr0 ++ [Println ("Root: " +:+ root); Open file; HTTPDo req] ++
       (afterRequest env repo (flag.Bool_ fs "open")
          (gzipReader (gzip_copy env))).1,
       (afterRequest env repo (flag.Bool_ fs "open")
          (gzipReader (gzip_copy env))).2).
Proof.
  intros Hin.
  destruct (handler_network _ _ _ Hin) as (tr & repo & openFlag & Hp).
  rewrite (handler_prepared _ _ _ _ _ _ Hp) in *. cbn [fst] in Hin.
  destruct (prepare_stages _ _ _ _ _ _ Hp)
    as (tr0 & fs & commit & file & root0 & root & trs & Hc & Hs & -> & ->).
  destruct (sendRequest_sent _ _ _ _ _ _ _ _ Hs)
    as (Hcurl & _ & _ & target & Ht & ->).
  exists tr0, fs, repo, commit, file, root0, root, target.
  repeat (split; [assumption |]).
  assert (Hreq : req = mkRequest "POST"
            (url.with_RawQuery target
               (url.Encode (queryValues repo commit
                  (flag.String_ fs "github-token") root
                  (flag.String_ fs "indexerName"))))
            (request_header env)).
  { apply elem_of_app in Hin as [Hin | Hin].
    - apply elem_of_app in Hin as [Hin | Hin].
      + pose proof (quiet_contextUpToRoot env args) as Hq. unfold avoids in Hq.
        rewrite Hc in Hq. specialize (Hq _ Hin). discriminate.
      + apply elem_of_cons in Hin as [Hin | Hin]; [discriminate |].
        apply elem_of_cons in Hin as [Hin | Hin]; [discriminate |].
        apply list_elem_of_singleton in Hin. now injection Hin as ->.
    - pose proof (quiet_afterRequest env repo (flag.Bool_ fs "open")
                    (gzipReader (gzip_copy env)) _ Hin).
      discriminate. }
  split; [exact Hreq |]. subst req. now rewrite <- app_assoc.
Qed.

(** X6.  Every request is a POST to the upload path of the endpoint, with
    the content type of an LSIF dump; it carries the access token of the
    configuration in an [Authorization] header exactly when the token is
    not empty, and no other header. *)
Theorem request_form (env : Env) (args : list string) (req : Request) :
  HTTPDo req ∈ (handler env args).1 ->
  Method req = "POST" /\
  (exists target,
     url.Parse (cfg_Endpoint env +:+ "/.api/lsif/upload") = inl target /\
     URL req = url.with_RawQuery target (url.RawQuery (URL req))) /\
  Header req
  = ("Content-Type", "application/x-ndjson+lsif") ::
    (if String.eqb (cfg_AccessToken env) ""
     then []
     else [("Authorization", "token " +:+ cfg_AccessToken env)]).
Proof.
  intros Hin.
  destruct (handler_sends _ _ _ Hin)
    as (tr0 & fs & repo & commit & file & root0 & root & target &
        _ & _ & Ht & -> & _).
  cbn [Method URL Header]. split; [reflexivity |]. split.
  - exists target. split; [assumption |]. now destruct target.
  - unfold request_header. now destruct (String.eqb (cfg_AccessToken env) "").
Qed.

Lemma request_form_witness :
  Method (sample_request sample_query) = "POST" /\
  Header (sample_request sample_query)
  = [("Content-Type", "application/x-ndjson+lsif")].
Proof.
  pose proof (request_form
                (sample_env sample_remote sample_head None (ok_response id_abc))
                [] (sample_request sample_query)) as H.
  assert (Hin : HTTPDo (sample_request sample_query)
                ∈ (handler (sample_env sample_remote sample_head None
                              (ok_response id_abc)) []).1).
  { vm_compute. repeat first [apply list_elem_of_here | apply list_elem_of_further]. }
  destruct (H Hin) as (Hm & _ & Hh). split; [exact Hm | exact Hh].
Defined.

(** X7.  With the switch that renders the request as a shell command, a
    run that has its context and a target URL prints the command for the
    file, the access token and the URL with its query string, and returns
    without an error: the file is not opened and no request is sent. *)
Theorem curl_mode_prints_command (env : Env) (args : list string)
    (tr0 trn : list event) (fs : flag.FlagSet)
    (repo commit file root0 root : string) (target : url.URL) :
  contextUpToRoot env args = (tr0, inl (fs, repo, commit, file, root0)) ->
  normalizeRoot root0 = (trn, inl root) ->
  url.Parse (cfg_Endpoint env +:+ "/.api/lsif/upload") = inl target ->
  flag.Bool_ fs "get-curl" = true ->
  handler env args
  = (tr0 ++ trn ++
     [PrintCurl file (cfg_AccessToken env)
        (url.with_RawQuery target
           (url.Encode (queryValues repo commit (flag.String_ fs "github-token")
                          root (flag.String_ fs "indexerName"))))],
     Return None).
Proof.
  intros Hc Hn Ht Hcurl. unfold handler, prepare. rewrite Hc. cbn [bind].
  rewrite Hn. unfold sendRequest. rewrite Ht, Hcurl. cbn.
  now rewrite ?app_nil_r.
Qed.

Lemma curl_mode_witness :
  (handler (sample_env sample_remote sample_head None (ok_response id_abc))
     ["-get-curl"]).2 = Return None /\
  no_network
    (handler (sample_env sample_remote sample_head None (ok_response id_abc))
       ["-get-curl"]).1.
Proof.
  pose proof (curl_mode_prints_command
    (sample_env sample_remote sample_head None (ok_response id_abc))
    ["-get-curl"]
    (contextUpToRoot (sample_env sample_remote sample_head None (ok_response id_abc))
       ["-get-curl"]).1
    [Println "Root: "]
    (flag.Parse flagSet ["-get-curl"]).1
    "github.com/gorilla/mux" "0123456789abcdef0123456789abcdef01234567"
    "./dump.lsif" "." ""
    (url.mkURL "https" "" None "sourcegraph.example.com" "/.api/lsif/upload" ""
       false "" "")
    eq_refl eq_refl eq_refl eq_refl) as H.
  rewrite H. split; [reflexivity |].
  cbn [fst]. intros e He.
  apply elem_of_app in He as [He | He].
  - exact (quiet_contextUpToRoot _ _ e He).
  - apply elem_of_cons in He as [-> | He]; [reflexivity |].
    apply list_elem_of_singleton in He. now subst e.
Defined.

(** X8.  A command line that the flag set rejects, other than a request
    for help, ends the run with status 2 before anything else is done. *)
Theorem flag_error_exits (env : Env) (args : list string) (fs : flag.FlagSet)
    (err : error) :
  flag.Parse flagSet args = (fs, Some err) ->
  is_ErrHelp err = false ->
  handler env args = ([], Exit 2).
Proof.
  intros Hp Hh. unfold handler, prepare, contextUpToRoot, parseFlags.
  rewrite Hp, Hh. reflexivity.
Qed.

Lemma flag_error_witness :
  handler (sample_env sample_remote sample_head None (ok_response id_abc))
    ["-nope"] = ([], Exit 2).
Proof.
  exact (flag_error_exits
           (sample_env sample_remote sample_head None (ok_response id_abc))
           ["-nope"] (flag.Parse flagSet ["-nope"]).1
           (errorString "flag provided but not defined: -nope")
           eq_refl eq_refl).
Defined.

Lemma avoids_contextUpToRoot_browser (env : Env) (args : list string) :
  avoids is_browser (contextUpToRoot env args).
Proof.
  assert (Ht : tracked is_browser) by (right; now right).
  unfold contextUpToRoot.
  apply avoids_bind; [apply avoids_parseFlags | intros fs].
  apply avoids_bind; [now apply avoids_resolveRepository | intros repo].
  apply avoids_bind; [now apply avoids_resolveCommit | intros commit].
  apply avoids_bind; [now apply avoids_checkFile | intros file].
  apply avoids_bind; [| intros root; apply avoids_ret].
  unfold givenRoot. avoid_tac; now apply avoids_checkError.
Qed.

Lemma interpret_accepted (env : Env) (repo : string) (openFlag : bool)
    (resp : Response) (body ID : string) :
  200 <= StatusCode resp < 300 ->
  json.Unmarshal body = inl ID ->
  run (interpretResponse env repo openFlag resp body)
  = (success_lines (status_page (cfg_Endpoint env) repo ID) ++
     (if openFlag then [OpenURL (status_page (cfg_Endpoint env) repo ID)] else []),
     Return (if openFlag
             then browser_OpenURL env (status_page (cfg_Endpoint env) repo ID)
             else None)).
Proof.
  intros Hs HU. unfold interpretResponse.
  replace (StatusCode resp <? 200) with false by (symmetry; apply Z.ltb_ge; lia).
  replace (300 <=? StatusCode resp) with false by (symmetry; apply Z.leb_gt; lia).
  cbn [orb]. rewrite HU. cbn [attempt bind ret].
  change (uploadURL (cfg_Endpoint env) repo ID)
    with (status_page (cfg_Endpoint env) repo ID).
  destruct openFlag; cbn; [| reflexivity].
  now destruct (browser_OpenURL env _).
Qed.

Lemma afterRequest_ok (env : Env) (repo : string) (openFlag : bool)
    (resp : Response) (body : string) :
  http_Do env = inl resp -> gzip_copy env = None -> Body resp = inl body ->
  afterRequest env repo openFlag (gzipReader (gzip_copy env))
  = run (interpretResponse env repo openFlag resp body).
Proof.
  intros Hdo Hgz Hb. unfold afterRequest.
  rewrite (awaitResponse_ok _ _ _ Hdo Hgz Hb). cbn [bind].
  now destruct (interpretResponse env repo openFlag resp body) as [tr [o | o]].
Qed.

(** X9.  After a successful upload the status page is opened in the
    browser exactly when the [open] flag is set; the result of the run is
    then the result of the launch. *)
Theorem open_flag_launches_browser (env : Env) (args : list string)
    (req : Request) (resp : Response) (body ID : string) :
  HTTPDo req ∈ (handler env args).1 ->
  http_Do env = inl resp -> gzip_copy env = None -> Body resp = inl body ->
  200 <= StatusCode resp < 300 ->
  json.Unmarshal body = inl ID ->
  exists fs repo,
    flag.Parse flagSet args = (fs, None) /\
    Println ("Repository: " +:+ repo) ∈ (handler env args).1 /\
    if flag.Bool_ fs "open"
    then OpenURL (status_page (cfg_Endpoint env) repo ID) ∈ (handler env args).1 /\
         (handler env args).2
         = Return (browser_OpenURL env (status_page (cfg_Endpoint env) repo ID))
    else absent is_browser (handler env args).1 /\
         (handler env args).2 = Return None.
Proof.
  intros Hin Hdo Hgz Hb Hs HU.
  destruct (handler_sends _ _ _ Hin)
    as (tr0 & fs & repo & commit & file & root0 & root & target &
        Hc & _ & _ & _ & ->).
  destruct (contextUpToRoot_inv _ _ _ _ _ _ _ _ Hc) as (Hparse & _).
  exists fs, repo. split; [assumption |].
  split.
  { apply elem_of_app. left. eapply contextUpToRoot_prints_repo; eassumption. }
  rewrite (afterRequest_ok _ _ _ _ _ Hdo Hgz Hb).
  rewrite (interpret_accepted _ _ _ _ _ _ Hs HU). cbn [fst snd].
  destruct (flag.Bool_ fs "open").
  - split; [| reflexivity].
    apply elem_of_app. right. apply elem_of_app. right.
    apply elem_of_app. right. constructor.
  - split; [| reflexivity]. rewrite app_nil_r.
    intros e He. apply elem_of_app in He as [He | He].
    + pose proof (avoids_contextUpToRoot_browser env args) as Hq.
      unfold avoids in Hq. rewrite Hc in Hq. exact (Hq _ He).
    + apply elem_of_app in He as [He | He];
        repeat (apply elem_of_cons in He as [-> | He]; [reflexivity |]);
        now apply elem_of_nil in He.
Qed.

Lemma open_flag_witness :
  OpenURL (status_page "https://sourcegraph.example.com" "github.com/gorilla/mux" "abc")
    ∈ (handler (sample_env sample_remote sample_head None (ok_response id_abc))
         ["-open"]).1.
Proof.
  destruct (open_flag_launches_browser
              (sample_env sample_remote sample_head None (ok_response id_abc))
              ["-open"] (sample_request sample_query)
              (mkResponse 200 "200 OK" (inl id_abc)) id_abc "abc")
    as (fs & repo & _ & _ & _).
  - vm_compute. repeat first [apply list_elem_of_here | apply list_elem_of_further].
  - reflexivity.
  - reflexivity.
  - reflexivity.
  - cbn. lia.
  - reflexivity.
  - vm_compute. repeat first [apply list_elem_of_here | apply list_elem_of_further].
Defined.

(** X10.  [isFlagSet] tells whether the flag was set on the command line:
    it is true exactly for the names among the flags that the parse has
    set. *)
Theorem isFlagSet_set_flags (fs : flag.FlagSet) (name : string) :
  isFlagSet fs name = true <-> name ∈ flag.actual fs.
Proof. apply isFlagSet_spec. Qed.


(** ** The keys that select the [ID] field *)

Lemma fold_byte (b c : ascii) :
  is_lower b = true ->
  (Z.land (byteZ b) json.caseMask =? Z.land (byteZ c) json.caseMask) = true ->
  c = b \/ c = byte_of_Z (byteZ b - 32).
Proof.
  destruct b as [[] [] [] [] [] [] [] []]; try (intros H; discriminate H); intros _;
    destruct c as [[] [] [] [] [] [] [] []]; intros H;
    first [discriminate H | now left | now right].
Qed.

(** The keys of an object that decode into the field are [id] in its four
    spellings. *)
Lemma is_id_key_spec (key : string) :
  json.is_id_key key = true <-> key ∈ ["id"; "iD"; "Id"; "ID"].
Proof.
  split.
  - unfold json.is_id_key. intros H. apply orb_true_iff in H as [H | H].
    { apply String.eqb_eq in H as ->. constructor. }
    destruct key as [|a [|b r]]; cbn [json.simpleLetterEqualFold] in H;
      rewrite ?andb_false_r in H; try discriminate H.
    apply andb_true_iff in H as [Ha Hb]. apply andb_true_iff in Hb as [Hb Hr].
    destruct r; [| discriminate Hr].
    apply (fold_byte "i" a eq_refl) in Ha. apply (fold_byte "d" b eq_refl) in Hb.
    destruct Ha as [-> | ->], Hb as [-> | ->]; vm_compute;
      repeat first [apply list_elem_of_here | apply list_elem_of_further].
  - intros H.
    repeat (apply elem_of_cons in H as [-> | H]; [reflexivity |]).
    now apply elem_of_nil in H.
Qed.


(** ** What a run does, and in which order *)

(** Unfold the stages of the handler down to the events. *)
Ltac unfold_stages :=
  unfold prepare, contextUpToRoot, parseFlags, resolveRepository,
    resolveCommit, checkFile, givenRoot, checkError, normalizeRoot, sendRequest,
    awaitResponse, interpretResponse, attempt, attempt_err, println, os_Exit, return_.

Lemma only_git_stages (env : Env) (args : list string) :
  avoids is_other_command (prepare env args) /\
  (forall gz, avoids is_other_command (awaitResponse env gz)) /\
  (forall repo openFlag resp body,
     avoids is_other_command (interpretResponse env repo openFlag resp body)).
Proof.
  split; [| split; intros]; unfold_stages; avoid_tac.
Qed.

Lemma commands_app (tr1 tr2 : list event) :
  commands (tr1 ++ tr2) = commands tr1 ++ commands tr2.
Proof. apply omap_app. Qed.

Lemma commands_bind {A B} (m : M A) (k : A -> M B) (qs1 qs2 : list (list string)) :
  sublist (commands m.1) qs1 ->
  (forall a, sublist (commands (k a).1) qs2) ->
  sublist (commands (bind m k).1) (qs1 ++ qs2).
Proof.
  intros Hm Hk. rewrite bind_trace, commands_app. apply sublist_app; [exact Hm |].
  destruct m.2 as [a | o]; [apply Hk | apply sublist_nil_l].
Qed.

Lemma commands_bind_none {A B} (m : M A) (k : A -> M B) (qs : list (list string)) :
  commands m.1 = [] ->
  (forall a, sublist (commands (k a).1) qs) ->
  sublist (commands (bind m k).1) qs.
Proof.
  intros Hm Hk. rewrite bind_trace, commands_app, Hm. cbn [app].
  destruct m.2 as [a | o]; [apply Hk | apply sublist_nil_l].
Qed.

Lemma commands_println {B} (line : string) (k : unit -> M B) (qs : list (list string)) :
  sublist (commands (k tt).1) qs ->
  sublist (commands (bind (println line) k).1) qs.
Proof. intros H. apply commands_bind_none; [reflexivity | now intros []]. Qed.

Lemma commands_checkError {A} (r : result A) : commands (checkError r).1 = [].
Proof. now destruct r. Qed.

Lemma commands_resolveRepository (env : Env) (fs : flag.FlagSet) :
  sublist (commands (resolveRepository env fs).1) [["git"; "remote"; "get-url"; "origin"]].
Proof.
  unfold resolveRepository.
  apply (commands_bind _ _ [_] []); [| intros repo; apply sublist_nil_l].
  destruct (String.eqb _ _); [| apply sublist_nil_l].
  apply (commands_bind _ _ [_] []); [reflexivity | intros _].
  destruct (git_remote_get_url env) as [out | err]; [| apply sublist_nil_l].
  destruct (parseRemoteURL _); apply sublist_nil_l.
Qed.

Lemma commands_resolveCommit (env : Env) (fs : flag.FlagSet) :
  sublist (commands (resolveCommit env fs).1) [["git"; "rev-parse"; "HEAD"]].
Proof.
  unfold resolveCommit.
  apply (commands_bind _ _ [_] []); [| intros commit; apply sublist_nil_l].
  destruct (String.eqb _ _); [| apply sublist_nil_l].
  apply (commands_bind _ _ [_] []); [reflexivity | intros _].
  destruct (git_rev_parse_HEAD env); apply sublist_nil_l.
Qed.

Lemma commands_checkFile (env : Env) (fs : flag.FlagSet) :
  commands (checkFile env fs).1 = [].
Proof. unfold checkFile. cbn. now destruct (os_Stat_IsNotExist env _). Qed.

Lemma commands_givenRoot (env : Env) (fs : flag.FlagSet) (file : string) :
  sublist (commands (givenRoot env fs file).1) [["git"; "rev-parse"; "--show-toplevel"]].
Proof.
  unfold givenRoot. destruct (negb _); [| apply sublist_nil_l].
  apply (commands_bind _ _ [_] []); [reflexivity | intros _].
  apply commands_bind_none; [apply commands_checkError | intros topLevel].
  apply commands_bind_none; [apply commands_checkError | intros absFile].
  apply commands_bind_none; [apply commands_checkError | intros rel].
  apply sublist_nil_l.
Qed.

Lemma commands_contextUpToRoot (env : Env) (args : list string) :
  sublist (commands (contextUpToRoot env args).1) git_queries.
Proof.
  unfold contextUpToRoot.
  apply commands_bind_none.
  { unfold parseFlags. destruct (flag.Parse flagSet args) as [fs [err|]]; reflexivity. }
  intros fs.
  apply (commands_bind _ _ [_] [_; _]); [apply commands_resolveRepository | intros repo].
  apply (commands_bind _ _ [_] [_]); [apply commands_resolveCommit | intros commit].
  apply commands_bind_none; [apply commands_checkFile | intros file].
  apply (commands_bind _ _ [_] []); [apply commands_givenRoot | intros root].
  apply sublist_nil_l.
Qed.

Lemma commands_none (tr : list event) :
  (forall command, Exec command ∉ tr) -> commands tr = [].
Proof.
  induction tr as [|e tr IH]; intros H; [reflexivity |].
  assert (Htr : commands tr = [])
    by (apply IH; intros c Hc; apply (H c); now apply list_elem_of_further).
  change (e :: tr) with ([e] ++ tr). rewrite commands_app, Htr, app_nil_r.
  destruct e; try reflexivity. exfalso. apply (H command). constructor.
Qed.

Lemma no_command_after_root (env : Env) :
  (forall root, commands (normalizeRoot root).1 = []) /\
  (forall fs repo commit file root,
     commands (sendRequest env fs repo commit file root).1 = []) /\
  (forall gz, commands (awaitResponse env gz).1 = []) /\
  (forall repo openFlag resp body,
     commands (interpretResponse env repo openFlag resp body).1 = []).
Proof.
  assert (Hq : forall {A} (m : M A),
            avoids (fun e => match e with Exec _ => true | _ => false end) m ->
            commands m.1 = []).
  { intros A m H. apply commands_none. intros c Hc. specialize (H _ Hc). discriminate. }
  repeat split; intros; apply Hq; unfold_stages; avoid_tac.
Qed.

Lemma run_trace (m : M outcome) : (run m).1 = m.1.
Proof. now destruct m as [tr [o | o]]. Qed.

Lemma commands_elem (tr : list event) (command : list string) :
  Exec command ∈ tr <-> command ∈ commands tr.
Proof.
  unfold commands. rewrite list_elem_of_omap. split.
  - intros H. exists (Exec command). auto.
  - intros (e & He & Hc). destruct e; try discriminate. now injection Hc as ->.
Qed.

(** X13.  A run executes no other command than the three queries to git
    (the origin remote, the commit checked out, the top level of the
    repository), each at most once and in this order. *)
Theorem git_queries_in_order (env : Env) (args : list string) :
  sublist (commands (handler env args).1) git_queries /\
  forall command, Exec command ∈ (handler env args).1 -> command ∈ git_queries.
Proof.
  assert (H : sublist (commands (handler env args).1) git_queries).
  { destruct (no_command_after_root env) as (Hn & Hs & Ha & Hi).
    unfold handler. rewrite run_trace.
    rewrite <- (app_nil_r git_queries). apply commands_bind.
    - unfold prepare. rewrite <- (app_nil_r git_queries). apply commands_bind.
      + apply commands_contextUpToRoot.
      + intros [[[[fs repo] commit] file] root0].
        apply commands_bind_none; [apply Hn | intros root].
        apply commands_bind_none; [apply Hs | intros gz].
        apply sublist_nil_l.
    - intros [[repo openFlag] gz].
      apply commands_bind_none; [apply Ha | intros [resp body]].
      rewrite Hi. apply sublist_nil_l. }
  split; [exact H |].
  intros command Hin. apply commands_elem in Hin.
  eapply elem_of_sublist; eassumption.
Qed.

(** *** How a run ends *)


Lemma println_goes_on (line : string) (tr : list event) (o : outcome) :
  println line <> (tr, inr o).
Proof. discriminate. Qed.











(** X15.  A run sends at most one request: the requests of a run that
    sent [req] are [req] alone. *)
Theorem at_most_one_request (env : Env) (args : list string) :
  (length (requests (handler env args).1) <= 1)%nat /\
  forall req, HTTPDo req ∈ (handler env args).1 ->
    requests (handler env args).1 = [HTTPDo req].
Proof.
  assert (Hnone : forall tr, no_network tr -> requests tr = []).
  { induction tr as [|e tr IH]; intros H; [reflexivity |].
    unfold requests. cbn [List.filter].
    rewrite (H e) by constructor. apply IH.
    intros e' He'. apply H. now constructor. }
  assert (Hsent : forall req, HTTPDo req ∈ (handler env args).1 ->
            requests (handler env args).1 = [HTTPDo req]).
  { intros req Hin.
    destruct (handler_sends _ _ _ Hin)
      as (tr0 & fs & repo & commit & file & root0 & root & target &
          Hc & _ & _ & _ & ->).
    cbn [fst]. unfold requests. rewrite !List.filter_app.
    fold (requests tr0).
    fold (requests (afterRequest env repo (flag.Bool_ fs "open")
                      (gzipReader (gzip_copy env))).1).
    rewrite (Hnone tr0), (Hnone _ (quiet_afterRequest _ _ _ _)); [reflexivity |].
    pose proof (quiet_contextUpToRoot env args) as Hq. unfold avoids in Hq.
    now rewrite Hc in Hq. }
  split; [| exact Hsent].
  destruct (requests (handler env args).1) as [|e tr] eqn:E; [cbn; lia |].
  assert (He : e ∈ List.filter is_network (handler env args).1)
    by (fold (requests (handler env args).1); rewrite E; constructor).
  apply list_elem_of_In, List.filter_In in He as [He Hnet].
  destruct e; try discriminate.
  specialize (Hsent req (proj2 (list_elem_of_In _ _) He)).
  injection Hsent as ->. cbn. lia.
Qed.

Lemma checkFile_inv (env : Env) (fs : flag.FlagSet) (tr : list event) (file : string) :
  checkFile env fs = (tr, inl file) ->
  file = flag.String_ fs "file" /\ os_Stat_IsNotExist env file = false /\
  tr = [Stat file; Println ("File: " +:+ file)].
Proof.
  unfold checkFile. cbn.
  destruct (os_Stat_IsNotExist env (flag.String_ fs "file")) eqn:E; [discriminate |].
  cbn. intros [= <- <-]. auto.
Qed.

Lemma contextUpToRoot_file (env : Env) (args : list string) (tr : list event)
    (fs : flag.FlagSet) (repo commit file root0 : string) :
  contextUpToRoot env args = (tr, inl (fs, repo, commit, file, root0)) ->
  file = flag.String_ fs "file" /\ os_Stat_IsNotExist env file = false /\
  Stat file ∈ tr.
Proof.
  unfold contextUpToRoot. intros H.
  apply bind_inv_inl in H as (t0 & fs0 & ? & _ & H & ->).
  apply bind_inv_inl in H as (t1 & repo0 & ? & _ & H & ->).
  apply bind_inv_inl in H as (t2 & commit0 & ? & _ & H & ->).
  apply bind_inv_inl in H as (t3 & file0 & ? & Hf & H & ->).
  apply bind_inv_inl in H as (t4 & root & ? & _ & H & ->).
  cbn in H. inversion H; subst. clear H.
  apply checkFile_inv in Hf as (Hfile & Hstat & ->).
  split; [assumption |]. split; [assumption |].
  do 3 (apply elem_of_app; right). apply elem_of_app; left. constructor.
Qed.

Lemma prepare_root (env : Env) (args : list string) (tr : list event)
    (repo : string) (openFlag : bool) (gz : compressor) :
  prepare env args = (tr, inl (repo, openFlag, gz)) ->
  exists tr0 fs commit file root0 root trs,
    contextUpToRoot env args = (tr0, inl (fs, repo, commit, file, root0)) /\
    normalizeRoot root0 = ([Println ("Root: " +:+ root)], inl root) /\
    sendRequest env fs repo commit file root = (trs, inl gz) /\
    tr = tr0 ++ Println ("Root: " +:+ root) :: trs.
Proof.
  unfold prepare. intros H.
  apply bind_inv_inl in H
    as (tr0 & [[[[fs repo'] commit] file] root0] & tr1 & Hc & H & ->).
  apply bind_inv_inl in H as (tn & root & tr2 & Hn & H & ->).
  apply bind_inv_inl in H as (ts & gz' & tr3 & Hs & H & ->).
  cbn in H. inversion H; subst. clear H.
  pose proof (normalizeRoot_accepts _ _ _ Hn) as (_ & -> & _).
  exists tr0, fs, commit, file, root0, root, ts.
  rewrite app_nil_r. auto.
Qed.

(** X16.  A request is sent only in a run whose command line was accepted
    without the curl switch, whose dump file (the value of the [file]
    flag) was found and then opened, and whose root passed the check; the
    file is opened right before the request is sent. *)
Theorem request_preconditions (env : Env) (args : list string) (req : Request) :
  HTTPDo req ∈ (handler env args).1 ->
  exists fs root tr0 after,
    flag.Parse flagSet args = (fs, None) /\
    flag.Bool_ fs "get-curl" = false /\
    os_Stat_IsNotExist env (flag.String_ fs "file") = false /\
    os_Open env (flag.String_ fs "file") = None /\
    strings.HasPrefix root ".." = false /\
    Stat (flag.String_ fs "file") ∈ tr0 /\
    no_network tr0 /\ no_network after /\
    (handler env args).1
    = tr0 ++ [Println ("Root: " +:+ root); Open (flag.String_ fs "file"); HTTPDo req]
      ++ after.
Proof.
  intros Hin.
  destruct (handler_network _ _ _ Hin) as (tr & repo & openFlag & Hp).
  rewrite (handler_prepared _ _ _ _ _ _ Hp) in *. cbn [fst] in *.
  destruct (prepare_root _ _ _ _ _ _ Hp)
    as (tr0 & fs & commit & file & root0 & root & trs & Hc & Hn & Hs & ->).
  destruct (sendRequest_sent _ _ _ _ _ _ _ _ Hs)
    as (Hcurl & Hopen & _ & target & Ht & ->).
  destruct (contextUpToRoot_inv _ _ _ _ _ _ _ _ Hc) as (Hparse & _).
  destruct (contextUpToRoot_file _ _ _ _ _ _ _ _ Hc) as (-> & Hstat & Hst).
  pose proof (quiet_contextUpToRoot env args) as Hq. unfold avoids in Hq.
  rewrite Hc in Hq. cbn [fst] in Hq.
  pose proof (quiet_afterRequest env repo openFlag (gzipReader (gzip_copy env))) as Ha.
  exists fs, root, tr0, (afterRequest env repo openFlag (gzipReader (gzip_copy env))).1.
  repeat (split; [assumption |]).
  split; [eapply normalized_not_dotdot; eassumption |].
  repeat (split; [assumption |]).
  apply elem_of_app in Hin as [Hin | Hin].
  - apply elem_of_app in Hin as [Hin | Hin].
    + specialize (Hq _ Hin). discriminate.
    + apply elem_of_cons in Hin as [Hin | Hin]; [discriminate |].
      apply elem_of_cons in Hin as [Hin | Hin]; [discriminate |].
      apply list_elem_of_singleton in Hin. injection Hin as ->.
      now rewrite <- app_assoc.
  - specialize (Ha _ Hin). discriminate.
Qed.

Lemma git_queries_witness :
  ["git"; "rev-parse"; "HEAD"] ∈ git_queries.
Proof.
  apply (proj2 (git_queries_in_order
                  (sample_env sample_remote sample_head None (ok_response id_abc)) [])).
  vm_compute. repeat first [apply list_elem_of_here | apply list_elem_of_further].
Defined.


Lemma at_most_one_request_witness :
  requests (handler (sample_env sample_remote sample_head None (ok_response id_abc)) []).1
  = [HTTPDo (sample_request sample_query)].
Proof.
  apply (proj2 (at_most_one_request
                  (sample_env sample_remote sample_head None (ok_response id_abc)) [])).
  vm_compute. repeat first [apply list_elem_of_here | apply list_elem_of_further].
Defined.

Lemma request_preconditions_witness :
  exists fs root,
    flag.Parse flagSet [] = (fs, None) /\ strings.HasPrefix root ".." = false.
Proof.
  destruct (request_preconditions
              (sample_env sample_remote sample_head None (ok_response id_abc)) []
              (sample_request sample_query))
    as (fs & root & tr0 & after & Hp & _ & _ & _ & Hr & _).
  - vm_compute. repeat first [apply list_elem_of_here | apply list_elem_of_further].
  - exists fs, root. split; assumption.
Defined.


(** ** Arguments that are not flags *)

Lemma Parse_positional (f : flag.FlagSet) (arg : string) (rest : list string) :
  flag_shaped arg = false ->
  flag.Parse f (arg :: rest)
  = (flag.mkFlagSet (flag.formal f) (flag.actual f) (arg :: rest), None).
Proof.
  intros H. unfold flag.Parse. cbn [length flag.parse_loop].
  unfold flag.parseOne. cbn [flag.args].
  destruct arg as [|c0 [|c1 s2]]; try reflexivity.
  cbn [flag_shaped] in H. now rewrite H.
Qed.

Lemma Parse_terminator (f : flag.FlagSet) (rest : list string) :
  flag.Parse f ("--" :: rest)
  = (flag.mkFlagSet (flag.formal f) (flag.actual f) rest, None).
Proof. reflexivity. Qed.

(** The handler reads the flags and never the arguments left over. *)
Lemma handler_of_flags (env : Env) (args1 args2 : list string)
    (rest1 rest2 : list string) (formal : gmap string flag.Value)
    (actual : gset string) :
  flag.Parse flagSet args1 = (flag.mkFlagSet formal actual rest1, None) ->
  flag.Parse flagSet args2 = (flag.mkFlagSet formal actual rest2, None) ->
  handler env args1 = handler env args2.
Proof.
  intros H1 H2. unfold handler, prepare, contextUpToRoot.
  rewrite (parseFlags_ok _ _ H1), (parseFlags_ok _ _ H2), !bind_ret.
  set (fs1 := flag.mkFlagSet formal actual rest1).
  set (fs2 := flag.mkFlagSet formal actual rest2).
  change (resolveRepository env fs1) with (resolveRepository env fs2).
  destruct (resolveRepository env fs2) as [t1 [repo | o]]; [| reflexivity].
  cbn [bind].
  change (resolveCommit env fs1) with (resolveCommit env fs2).
  destruct (resolveCommit env fs2) as [t2 [commit | o]]; [| reflexivity].
  cbn [bind].
  change (checkFile env fs1) with (checkFile env fs2).
  destruct (checkFile env fs2) as [t3 [file | o]]; [| reflexivity].
  cbn [bind].
  change (givenRoot env fs1 file) with (givenRoot env fs2 file).
  destruct (givenRoot env fs2 file) as [t4 [root0 | o]]; [| reflexivity].
  cbn [bind ret].
  destruct (normalizeRoot root0) as [t5 [root | o]]; [| reflexivity].
  cbn [bind].
  change (sendRequest env fs1 repo commit file root)
    with (sendRequest env fs2 repo commit file root).
  reflexivity.
Qed.

(** X17.  Flag parsing stops at the first argument that is not shaped
    like a flag, and at [--]: what follows, flags included, has no effect
    on the run. *)
Theorem flags_after_positional_ignored (env : Env) (arg : string)
    (rest : list string) :
  flag_shaped arg = false \/ arg = "--" ->
  handler env (arg :: rest) = handler env [].
Proof.
  intros [H | ->].
  - eapply handler_of_flags; [now apply Parse_positional | reflexivity].
  - eapply handler_of_flags; [apply Parse_terminator | reflexivity].
Qed.

Lemma flags_after_positional_witness :
  handler (sample_env sample_remote sample_head None (ok_response id_abc))
    ["dump.lsif"; "-root=.."; "-nope"]
  = handler (sample_env sample_remote sample_head None (ok_response id_abc)) [].
Proof.
  apply flags_after_positional_ignored. left. reflexivity.
Defined.


(** ** Failures of the environment *)

(** X18.  When no commit is given on the command line and git cannot tell
    the commit checked out, the run prints the failure of git and the two
    lines of advice and exits with status 1, after the repository line. *)
Theorem git_head_failure_exits (env : Env) (args : list string)
    (fs : flag.FlagSet) (tr1 : list event) (repo : string) (err : error) :
  flag.Parse flagSet args = (fs, None) ->
  resolveRepository env fs = (tr1, inl repo) ->
  flag.String_ fs "commit" = "" ->
  git_rev_parse_HEAD env = inr err ->
  handler env args
  = (tr1 ++
     [Exec ["git"; "rev-parse"; "HEAD"];
      Println ("Failed to invoke git: " +:+ Error err);
      Println "Unable to detect commit from environment.";
      Println "Either cd into a git repository or set -commit explicitly."],
     Exit 1).
Proof.
  intros Hp Hr Hc Hg. unfold handler, prepare, contextUpToRoot.
  rewrite (parseFlags_ok _ _ Hp), bind_ret, Hr. cbn [bind].
  unfold resolveCommit. rewrite Hc, Hg. reflexivity.
Qed.

Lemma git_head_failure_witness :
  handler (sample_env sample_remote (inr (external "exit status 128")) None
             (ok_response id_abc)) []
  = ([Exec ["git"; "remote"; "get-url"; "origin"];
      Println "Repository: github.com/gorilla/mux";
      Exec ["git"; "rev-parse"; "HEAD"];
      Println "Failed to invoke git: exit status 128";
      Println "Unable to detect commit from environment.";
      Println "Either cd into a git repository or set -commit explicitly."],
     Exit 1).
Proof.
  exact (git_head_failure_exits
           (sample_env sample_remote (inr (external "exit status 128")) None
              (ok_response id_abc))
           [] (flag.Parse flagSet []).1
           [Exec ["git"; "remote"; "get-url"; "origin"];
            Println "Repository: github.com/gorilla/mux"]
           "github.com/gorilla/mux" (external "exit status 128")
           eq_refl eq_refl eq_refl eq_refl).
Defined.

Lemma givenRoot_derives (env : Env) (fs : flag.FlagSet) (file : string) :
  isFlagSet fs "root" = false ->
  givenRoot env fs file
  = match relative_file env file with
    | inl rel => ([git_toplevel], inl (filepath.Dir rel))
    | inr err =>
      ([git_toplevel; Println (Error err);
        Println "Unable to detect root of LSIF dump from environment.";
        Println "Either cd into a git repository or set -root explicitly."],
       inr (Exit 1))
    end.
Proof.
  intros H. unfold givenRoot, relative_file. rewrite H. cbn [negb].
  destruct (git_show_toplevel env) as [top | e]; [| reflexivity].
  cbn [bind_result]. destruct (filepath_Abs env file) as [abs | e]; [| reflexivity].
  cbn [bind_result bind emit checkError ret].
  destruct (filepath_Rel env (strings.TrimSpace top) abs); reflexivity.
Qed.

(** X19.  Without the [root] flag the root is the directory of the dump
    file relative to the top level of the repository, as git, [Abs] and
    [Rel] give it; the first of the three that fails ends the run with
    its error, the two lines of advice and status 1. *)
Theorem derived_root (env : Env) (args : list string) (fs : flag.FlagSet)
    (tr1 tr2 tr3 : list event) (repo commit file : string) :
  flag.Parse flagSet args = (fs, None) ->
  resolveRepository env fs = (tr1, inl repo) ->
  resolveCommit env fs = (tr2, inl commit) ->
  checkFile env fs = (tr3, inl file) ->
  isFlagSet fs "root" = false ->
  match relative_file env file with
  | inl rel =>
    contextUpToRoot env args
    = (tr1 ++ tr2 ++ tr3 ++ [git_toplevel],
       inl (fs, repo, commit, file, filepath.Dir rel))
  | inr err =>
    handler env args
    = (tr1 ++ tr2 ++ tr3 ++
       [git_toplevel; Println (Error err);
        Println "Unable to detect root of LSIF dump from environment.";
        Println "Either cd into a git repository or set -root explicitly."],
       Exit 1)
  end.
Proof.
  intros Hp Hr Hc Hf Hroot.
  pose proof (givenRoot_derives env fs file Hroot) as Hg.
  unfold handler, prepare, contextUpToRoot.
  rewrite (parseFlags_ok _ _ Hp), bind_ret, Hr. cbn [bind].
  rewrite Hc. cbn [bind]. rewrite Hf. cbn [bind]. rewrite Hg.
  destruct (relative_file env file) as [rel | err]; cbn;
    now rewrite <- ?app_assoc, ?app_nil_r.
Qed.

Lemma derived_root_witness :
  contextUpToRoot (sample_env sample_remote sample_head None (ok_response id_abc)) []
  = ([Exec ["git"; "remote"; "get-url"; "origin"];
      Println "Repository: github.com/gorilla/mux";
      Exec ["git"; "rev-parse"; "HEAD"];
      Println "Commit: 0123456789abcdef0123456789abcdef01234567";
      Stat "./dump.lsif"; Println "File: ./dump.lsif"; git_toplevel],
     inl ((flag.Parse flagSet []).1, "github.com/gorilla/mux",
          "0123456789abcdef0123456789abcdef01234567", "./dump.lsif", ".")).
Proof.
  exact (derived_root
           (sample_env sample_remote sample_head None (ok_response id_abc))
           [] (flag.Parse flagSet []).1
           [Exec ["git"; "remote"; "get-url"; "origin"];
            Println "Repository: github.com/gorilla/mux"]
           [Exec ["git"; "rev-parse"; "HEAD"];
            Println "Commit: 0123456789abcdef0123456789abcdef01234567"]
           [Stat "./dump.lsif"; Println "File: ./dump.lsif"]
           "github.com/gorilla/mux" "0123456789abcdef0123456789abcdef01234567"
           "./dump.lsif" eq_refl eq_refl eq_refl eq_refl eq_refl).
Defined.

(** X20.  When the request was sent and answered and the compressor
    signalled no error, an error of reading the body of the response is
    what the handler returns, whatever the status. *)
Theorem body_read_error_returned (env : Env) (args : list string)
    (req : Request) (resp : Response) (err : error) :
  HTTPDo req ∈ (handler env args).1 ->
  http_Do env = inl resp -> gzip_copy env = None -> Body resp = inr err ->
  (handler env args).2 = Return (Some err).
Proof.
  intros Hin Hdo Hgz Hb.
  destruct (handler_network _ _ _ Hin) as (tr & repo & openFlag & Hp).
  rewrite (handler_prepared _ _ _ _ _ _ Hp). unfold afterRequest, awaitResponse.
  rewrite Hgz, (exchange_copied _ _ Hdo). cbn. now rewrite Hb.
Qed.

Lemma body_read_error_witness :
  (handler (sample_env sample_remote sample_head None
              (inl (mkResponse 200 "200 OK" (inr (external "unexpected EOF"))))) []).2
  = Return (Some (external "unexpected EOF")).
Proof.
  refine (body_read_error_returned
            (sample_env sample_remote sample_head None
               (inl (mkResponse 200 "200 OK" (inr (external "unexpected EOF")))))
            [] (sample_request sample_query)
            (mkResponse 200 "200 OK" (inr (external "unexpected EOF")))
            (external "unexpected EOF") _ eq_refl eq_refl eq_refl).
  vm_compute. repeat first [apply list_elem_of_here | apply list_elem_of_further].
Defined.


(** ** The output of git, trimmed *)

Lemma snoc_decomp (c : ascii) (s : string) :
  exists s' c', String c s = s' +:+ String c' "".
Proof.
  revert c. induction s as [|d s IH]; intros c.
  - now exists "", c.
  - destruct (IH d) as (s' & c' & ->). now exists (String c s'), c'.
Qed.

Lemma string_rev_ind (P : string -> Prop) :
  P "" -> (forall s c, P s -> P (s +:+ String c "")) -> forall s, P s.
Proof.
  intros Hnil Hsnoc s. remember (len s) as n eqn:Hn. revert s Hn.
  induction n as [|n IH]; intros s Hn.
  - destruct s; [exact Hnil | discriminate].
  - destruct s as [|c s]; [discriminate |].
    destruct (snoc_decomp c s) as (s' & c' & E). rewrite E in *.
    apply Hsnoc, IH. rewrite len_app in Hn. cbn in Hn. lia.
Qed.

Lemma get_app_here (a : string) (c : ascii) (b : string) :
  String.get (len a) (a +:+ String c b) = Some c.
Proof. unfold len. induction a as [|d a IH]; [reflexivity | exact IH]. Qed.

Lemma asciiSpace_ascii (c : ascii) :
  strings.asciiSpace c = true -> (utf8.RuneSelf <=? byteZ c) = false.
Proof.
  destruct c as [[] [] [] [] [] [] [] []]; intros H;
    first [discriminate H | reflexivity].
Qed.

Lemma TrimSpace_start_spaces (ws t : string) :
  all_bytes strings.asciiSpace ws = true ->
  strings.TrimSpace_start (ws +:+ t) = strings.TrimSpace_start t.
Proof.
  induction ws as [|c ws IH]; intros H; [reflexivity |].
  cbn [all_bytes] in H. apply andb_true_iff in H as [Hc Hws].
  cbn [String.append strings.TrimSpace_start].
  rewrite (asciiSpace_ascii c Hc), Hc. now apply IH.
Qed.

Lemma TrimSpace_start_solid (c : ascii) (t : string) :
  solid c = true ->
  strings.TrimSpace_start (String c t) = inl (String c t).
Proof.
  unfold solid. intros H. apply andb_true_iff in H as [Ha Hs].
  cbn [strings.TrimSpace_start].
  replace (utf8.RuneSelf <=? byteZ c) with false
    by (symmetry; apply Z.leb_gt; now apply Z.ltb_lt).
  apply negb_true_iff in Hs. now rewrite Hs.
Qed.

Lemma TrimSpace_stop_spaces (a w1 : string) :
  all_bytes strings.asciiSpace w1 = true ->
  forall (w2 : string) (fuel : nat),
    (len w1 <= fuel)%nat ->
    strings.TrimSpace_stop fuel (a +:+ w1 +:+ w2) (len a + len w1)
    = strings.TrimSpace_stop (fuel - len w1) (a +:+ w1 +:+ w2) (len a).
Proof.
  induction w1 as [|w1 c IH] using string_rev_ind; intros Hsp w2 fuel Hf.
  - cbn [len String.length]. now rewrite Nat.add_0_r, Nat.sub_0_r.
  - rewrite all_bytes_app in Hsp. apply andb_true_iff in Hsp as [Hw Hc].
    cbn [all_bytes] in Hc. rewrite andb_true_r in Hc.
    rewrite len_app in *. cbn [len String.length] in *. fold (len w1) in *.
    destruct fuel as [|fuel]; [lia |].
    replace (len a + (len w1 + 1))%nat with (S (len a + len w1)) by lia.
    cbn [strings.TrimSpace_stop].
    replace (a +:+ (w1 +:+ String c "") +:+ w2)
      with ((a +:+ w1) +:+ String c w2)
      by (now rewrite !append_assoc).
    rewrite <- (len_app a w1) at 1. rewrite get_app_here.
    rewrite (asciiSpace_ascii c Hc), Hc.
    rewrite append_assoc. rewrite (IH Hw (String c w2) fuel) by lia.
    f_equal. lia.
Qed.

Lemma TrimSpace_stop_solid (a : string) (c : ascii) (w : string) (fuel : nat) :
  solid c = true ->
  strings.TrimSpace_stop (S fuel) ((a +:+ String c "") +:+ w) (len (a +:+ String c ""))
  = a +:+ String c "".
Proof.
  unfold solid. intros H. apply andb_true_iff in H as [Ha Hs].
  rewrite len_app at 1. cbn [len String.length]. fold (len a).
  replace (len a + 1)%nat with (S (len a)) by lia.
  cbn [strings.TrimSpace_stop].
  rewrite append_assoc. cbn [String.append]. rewrite get_app_here.
  replace (utf8.RuneSelf <=? byteZ c) with false
    by (symmetry; apply Z.leb_gt; now apply Z.ltb_lt).
  apply negb_true_iff in Hs. rewrite Hs.
  change (String c w) with (String c "" +:+ w). rewrite <- append_assoc.
  replace (S (len a)) with (len (a +:+ String c ""))
    by (rewrite len_app; cbn; lia).
  apply take_app.
Qed.

Lemma trimmed_last (c : ascii) (s : string) :
  trimmed (String c s) = true ->
  solid c = true /\
  exists a d, String c s = a +:+ String d "" /\ solid d = true.
Proof.
  intros H. unfold trimmed in H. apply andb_true_iff in H as [Hc Hl].
  split; [assumption |].
  destruct (snoc_decomp c s) as (a & d & E). exists a, d. split; [assumption |].
  rewrite E in Hl. rewrite len_app in Hl. cbn [len String.length] in Hl.
  fold (len a) in Hl. replace (len a + 1 - 1)%nat with (len a) in Hl by lia.
  now rewrite get_app_here in Hl.
Qed.

(** [TrimSpace] removes the ASCII white space around a text that begins
    and ends with a solid byte, and nothing else. *)
Lemma TrimSpace_trimmed (ws1 core ws2 : string) :
  all_bytes strings.asciiSpace ws1 = true ->
  all_bytes strings.asciiSpace ws2 = true ->
  trimmed core = true ->
  strings.TrimSpace (ws1 +:+ core +:+ ws2) = core.
Proof.
  intros H1 H2 Hc. unfold strings.TrimSpace.
  rewrite TrimSpace_start_spaces by assumption.
  destruct core as [|c core].
  - cbn [String.append].
    rewrite <- (append_nil_r ws2). rewrite TrimSpace_start_spaces by assumption.
    reflexivity.
  - destruct (trimmed_last c core Hc) as (Hs & a & d & E & Hd).
    cbn [String.append]. rewrite (TrimSpace_start_solid c _ Hs).
    change (String c (core +:+ ws2)) with (String c core +:+ ws2).
    rewrite E.
    pose proof (TrimSpace_stop_spaces (a +:+ String d "") ws2 H2 ""
                  (len ((a +:+ String d "") +:+ ws2))) as Hstop.
    rewrite !append_nil_r in Hstop.
    assert (Hl : len ((a +:+ String d "") +:+ ws2)
                 = (len (a +:+ String d "") + len ws2)%nat) by apply len_app.
    rewrite Hl at 2. rewrite Hstop by lia. rewrite Hl.
    replace (len (a +:+ String d "") + len ws2 - len ws2)%nat
      with (S (len a)) by (rewrite len_app; cbn; lia).
    now apply TrimSpace_stop_solid.
Qed.

(** X21.  What git prints is used without the ASCII white space around
    it: the commit is the text between, and the repository is resolved
    from the text between. *)
Theorem git_output_trimmed (env : Env) (fs : flag.FlagSet)
    (ws1 core ws2 : string) :
  all_bytes strings.asciiSpace ws1 = true ->
  all_bytes strings.asciiSpace ws2 = true ->
  trimmed core = true ->
  (flag.String_ fs "commit" = "" ->
   git_rev_parse_HEAD env = inl (ws1 +:+ core +:+ ws2) ->
   resolveCommit env fs
   = ([Exec ["git"; "rev-parse"; "HEAD"]; Println ("Commit: " +:+ core)],
      inl core)) /\
  (flag.String_ fs "repo" = "" ->
   git_remote_get_url env = inl (ws1 +:+ core +:+ ws2) ->
   forall repo, parseRemoteURL core = inl repo ->
   resolveRepository env fs
   = ([Exec ["git"; "remote"; "get-url"; "origin"];
       Println ("Repository: " +:+ repo)],
      inl repo)).
Proof.
  intros H1 H2 Hc. pose proof (TrimSpace_trimmed _ _ _ H1 H2 Hc) as Ht. split.
  - intros Hflag Hgit. unfold resolveCommit. now rewrite Hflag, Hgit, Ht.
  - intros Hflag Hgit repo Hrepo. unfold resolveRepository.
    now rewrite Hflag, Hgit, Ht, Hrepo.
Qed.

Lemma git_output_trimmed_witness :
  resolveCommit
    (sample_env sample_remote
       (inl (" " +:+ "0123456789abcdef0123456789abcdef01234567" +:+ nl +:+ nl))
       None (ok_response id_abc))
    (flag.Parse flagSet []).1
  = ([Exec ["git"; "rev-parse"; "HEAD"];
      Println "Commit: 0123456789abcdef0123456789abcdef01234567"],
     inl "0123456789abcdef0123456789abcdef01234567").
Proof.
  exact (proj1 (git_output_trimmed
           (sample_env sample_remote
              (inl (" " +:+ "0123456789abcdef0123456789abcdef01234567" +:+ nl +:+ nl))
              None (ok_response id_abc))
           (flag.Parse flagSet []).1
           " " "0123456789abcdef0123456789abcdef01234567" (nl +:+ nl)
           eq_refl eq_refl eq_refl) eq_refl eq_refl).
Defined.

(** X22.  Output of git that is empty or all white space is not an error:
    the repository name, or the commit, is then the empty string and the
    run goes on. *)
Theorem blank_git_output_accepted (env : Env) (fs : flag.FlagSet) (ws : string) :
  all_bytes strings.asciiSpace ws = true ->
  (flag.String_ fs "repo" = "" -> git_remote_get_url env = inl ws ->
   resolveRepository env fs
   = ([Exec ["git"; "remote"; "get-url"; "origin"]; Println "Repository: "],
      inl "")) /\
  (flag.String_ fs "commit" = "" -> git_rev_parse_HEAD env = inl ws ->
   resolveCommit env fs
   = ([Exec ["git"; "rev-parse"; "HEAD"]; Println "Commit: "], inl "")).
Proof.
  intros Hws.
  assert (Ht : strings.TrimSpace ws = "").
  { pose proof (TrimSpace_trimmed ws "" "" Hws eq_refl eq_refl) as H.
    now rewrite !append_nil_r in H. }
  split; intros Hflag Hgit.
  - unfold resolveRepository. now rewrite Hflag, Hgit, Ht.
  - unfold resolveCommit. now rewrite Hflag, Hgit, Ht.
Qed.

Lemma blank_git_output_witness :
  resolveRepository
    (sample_env (inl nl) sample_head None (ok_response id_abc))
    (flag.Parse flagSet []).1
  = ([Exec ["git"; "remote"; "get-url"; "origin"]; Println "Repository: "], inl "").
Proof.
  exact (proj1 (blank_git_output_accepted
           (sample_env (inl nl) sample_head None (ok_response id_abc))
           (flag.Parse flagSet []).1 nl eq_refl) eq_refl eq_refl).
Defined.


(** ** Remotes with and without the [.git] suffix *)

Lemma parseRemoteURL_ssh_exact (H P : string) :
  byte_in ":" H = false -> byte_in ":" P = false ->
  parseRemoteURL ("git@" +:+ H +:+ ":" +:+ P)
  = inl (H +:+ "/" +:+ strings.TrimPrefix (strings.TrimSuffix P ".git") "/").
Proof.
  intros HH HP. unfold parseRemoteURL.
  rewrite HasPrefix_app.
  rewrite <- (append_assoc "git@" H).
  change (":" +:+ P) with (String ":" P).
  rewrite Split_two.
  - now rewrite TrimPrefix_app.
  - rewrite byte_in_app, HH. reflexivity.
  - assumption.
Qed.

Lemma parseRemoteURL_url_exact (scheme H P : string) :
  valid_scheme scheme = true -> all_bytes host_byte H = true ->
  all_bytes path_byte P = true ->
  parseRemoteURL (url_text scheme H P)
  = inl (H +:+ strings.TrimSuffix ("/" +:+ P) ".git").
Proof.
  intros Hs HH HP. unfold parseRemoteURL.
  unfold url_text at 1.
  change ("://" +:+ H +:+ "/" +:+ P) with (String ":" ("//" +:+ H +:+ "/" +:+ P)).
  rewrite (scheme_not_git _ _ Hs).
  change (scheme +:+ String ":" ("//" +:+ H +:+ "/" +:+ P))
    with (url_text scheme H P).
  destruct (Parse_url_text scheme H P) as (u & -> & Hhost & Hpath);
    try assumption.
  rewrite Hostname_plain by now rewrite Hhost.
  now rewrite Hhost, Hpath.
Qed.

(** X23.  A remote [git@H:P] with no other colon resolves to [H], a
    slash, and [P] without one trailing [.git] and then without one
    leading slash; a plain remote [scheme://H/P] resolves to [H] and
    [/P] without one trailing [.git].  So the suffix is optional: a
    remote without it resolves to [H/P] as well. *)
Theorem remote_suffix_optional :
  (forall H P,
     byte_in ":" H = false -> byte_in ":" P = false ->
     parseRemoteURL ("git@" +:+ H +:+ ":" +:+ P)
     = inl (H +:+ "/" +:+ strings.TrimPrefix (strings.TrimSuffix P ".git") "/") /\
     (strings.HasSuffix P ".git" = false -> strings.HasPrefix P "/" = false ->
      parseRemoteURL ("git@" +:+ H +:+ ":" +:+ P) = inl (repo_name H P))) /\
  (forall scheme H P,
     valid_scheme scheme = true -> all_bytes host_byte H = true ->
     all_bytes path_byte P = true ->
     parseRemoteURL (url_text scheme H P)
     = inl (H +:+ strings.TrimSuffix ("/" +:+ P) ".git") /\
     (strings.HasSuffix ("/" +:+ P) ".git" = false ->
      parseRemoteURL (url_text scheme H P) = inl (repo_name H P))).
Proof.
  split.
  - intros H P HH HP. split; [now apply parseRemoteURL_ssh_exact |].
    intros Hsuf Hpre. rewrite parseRemoteURL_ssh_exact by assumption.
    unfold strings.TrimSuffix, strings.TrimPrefix. now rewrite Hsuf, Hpre.
  - intros scheme H P Hs HH HP. split; [now apply parseRemoteURL_url_exact |].
    intros Hsuf. rewrite parseRemoteURL_url_exact by assumption.
    unfold strings.TrimSuffix. now rewrite Hsuf.
Qed.

Lemma remote_suffix_optional_witness :
  parseRemoteURL "git@github.com:gorilla/mux" = inl "github.com/gorilla/mux" /\
  parseRemoteURL "https://github.com/gorilla/mux" = inl "github.com/gorilla/mux" /\
  parseRemoteURL "https://github.com/gorilla/mux.git.git"
  = inl "github.com/gorilla/mux.git".
Proof.
  split; [| split].
  - exact (proj2 (proj1 remote_suffix_optional "github.com" "gorilla/mux"
                    eq_refl eq_refl) eq_refl eq_refl).
  - exact (proj2 (proj2 remote_suffix_optional "https" "github.com" "gorilla/mux"
                    eq_refl eq_refl eq_refl) eq_refl).
  - exact (proj1 (proj2 remote_suffix_optional "https" "github.com"
                    "gorilla/mux.git.git" eq_refl eq_refl eq_refl)).
Defined.


(** ** The id of the upload *)

Lemma plain_id_byte_scan (c : ascii) :
  plain_id_byte c = true ->
  Ascii.eqb c "034" = false /\ Ascii.eqb c "\" = false /\
  (byteZ c <? 32) = false /\ (byteZ c <? utf8.RuneSelf) = true.
Proof.
  unfold plain_id_byte. intros H.
  apply andb_true_iff in H as [H Hb]. apply andb_true_iff in H as [H Hq].
  apply andb_true_iff in H as [Hlo Hhi].
  apply negb_true_iff in Hb, Hq. repeat split; try assumption.
  apply Z.ltb_ge. now apply Z.leb_le.
Qed.

Lemma scan_string_plain (ID rest : string) :
  all_bytes plain_id_byte ID = true ->
  json.scan_string (ID +:+ String "034" rest) = Some (ID, rest).
Proof.
  induction ID as [|c ID IH]; intros H; [reflexivity |].
  cbn [all_bytes] in H. apply andb_true_iff in H as [Hc HID].
  destruct (plain_id_byte_scan c Hc) as (Hq & Hb & Hctl & _).
  cbn [String.append json.scan_string]. rewrite Hq, Hb, Hctl.
  now rewrite (IH HID).
Qed.

Lemma unquote_plain (ID : string) (fuel : nat) :
  all_bytes plain_id_byte ID = true -> (len ID <= fuel)%nat ->
  json.unquote fuel ID = Some ID.
Proof.
  revert fuel. induction ID as [|c ID IH]; intros fuel H Hf.
  - now destruct fuel.
  - destruct fuel as [|fuel]; [cbn in Hf; lia |].
    cbn [all_bytes] in H. apply andb_true_iff in H as [Hc HID].
    destruct (plain_id_byte_scan c Hc) as (Hq & Hb & Hctl & Hascii).
    cbn [json.unquote]. rewrite Hb, Hq, Hctl, Hascii. cbn [orb].
    rewrite (IH fuel HID) by (cbn in Hf; unfold len; lia). reflexivity.
Qed.

Lemma skip_ws_solid (c : ascii) (s : string) :
  json.isSpace c = false -> json.skip_ws (String c s) = String c s.
Proof. intros H. cbn [json.skip_ws]. now rewrite H. Qed.

Lemma parse_value_string (n : nat) (depth : N) (ID rest : string) :
  all_bytes plain_id_byte ID = true ->
  json.parse_value (S n) depth (String "034" (ID +:+ String "034" rest))
  = Some (json.Str ID, rest).
Proof.
  intros H. cbn [json.parse_value].
  rewrite skip_ws_solid by reflexivity.
  change (Ascii.eqb "034" "{") with false. change (Ascii.eqb "034" "[") with false.
  change (Ascii.eqb "034" "034") with true. cbv iota.
  rewrite (scan_string_plain ID rest H). cbv iota beta.
  now rewrite (unquote_plain ID (len ID) H) by lia.
Qed.

Lemma parse_members_id (n : nat) (ID : string) :
  all_bytes plain_id_byte ID = true ->
  json.parse_members (S (S n)) 1
    (String "034" (String "i" (String "d" (String "034" (String ":"
       (String "034" (ID +:+ String "034" "}")))))))
  = Some ([("id", json.Str ID)], "").
Proof.
  intros H. cbn [json.parse_members].
  rewrite skip_ws_solid by reflexivity.
  change (Ascii.eqb "034" "034") with true. cbv iota.
  match goal with
  | |- context [json.scan_string (String "i" (String "d" (String "034" ?X)))] =>
    change (json.scan_string (String "i" (String "d" (String "034" X))))
      with (Some ("id", X))
  end.
  cbv iota beta.
  change (json.unquote (len "id") "id") with (Some "id").
  rewrite skip_ws_solid by reflexivity.
  change (Ascii.eqb ":" ":") with true. cbv iota beta.
  rewrite (parse_value_string n 1 ID "}" H).
  reflexivity.
Qed.

Lemma parse_id_body (ID : string) :
  all_bytes plain_id_byte ID = true ->
  json.parse (id_body ID) = Some (json.Object [("id", json.Str ID)]).
Proof.
  intros H. unfold json.parse.
  assert (Hfuel : exists n, (2 * len (id_body ID) + 2)%nat = S (S (S n))).
  { exists (2 * len (id_body ID) - 1)%nat. unfold id_body.
    cbn [String.append len String.length]. lia. }
  destruct Hfuel as [n ->]. unfold id_body, dquote.
  cbn [String.append json.parse_value].
  rewrite skip_ws_solid by reflexivity.
  change (Ascii.eqb "{" "{") with true. cbv iota.
  change (json.maxNestingDepth <? 0 + 1)%N with false. cbv iota.
  rewrite skip_ws_solid by reflexivity.
  change (Ascii.eqb "034" "}") with false. cbv iota.
  change (0 + 1)%N with 1%N.
  rewrite (parse_members_id n ID H).
  reflexivity.
Qed.

Lemma Unmarshal_id_body (ID : string) :
  all_bytes plain_id_byte ID = true -> json.Unmarshal (id_body ID) = inl ID.
Proof. intros H. unfold json.Unmarshal. now rewrite (parse_id_body ID H). Qed.

(** X24.  A body [{"id":"ID"}] whose id is made of printable ASCII bytes
    other than the quote and the backslash decodes to that id, and a run
    that got it with a status in [200,300) prints the status page of that
    id for the repository it printed. *)
Theorem uploaded_id_reported (env : Env) (args : list string)
    (req : Request) (resp : Response) (ID : string) :
  all_bytes plain_id_byte ID = true ->
  json.Unmarshal (id_body ID) = inl ID /\
  (HTTPDo req ∈ (handler env args).1 ->
   http_Do env = inl resp -> gzip_copy env = None ->
   Body resp = inl (id_body ID) ->
   200 <= StatusCode resp < 300 ->
   exists repo,
     Println ("Repository: " +:+ repo) ∈ (handler env args).1 /\
     Println ("View processing status at " +:+
              status_page (cfg_Endpoint env) repo ID +:+ ".")
       ∈ (handler env args).1).
Proof.
  intros Hplain. pose proof (Unmarshal_id_body ID Hplain) as HU.
  split; [exact HU |].
  intros Hin Hdo Hgz Hb Hs.
  destruct (handler_interprets _ _ _ _ _ Hin Hdo Hgz Hb)
    as (tr & repo & openFlag & Hrepo & ->).
  exists repo. cbn [fst]. split; [apply elem_of_app; now left |].
  rewrite (interpret_accepted _ _ _ _ _ _ Hs HU). cbn [fst].
  apply elem_of_app. right. apply elem_of_app. left.
  unfold success_lines. do 2 apply list_elem_of_further. constructor.
Qed.

Lemma uploaded_id_witness :
  json.Unmarshal (id_body "4f2c-77") = inl "4f2c-77" /\
  exists repo,
    Println ("View processing status at " +:+
             status_page "https://sourcegraph.example.com" repo "4f2c-77" +:+ ".")
      ∈ (handler (sample_env sample_remote sample_head None
                    (ok_response (id_body "4f2c-77"))) []).1.
Proof.
  destruct (uploaded_id_reported
              (sample_env sample_remote sample_head None
                 (ok_response (id_body "4f2c-77")))
              [] (sample_request sample_query)
              (mkResponse 200 "200 OK" (inl (id_body "4f2c-77"))) "4f2c-77" eq_refl)
    as [HU Hrun].
  split; [exact HU |].
  destruct Hrun as (repo & _ & Hline).
  - vm_compute. repeat first [apply list_elem_of_here | apply list_elem_of_further].
  - reflexivity.
  - reflexivity.
  - reflexivity.
  - cbn. lia.
  - exists repo. exact Hline.
Defined.


(** ** The query string, read back *)

Lemma escape_cons (c : ascii) (s : string) (mode : url.encoding) :
  url.escape (String c s) mode
  = url.escape (String c "") mode +:+ url.escape s mode.
Proof.
  cbn [url.escape].
  destruct (Ascii.eqb c " " && _); [reflexivity |].
  destruct (url.shouldEscape c mode); reflexivity.
Qed.

(** One byte is written as itself, as a plus, or as an escape of two
    hexadecimal digits that give it back. *)
Lemma escape_byte (c : ascii) :
  let e := url.escape (String c "") url.encodeQueryComponent in
  all_bytes query_safe e = true /\
  ((e = "+" /\ c = " "%char) \/
   (e = String c "" /\ Ascii.eqb c "%" = false /\ Ascii.eqb c "+" = false) \/
   (exists h1 h2, e = String "%" (String h1 (String h2 "")) /\
      url.ishex h1 && url.ishex h2 = true /\ url.hex_byte h1 h2 = c)).
Proof.
  destruct c as [[] [] [] [] [] [] [] []]; cbv zeta;
    (split; [vm_compute; reflexivity |]);
    first
      [ left; split; vm_compute; reflexivity
      | right; left; repeat split; vm_compute; reflexivity
      | right; right; eexists _, _; repeat split; vm_compute; reflexivity ].
Qed.

Lemma QueryEscape_safe (s : string) :
  all_bytes query_safe (url.QueryEscape s) = true.
Proof.
  unfold url.QueryEscape. induction s as [|c s IH]; [reflexivity |].
  rewrite escape_cons, all_bytes_app, IH, andb_true_r.
  apply (escape_byte c).
Qed.

Lemma QueryEscape_unescape (s : string) :
  url.unescape (url.QueryEscape s) url.encodeQueryComponent = inl s.
Proof.
  unfold url.unescape, url.QueryEscape.
  assert (H : url.unescape_check (url.escape s url.encodeQueryComponent)
                url.encodeQueryComponent = None /\
              url.unescape_build (url.escape s url.encodeQueryComponent)
                url.encodeQueryComponent = s).
  { induction s as [|c s [IHc IHb]]; [split; reflexivity |].
    rewrite escape_cons.
    destruct (escape_byte c) as [_ [[-> ->] | [(-> & Hp & Hplus) | (h1 & h2 & -> & Hhex & Hb)]]].
    - cbn [String.append url.unescape_check url.unescape_build].
      change (Ascii.eqb "+" "%") with false. change (Ascii.eqb "+" "+") with true.
      cbv iota. now rewrite IHc, IHb.
    - cbn [String.append url.unescape_check url.unescape_build].
      rewrite Hp, Hplus. cbn [andb url.is_host_mode]. now rewrite IHc, IHb.
    - cbn [String.append url.unescape_check url.unescape_build].
      change (Ascii.eqb "%" "%") with true. cbv iota.
      rewrite Hhex. cbn [negb andb]. now rewrite IHc, IHb, Hb. }
  destruct H as [-> ->]. reflexivity.
Qed.

Lemma query_safe_not (c d : ascii) :
  query_safe d = false -> query_safe c = true -> Ascii.eqb d c = false.
Proof.
  intros Hd Hc. destruct (Ascii.eqb_spec d c) as [-> |]; [congruence | reflexivity].
Qed.

Lemma safe_absent (d : ascii) (s : string) :
  query_safe d = false -> all_bytes query_safe s = true -> byte_in d s = false.
Proof.
  intros Hd. induction s as [|c s IH]; intros H; [reflexivity |].
  cbn [all_bytes] in H. apply andb_true_iff in H as [Hc Hs].
  cbn [byte_in]. now rewrite (query_safe_not c d Hd Hc), IH.
Qed.

Lemma split_go_concat (c : ascii) (a : string) (l : list string) (fuel : nat) :
  Forall (fun s => byte_in c s = false) (a :: l) ->
  (length l <= fuel)%nat ->
  strings.split_go fuel (String.concat (String c "") (a :: l)) (String c "") = a :: l.
Proof.
  revert a fuel. induction l as [|b l IH]; intros a fuel Hall Hf.
  - apply Forall_cons in Hall as [Ha _]. cbn [String.concat].
    destruct fuel; cbn [strings.split_go]; [reflexivity |].
    now rewrite (Index_absent _ _ Ha).
  - apply Forall_cons in Hall as [Ha Hl].
    destruct fuel as [|fuel]; [cbn in Hf; lia |].
    change (String.concat (String c "") (a :: b :: l))
      with (a +:+ String c (String.concat (String c "") (b :: l))).
    cbn [strings.split_go]. rewrite (Index_first _ _ _ Ha), take_app.
    change (len (String c "")) with 1%nat. rewrite drop_app_plus. cbn [drop_bytes].
    rewrite IH; [reflexivity | assumption | cbn in Hf; lia].
Qed.

Lemma concat_len (c : ascii) (l : list string) :
  (length l <= S (len (String.concat (String c "") l)))%nat.
Proof.
  induction l as [|a [|b l] IH]; cbn [String.concat length] in *; try lia.
  rewrite !len_app. cbn [len String.length]. unfold len in *. lia.
Qed.

Lemma Split_concat (c : ascii) (a : string) (l : list string) :
  Forall (fun s => byte_in c s = false) (a :: l) ->
  strings.Split (String.concat (String c "") (a :: l)) (String c "") = a :: l.
Proof.
  intros H. unfold strings.Split. cbn [String.eqb].
  apply split_go_concat; [assumption |].
  pose proof (concat_len c (a :: l)) as Hl. cbn [length] in Hl. lia.
Qed.

Lemma Cut_first (c : ascii) (a b : string) :
  byte_in c a = false ->
  strings.Cut (a +:+ String c b) (String c "") = (a, b, true).
Proof.
  intros H. unfold strings.Cut. rewrite (Index_first _ _ _ H), take_app.
  change (len (String c "")) with 1%nat. rewrite drop_app_plus. reflexivity.
Qed.

Lemma query_pairs_names (repo commit token root indexer : string) :
  Forall (fun p => byte_in "=" p.1 = false /\ byte_in "&" p.1 = false)
         (query_pairs repo commit token root indexer).
Proof.
  unfold query_pairs.
  destruct (String.eqb token ""), (String.eqb indexer ""), (String.eqb root "");
    repeat constructor.
Qed.

(** X25.  The query string can be read back: split at [&] it gives one
    part for each parameter, in the order of the names; each part cut at
    its first [=] gives the name and the escaped value, which holds no
    [&] and no [=] and unescapes to the value. *)
Theorem query_string_decodes (repo commit token root indexer : string) :
  Forall2
    (fun part p =>
       strings.Cut part "=" = (p.1, url.QueryEscape p.2, true) /\
       all_bytes query_safe (url.QueryEscape p.2) = true /\
       url.unescape (url.QueryEscape p.2) url.encodeQueryComponent = inl p.2)
    (strings.Split (url.Encode (queryValues repo commit token root indexer)) "&")
    (query_pairs repo commit token root indexer).
Proof.
  rewrite Encode_queryValues.
  pose proof (query_pairs_names repo commit token root indexer) as Hnames.
  assert (Hne : exists p ps, query_pairs repo commit token root indexer = p :: ps)
    by (unfold query_pairs; cbn [app]; eauto).
  destruct Hne as (p & ps & E). rewrite E in *.
  change "&" with (String "&" "").
  rewrite fmap_cons, Split_concat.
  - rewrite <- fmap_cons. apply Forall2_fmap_l, Forall_Forall2_diag.
    eapply Forall_impl; [exact Hnames |].
    intros [name value] [Hname _]. cbn [fst snd] in *.
    split; [| split].
    + unfold render_pair. cbn [fst snd].
      change "=" with (String "=" ""). change (String "=" "" +:+ ?x) with (String "=" x).
      now apply Cut_first.
    + apply QueryEscape_safe.
    + apply QueryEscape_unescape.
  - rewrite <- fmap_cons. apply Forall_fmap.
    eapply Forall_impl; [exact Hnames |].
    intros [name value] [_ Hname]. cbn [fst snd] in *. unfold render_pair.
    cbn [fst snd compose]. rewrite byte_in_app, Hname. cbn [orb String.append byte_in].
    change (Ascii.eqb "&" "=") with false. cbn [orb].
    apply safe_absent; [reflexivity | apply QueryEscape_safe].
Qed.


(** ** The encoded reference *)

Lemma all256_spec (p : ascii -> bool) :
  all256 p = true -> forall c, p c = true.
Proof.
  unfold all256. rewrite List.forallb_forall. intros H c. apply H.
  unfold all_ascii. rewrite <- (ascii_nat_embedding c).
  apply List.in_map, List.in_seq. pose proof (nat_ascii_bounded c). lia.
Qed.

(** Three steps of a string at a time. *)
Lemma string_ind3 (P : string -> Prop) :
  P "" -> (forall a, P (String a "")) -> (forall a b, P (String a (String b ""))) ->
  (forall a b c s, P s -> P (String a (String b (String c s)))) ->
  forall s, P s.
Proof.
  intros H0 H1 H2 H3.
  fix IH 1.
  intros [|a [|b [|c s]]]; [exact H0 | apply H1 | apply H2 | apply H3, IH].
Qed.

Lemma enc_symbol (i : Z) : base64_byte (base64.enc i) = true.
Proof.
  unfold base64.enc.
  assert (H : forall (s : string) (n : nat),
            all_bytes base64_byte s = true ->
            base64_byte (from_option id base64.StdPadding (String.get n s)) = true).
  { induction s as [|c s IH]; intros n Hs; [reflexivity |].
    cbn [all_bytes] in Hs. apply andb_true_iff in Hs as [Hc Hs].
    destruct n as [|n]; cbn [String.get]; [exact Hc | now apply IH]. }
  now apply H.
Qed.

Lemma EncodeToString_symbols (s : string) :
  all_bytes base64_byte (base64.EncodeToString s) = true /\
  len (base64.EncodeToString s) = (4 * ((len s + 2) / 3))%nat.
Proof.
  induction s as [|a|a b|a b c s [IHs IHl]] using string_ind3.
  - split; reflexivity.
  - split; [| reflexivity]. cbn [base64.EncodeToString all_bytes].
    now rewrite !enc_symbol.
  - split; [| reflexivity]. cbn [base64.EncodeToString all_bytes].
    now rewrite !enc_symbol.
  - split.
    + cbn [base64.EncodeToString all_bytes]. now rewrite !enc_symbol, IHs.
    + cbn [base64.EncodeToString]. cbn [len String.length] in *.
      unfold len in *. rewrite IHl.
      replace (S (S (S (String.length s))) + 2)%nat
        with (1 * 3 + (String.length s + 2))%nat by lia.
      rewrite Nat.div_add_l by lia. lia.
Qed.

(** X26.  The reference of an upload is made of letters, digits, dashes,
    underscores and padding only, so that it is one segment of the path
    of the status page; it has four symbols for each three bytes of the
    tagged id. *)
Theorem reference_is_one_segment (ID : string) :
  all_bytes base64_byte (reference ID) = true /\
  byte_in "/" (reference ID) = false /\
  len (reference ID) = (20 + 4 * (len ID / 3))%nat.
Proof.
  unfold reference.
  destruct (EncodeToString_symbols ("LSIFUpload:" +:+ dquote +:+ ID +:+ dquote))
    as [Hs Hl].
  split; [exact Hs |]. split.
  - revert Hs. generalize (base64.EncodeToString
                             ("LSIFUpload:" +:+ dquote +:+ ID +:+ dquote)).
    induction s as [|c s IH]; intros H; [reflexivity |].
    cbn [all_bytes] in H. apply andb_true_iff in H as [Hc Hs].
    cbn [byte_in]. rewrite (IH Hs), orb_false_r.
    destruct (Ascii.eqb_spec "/" c) as [<- |]; [discriminate Hc | reflexivity].
  - rewrite Hl. unfold dquote. cbn [String.append len String.length].
    rewrite len_app. cbn [len String.length]. fold (len ID).
    replace (S (S (S (S (S (S (S (S (S (S (S (S (len ID + 1)))))))))))) + 2)%nat
      with (5 * 3 + len ID)%nat by lia.
    rewrite Nat.div_add_l by lia. lia.
Qed.

Lemma all256_pairs (p : ascii -> ascii -> bool) :
  all256 (fun a => all256 (p a)) = true -> forall a b, p a b = true.
Proof.
  intros H a b. apply all256_spec. exact (all256_spec _ H a).
Qed.

(** The symbols of a group, as [EncodeToString] writes them. *)
Lemma padded_one (a : ascii) :
  decode_quads (base64.EncodeToString (String a "")) = String a "".
Proof.
  apply String.eqb_eq.
  revert a. apply all256_spec. vm_compute. reflexivity.
Qed.

Lemma padded_two (a b : ascii) :
  decode_quads (base64.EncodeToString (String a (String b ""))) = String a (String b "").
Proof.
  apply String.eqb_eq.
  revert a b. apply all256_pairs. vm_compute. reflexivity.
Qed.

Lemma group_first (a b : ascii) :
  byte_of_Z (Z.lor (Z.shiftl (sextet (base64.enc (Z.shiftr (byteZ a) 2))) 2)
               (Z.shiftr (sextet (base64.enc
                  (Z.lor (Z.shiftl (Z.land (byteZ a) 3) 4) (Z.shiftr (byteZ b) 4)))) 4))
  = a.
Proof.
  apply Ascii.eqb_eq. revert a b. apply all256_pairs. vm_compute. reflexivity.
Qed.

Lemma group_second_high (a b : ascii) :
  Z.land (sextet (base64.enc
            (Z.lor (Z.shiftl (Z.land (byteZ a) 3) 4) (Z.shiftr (byteZ b) 4)))) 15
  = Z.shiftr (byteZ b) 4.
Proof.
  apply Z.eqb_eq. revert a b. apply all256_pairs. vm_compute. reflexivity.
Qed.

Lemma group_second_low (b c : ascii) :
  Z.shiftr (sextet (base64.enc
              (Z.lor (Z.shiftl (Z.land (byteZ b) 15) 2) (Z.shiftr (byteZ c) 6)))) 2
  = Z.land (byteZ b) 15.
Proof.
  apply Z.eqb_eq. revert b c. apply all256_pairs. vm_compute. reflexivity.
Qed.

Lemma group_second (b : ascii) :
  byte_of_Z (Z.lor (Z.shiftl (Z.shiftr (byteZ b) 4) 4) (Z.land (byteZ b) 15)) = b.
Proof.
  apply Ascii.eqb_eq. revert b. apply all256_spec. vm_compute. reflexivity.
Qed.

Lemma group_third (b c : ascii) :
  byte_of_Z (Z.lor
    (Z.shiftl (Z.land (sextet (base64.enc
       (Z.lor (Z.shiftl (Z.land (byteZ b) 15) 2) (Z.shiftr (byteZ c) 6)))) 3) 6)
    (sextet (base64.enc (Z.land (byteZ c) 63))))
  = c.
Proof.
  apply Ascii.eqb_eq. revert b c. apply all256_pairs. vm_compute. reflexivity.
Qed.

Lemma group_not_padded (b c : ascii) :
  Ascii.eqb (base64.enc
    (Z.lor (Z.shiftl (Z.land (byteZ b) 15) 2) (Z.shiftr (byteZ c) 6)))
    base64.StdPadding = false /\
  Ascii.eqb (base64.enc (Z.land (byteZ c) 63)) base64.StdPadding = false.
Proof.
  split.
  - apply negb_true_iff. revert b c. apply all256_pairs. vm_compute. reflexivity.
  - apply negb_true_iff. revert c. apply all256_spec. vm_compute. reflexivity.
Qed.

(** Reading the symbols gives back the bytes that were encoded. *)
Lemma decode_EncodeToString (s : string) :
  decode_quads (base64.EncodeToString s) = s.
Proof.
  induction s as [|a|a b|a b c s IH] using string_ind3.
  - reflexivity.
  - apply padded_one.
  - apply padded_two.
  - cbn [base64.EncodeToString]. cbv zeta. cbn [decode_quads]. cbv zeta.
    destruct (group_not_padded b c) as [-> ->].
    rewrite group_first, group_second_high, group_second_low, group_second,
      group_third, IH.
    reflexivity.
Qed.

Lemma append_inv_head (p x y : string) : p +:+ x = p +:+ y -> x = y.
Proof.
  induction p as [|c p IH]; [auto |]. cbn [String.append]. intros [= H]. auto.
Qed.

Lemma append_inv_tail (x y s : string) : x +:+ s = y +:+ s -> x = y.
Proof.
  intros H.
  assert (Hl : len x = len y).
  { apply (f_equal len) in H. rewrite !len_app in H. lia. }
  apply (f_equal (take_bytes (len x))) in H.
  rewrite take_app in H. rewrite Hl in H. now rewrite take_app in H.
Qed.

Lemma reference_inj (a b : string) : reference a = reference b -> a = b.
Proof.
  unfold reference. intros H. apply (f_equal decode_quads) in H.
  rewrite !decode_EncodeToString in H.
  apply append_inv_head, append_inv_head in H.
  now apply append_inv_tail in H.
Qed.

(** X27.  Different ids give different references: the status pages of
    two uploads to a repository are the same only when the ids are. *)
Theorem status_page_determines_id (endpoint repo a b : string) :
  status_page endpoint repo a = status_page endpoint repo b -> a = b.
Proof.
  unfold status_page. intros H.
  do 4 apply append_inv_head in H. now apply reference_inj.
Qed.

Lemma status_page_determines_id_witness :
  reference "abc" = reference "abc" /\ "abc" = "abc".
Proof.
  split; [reflexivity |].
  exact (status_page_determines_id "https://sourcegraph.example.com"
           "github.com/gorilla/mux" "abc" "abc" eq_refl).
Defined.


(** ** What [filepath.Clean] makes of a path *)

(** *** Joined names *)

Lemma concat_cons (a : string) (l : list string) :
  l <> [] ->
  String.concat "/" (a :: l) = a +:+ "/" +:+ String.concat "/" l.
Proof. destruct l; [congruence | reflexivity]. Qed.

Lemma concat_snoc (l : list string) (e : string) :
  l <> [] ->
  String.concat "/" (l ++ [e]) = String.concat "/" l +:+ "/" +:+ e.
Proof.
  induction l as [|a l IH]; [congruence |]. intros _.
  destruct l as [|b l]; [reflexivity |].
  change ((a :: b :: l) ++ [e]) with (a :: ((b :: l) ++ [e])).
  rewrite concat_cons by (destruct l; discriminate).
  rewrite IH by discriminate.
  rewrite (concat_cons a (b :: l)) by discriminate.
  now rewrite !append_assoc.
Qed.

Lemma join_snoc (rooted : bool) (l : list string) (e : string) :
  join_path rooted (l ++ [e])
  = join_path rooted l +:+ (if bool_decide (l = []) then "" else "/") +:+ e.
Proof.
  unfold join_path. destruct l as [|a l].
  - rewrite bool_decide_eq_true_2 by reflexivity.
    cbn [app String.concat String.append]. now destruct rooted.
  - rewrite bool_decide_eq_false_2 by discriminate.
    rewrite concat_snoc by discriminate. now rewrite !append_assoc.
Qed.

Lemma len_pos (e : string) : e <> "" -> (0 < len e)%nat.
Proof. destruct e; [congruence | cbn; lia]. Qed.

Lemma join_len_nil (rooted : bool) :
  len (join_path rooted []) = if rooted then 1%nat else 0%nat.
Proof. now destruct rooted. Qed.

Lemma join_len_cons (rooted : bool) (l : list string) :
  Forall nonempty l -> l <> [] ->
  (len (join_path rooted []) < len (join_path rooted l))%nat.
Proof.
  intros Hall Hne. destruct l as [|a l]; [congruence |].
  apply Forall_cons in Hall as [Ha _]. apply len_pos in Ha.
  unfold join_path. rewrite !len_app.
  destruct l; cbn [String.concat]; rewrite ?len_app; cbn [len String.length];
    unfold len in *; lia.
Qed.

Lemma join_app_len (rooted : bool) (l1 l2 : list string) :
  Forall nonempty l2 -> l2 <> [] ->
  (len (join_path rooted l1) < len (join_path rooted (l1 ++ l2)))%nat.
Proof.
  intros Hall Hne. induction l2 as [|e l2 IH] using rev_ind; [congruence |].
  apply Forall_app in Hall as [Hl2 He]. apply Forall_cons in He as [He _].
  apply len_pos in He.
  rewrite app_assoc, join_snoc, !len_app.
  destruct l2 as [|a l2].
  - rewrite app_nil_r. lia.
  - assert (len (join_path rooted l1)
            < len (join_path rooted (l1 ++ a :: l2)))%nat
      by (apply IH; [assumption | discriminate]).
    lia.
Qed.

(** *** The steps of the loop *)

Lemma get_app_l (a b : string) (i : nat) :
  (i < len a)%nat -> String.get i (a +:+ b) = String.get i a.
Proof.
  unfold len. revert i. induction a as [|c a IH]; intros i Hi; [cbn in Hi; lia |].
  destruct i as [|i]; [reflexivity |]. cbn [String.append String.get].
  apply IH. cbn in Hi. lia.
Qed.

Lemma get_app_r (a b : string) (j : nat) :
  String.get (len a + j) (a +:+ b) = String.get j b.
Proof. unfold len. induction a as [|c a IH]; [reflexivity | exact IH]. Qed.

Lemma get_absent (c : ascii) (e : string) (j : nat) (d : ascii) :
  byte_in c e = false -> String.get j e = Some d -> Ascii.eqb d c = false.
Proof.
  revert j. induction e as [|x e IH]; intros j H Hg; [discriminate |].
  cbn [byte_in] in H. apply orb_false_elim in H as [Hx He].
  destruct j as [|j]; cbn [String.get] in Hg.
  - injection Hg as <-. now rewrite Ascii.eqb_sym.
  - eapply IH; eassumption.
Qed.

Lemma get_some (e : string) (j : nat) :
  (j < len e)%nat -> exists d, String.get j e = Some d.
Proof.
  unfold len. revert j. induction e as [|x e IH]; intros j Hj; [cbn in Hj; lia |].
  destruct j as [|j]; [now exists x |]. apply IH. cbn in Hj. lia.
Qed.

(** Going back over the bytes of a name. *)
Lemma backtrack_name (P : string) (x : ascii) (e Q : string) (dotdot : nat)
    (n fuel : nat) :
  byte_in "/" e = false -> (dotdot <= len P)%nat ->
  (n <= len e)%nat -> (n <= fuel)%nat ->
  filepath.backtrack fuel (P +:+ String x e +:+ Q) (len P + n) dotdot
  = filepath.backtrack (fuel - n) (P +:+ String x e +:+ Q) (len P) dotdot.
Proof.
  intros He Hd. revert fuel. induction n as [|n IH]; intros fuel Hn Hf.
  - now rewrite Nat.add_0_r, Nat.sub_0_r.
  - destruct fuel as [|fuel]; [lia |]. cbn [filepath.backtrack].
    replace (dotdot <? len P + S n)%nat with true
      by (symmetry; apply Nat.ltb_lt; lia).
    rewrite get_app_r. cbn [String.append String.get].
    destruct (get_some e n) as [d Hg]; [lia |].
    rewrite get_app_l by lia. rewrite Hg. cbn [from_option].
    unfold filepath.IsPathSeparator, filepath.Separator.
    rewrite (get_absent "/" e n d He Hg). cbn [andb negb].
    replace (len P + S n - 1)%nat with (len P + n)%nat by lia.
    rewrite IH by lia. f_equal.
Qed.

Lemma backtrack_stop (fuel : nat) (buf : string) (w dotdot : nat) :
  (w <= dotdot)%nat \/ String.get w buf = Some "/"%char ->
  filepath.backtrack fuel buf w dotdot = w.
Proof.
  intros H. destruct fuel as [|fuel]; [reflexivity |]. cbn [filepath.backtrack].
  destruct H as [H | H].
  - replace (dotdot <? w)%nat with false by (symmetry; apply Nat.ltb_ge; lia).
    reflexivity.
  - rewrite H. cbn. now rewrite andb_false_r.
Qed.

(** What [copy_element] copies is the text up to the next slash. *)
Lemma copy_element_spec (rest out : string) :
  exists e rest',
    rest = e +:+ rest' /\ byte_in "/" e = false /\
    filepath.at_element_end rest' = true /\
    filepath.copy_element rest out = (out +:+ e, rest').
Proof.
  revert out. induction rest as [|c rest IH]; intros out.
  - exists "", "". repeat split. cbn. now rewrite append_nil_r.
  - cbn [filepath.copy_element].
    destruct (filepath.IsPathSeparator c) eqn:Ec.
    + exists "", (String c rest). repeat split; [exact Ec |].
      now rewrite append_nil_r.
    + destruct (IH (out +:+ String c "")) as (e & rest' & -> & He & Hend & ->).
      exists (String c e), rest'. repeat split; try assumption.
      * cbn [byte_in]. rewrite He, orb_false_r.
        unfold filepath.IsPathSeparator, filepath.Separator in Ec.
        now rewrite Ascii.eqb_sym.
      * now rewrite append_assoc.
Qed.

(** *** The invariant of the loop *)

Lemma proper_name_inv (e : string) :
  proper_name e = true ->
  e <> "" /\ byte_in "/" e = false /\ e <> "." /\ e <> "..".
Proof.
  unfold proper_name. intros H.
  apply andb_true_iff in H as [H H4]. apply andb_true_iff in H as [H H3].
  apply andb_true_iff in H as [H1 H2].
  apply negb_true_iff in H1, H2, H3, H4.
  apply String.eqb_neq in H1, H3, H4. auto.
Qed.

Lemma proper_name_intro (e : string) :
  e <> "" -> byte_in "/" e = false -> e <> "." -> e <> ".." ->
  proper_name e = true.
Proof.
  intros H1 H2 H3 H4. unfold proper_name.
  apply String.eqb_neq in H1, H3, H4. now rewrite H1, H2, H3, H4.
Qed.

Lemma parents_nonempty (k : nat) : Forall nonempty (parents k).
Proof. apply Forall_replicate. discriminate. Qed.

Lemma proper_nonempty (segs : list string) :
  Forall (fun e => proper_name e = true) segs -> Forall nonempty segs.
Proof.
  intros Hall. eapply Forall_impl; [exact Hall |].
  intros e H. now apply proper_name_inv in H.
Qed.

Lemma names_nonempty (k : nat) (segs : list string) :
  Forall (fun e => proper_name e = true) segs ->
  Forall nonempty (parents k ++ segs).
Proof.
  intros H. apply Forall_app. split; [apply parents_nonempty |].
  now apply proper_nonempty.
Qed.

Lemma parents_snoc (k : nat) : parents k ++ [".."] = parents (S k).
Proof.
  unfold parents. induction k as [|k IH]; [reflexivity |].
  cbn [replicate app]. now rewrite IH.
Qed.

(** The separator that [Clean] writes before an element. *)
Lemma separator_needed (rooted : bool) (l : list string) :
  Forall nonempty l ->
  (rooted && negb (len (join_path rooted l) =? 1)%nat) ||
  (negb rooted && negb (len (join_path rooted l) =? 0)%nat)
  = negb (bool_decide (l = [])).
Proof.
  intros Hall. destruct l as [|a l].
  - rewrite bool_decide_eq_true_2 by reflexivity. now destruct rooted.
  - rewrite bool_decide_eq_false_2 by discriminate.
    pose proof (join_len_cons rooted (a :: l) Hall) as Hlt.
    specialize (Hlt ltac:(discriminate)). rewrite join_len_nil in Hlt.
    destruct rooted; cbn [andb negb orb].
    + replace (len (join_path true (a :: l)) =? 1)%nat with false
        by (symmetry; apply Nat.eqb_neq; lia).
      reflexivity.
    + replace (len (join_path false (a :: l)) =? 0)%nat with false
        by (symmetry; apply Nat.eqb_neq; lia).
      reflexivity.
Qed.

(** Going back over the last name. *)
Lemma backtrack_last (rooted : bool) (l : list string) (e : string) (dotdot : nat) :
  Forall nonempty l -> e <> "" -> byte_in "/" e = false ->
  (len (join_path rooted []) <= dotdot <= len (join_path rooted l))%nat ->
  let out := join_path rooted (l ++ [e]) in
  filepath.backtrack (len out) out (len out - 1) dotdot = len (join_path rooted l).
Proof.
  intros Hall Hne He Hd out. subst out. rewrite join_snoc.
  destruct e as [|x e]; [congruence |]. cbn [byte_in] in He.
  apply orb_false_elim in He as [Hx He].
  destruct l as [|a l].
  - rewrite bool_decide_eq_true_2 by reflexivity.
    cbn [String.append]. rewrite !len_app. cbn [len String.length]. fold (len e).
    assert (Hdd : dotdot = len (join_path rooted [])) by lia.
    replace (len (join_path rooted []) + S (len e) - 1)%nat
      with (len (join_path rooted []) + len e)%nat by lia.
    rewrite <- (append_nil_r (String x e)).
    rewrite backtrack_name by (try assumption; lia).
    apply backtrack_stop. left. lia.
  - rewrite bool_decide_eq_false_2 by discriminate.
    change ("/" +:+ String x e) with (String "/" (String x e)).
    rewrite !len_app. cbn [len String.length]. fold (len e).
    replace (len (join_path rooted (a :: l)) + S (S (len e)) - 1)%nat
      with (len (join_path rooted (a :: l)) + len (String x e))%nat
      by (cbn [len String.length]; unfold len; lia).
    rewrite <- (append_nil_r (String "/" (String x e))).
    rewrite backtrack_name.
    + apply backtrack_stop. right.
      rewrite <- (Nat.add_0_r (len (join_path rooted (a :: l)))).
      now rewrite get_app_r.
    + cbn [byte_in]. now rewrite Hx, He.
    + lia.
    + lia.
    + cbn [len String.length]. unfold len. lia.
Qed.

Lemma real_element_names (rooted : bool) (c : ascii) (r1 : string)
    (k : nat) (segs : list string) :
  Forall (fun e => proper_name e = true) segs ->
  filepath.IsPathSeparator c = false ->
  Ascii.eqb c "." && filepath.at_element_end r1 = false ->
  (forall c1 r2, r1 = String c1 r2 ->
     Ascii.eqb c "." && Ascii.eqb c1 "." && filepath.at_element_end r2 = false) ->
  let out := join_path rooted (parents k ++ segs) in
  let out1 :=
    if (rooted && negb (len out =? 1)%nat) || (negb rooted && negb (len out =? 0)%nat)
    then out +:+ String filepath.Separator "" else out in
  exists e rest',
    proper_name e = true /\
    (len rest' <= len r1)%nat /\
    (String c r1 = e +:+ rest' /\ filepath.at_element_end rest' = true) /\
    filepath.copy_element (String c r1) out1
    = (join_path rooted (parents k ++ segs ++ [e]), rest').
Proof.
  intros Hsegs Hc Hdot Hdotdot out out1.
  destruct (copy_element_spec (String c r1) out1) as (e & rest' & E & He & Hend & Hcopy).
  exists e, rest'.
  assert (Hne : e <> "").
  { intros ->. cbn [String.append] in E. subst rest'.
    cbn [filepath.at_element_end] in Hend. congruence. }
  destruct e as [|x e]; [congruence |]. cbn [String.append] in E.
  injection E as <- ->.
  assert (Hproper : proper_name (String c e) = true).
  { apply proper_name_intro; [discriminate | assumption | |].
    - intros [= -> ->]. cbn [String.append] in Hdot.
      rewrite Hend in Hdot. discriminate.
    - intros [= -> ->]. cbn [String.append] in Hdotdot.
      specialize (Hdotdot "."%char rest' eq_refl).
      rewrite Hend in Hdotdot. discriminate. }
  split; [exact Hproper |]. split; [rewrite len_app; lia |].
  split; [split; [reflexivity | assumption] |].
  rewrite Hcopy. f_equal. subst out1 out.
  rewrite separator_needed by now apply names_nonempty.
  rewrite app_assoc, join_snoc.
  destruct (bool_decide (parents k ++ segs = [])); cbn [negb];
    [reflexivity | now rewrite append_assoc].
Qed.

Lemma clean_loop_names (fuel : nat) (rooted : bool) :
  forall (rest : string) (k : nat) (segs : list string),
    (rooted = true -> k = 0%nat) ->
    Forall (fun e => proper_name e = true) segs ->
    exists k' segs',
      (rooted = true -> k' = 0%nat) /\
      Forall (fun e => proper_name e = true) segs' /\
      filepath.clean_loop fuel rooted rest
        (join_path rooted (parents k ++ segs))
        (len (join_path rooted (parents k)))
      = join_path rooted (parents k' ++ segs').
Proof.
  induction fuel as [|fuel IH]; intros rest k segs Hk Hsegs.
  { exists k, segs. auto. }
  cbn [filepath.clean_loop]. cbv zeta.
  destruct rest as [|c r1]; [exists k, segs; auto |].
  assert (Hreal :
    filepath.IsPathSeparator c = false ->
    Ascii.eqb c "." && filepath.at_element_end r1 = false ->
    (forall c1 r2, r1 = String c1 r2 ->
       Ascii.eqb c "." && Ascii.eqb c1 "." && filepath.at_element_end r2 = false) ->
    exists k' segs',
      (rooted = true -> k' = 0%nat) /\
      Forall (fun e => proper_name e = true) segs' /\
      (let '(out2, rest2) :=
         filepath.copy_element (String c r1)
           (if (rooted && negb (len (join_path rooted (parents k ++ segs)) =? 1)%nat) ||
               (negb rooted && negb (len (join_path rooted (parents k ++ segs)) =? 0)%nat)
            then join_path rooted (parents k ++ segs) +:+ String filepath.Separator ""
            else join_path rooted (parents k ++ segs)) in
       filepath.clean_loop fuel rooted rest2 out2 (len (join_path rooted (parents k))))
      = join_path rooted (parents k' ++ segs')).
  { intros Hc Hdot Hdotdot.
    destruct (real_element_names rooted c r1 k segs Hsegs Hc Hdot Hdotdot)
      as (e & rest' & He & _ & _ & ->).
    apply IH; [assumption |]. apply Forall_app. split; [assumption |].
    now constructor. }
  destruct (filepath.IsPathSeparator c) eqn:Hc; [now apply IH |].
  destruct (Ascii.eqb c "." && filepath.at_element_end r1) eqn:Hdot; [now apply IH |].
  destruct r1 as [|c1 r2]; [apply Hreal; try reflexivity; discriminate |].
  destruct (Ascii.eqb c "." && Ascii.eqb c1 "." && filepath.at_element_end r2)
    eqn:Hdotdot.
  2:{ apply Hreal; try reflexivity. intros ? ? [= <- <-]. exact Hdotdot. }
  clear Hreal.
  destruct (len (join_path rooted (parents k)) <?
            len (join_path rooted (parents k ++ segs)))%nat eqn:Hlt.
  - (* a name to go back over *)
    destruct segs as [|e segs _] using rev_ind.
    { rewrite app_nil_r in Hlt. apply Nat.ltb_lt in Hlt. lia. }
    apply Forall_app in Hsegs as [Hsegs He]. apply Forall_cons in He as [He _].
    apply proper_name_inv in He as (Hne & Hslash & _ & _).
    rewrite app_assoc.
    pose proof (backtrack_last rooted (parents k ++ segs) e
                  (len (join_path rooted (parents k)))
                  (names_nonempty k segs Hsegs) Hne Hslash) as Hback.
    cbv zeta in Hback. rewrite Hback.
    2:{ split.
        - destruct k as [|k]; [cbn [parents replicate]; lia |].
          pose proof (join_len_cons rooted (parents (S k)) (parents_nonempty (S k))
                        ltac:(discriminate)). lia.
        - destruct segs as [|a segs]; [rewrite app_nil_r; lia |].
          pose proof (join_app_len rooted (parents k) (a :: segs)
                        (proper_nonempty _ Hsegs) ltac:(discriminate)). lia. }
    rewrite join_snoc, take_app. now apply IH.
  - (* nothing to go back over *)
    assert (Hnil : segs = []).
    { destruct segs as [|a segs]; [reflexivity |].
      pose proof (join_app_len rooted (parents k) (a :: segs)
                    (proper_nonempty _ Hsegs) ltac:(discriminate)).
      apply Nat.ltb_ge in Hlt. lia. }
    subst segs. rewrite app_nil_r in *.
    destruct rooted; cbn [negb].
    + specialize (IH r2 k [] Hk Hsegs). now rewrite app_nil_r in IH.
    + assert (Hout : (if (0 <? len (join_path false (parents k)))%nat
                      then join_path false (parents k) +:+ String filepath.Separator ""
                      else join_path false (parents k)) +:+ ".."
                     = join_path false (parents (S k))).
      { rewrite <- parents_snoc, join_snoc.
        destruct k as [|k]; [reflexivity |].
        rewrite bool_decide_eq_false_2 by discriminate.
        pose proof (join_len_cons false (parents (S k)) (parents_nonempty (S k))
                      ltac:(discriminate)) as Hl.
        rewrite join_len_nil in Hl.
        replace (0 <? len (join_path false (parents (S k))))%nat with true
          by (symmetry; apply Nat.ltb_lt; lia).
        now rewrite append_assoc. }
      rewrite Hout.
      specialize (IH r2 (S k) [] ltac:(discriminate) Hsegs).
      now rewrite app_nil_r in IH.
Qed.

(** [Clean] gives [.], or the path of some [..] (none from the root)
    followed by proper names. *)
Lemma Clean_names (path : string) :
  exists k segs,
    (strings.HasPrefix path "/" = true -> k = 0%nat) /\
    Forall (fun e => proper_name e = true) segs /\
    filepath.Clean path
    = let out := join_path (strings.HasPrefix path "/") (parents k ++ segs) in
      if (len out =? 0)%nat then "." else out.
Proof.
  destruct path as [|c path].
  { exists 0%nat, []. split; [discriminate |]. split; [constructor | reflexivity]. }
  unfold filepath.Clean.
  assert (Hrooted : strings.HasPrefix (String c path) "/" = filepath.IsPathSeparator c).
  { rewrite HasPrefix_cons, HasPrefix_nil, andb_true_r.
    reflexivity. }
  rewrite Hrooted. cbv zeta.
  destruct (filepath.IsPathSeparator c).
  - destruct (clean_loop_names (len (String c path)) true
                (drop_bytes 1 (String c path)) 0 [] (fun _ => eq_refl)
                ltac:(constructor)) as (k & segs & Hk & Hsegs & E).
    exists k, segs. split; [intros _; now apply Hk |]. split; [assumption |].
    change (join_path true (parents 0 ++ [])) with "/" in E.
    change (len (join_path true (parents 0))) with 1%nat in E.
    change (String filepath.Separator "") with "/". now rewrite E.
  - destruct (clean_loop_names (S (len (String c path))) false
                (String c path) 0 [] ltac:(discriminate)
                ltac:(constructor)) as (k & segs & Hk & Hsegs & E).
    exists k, segs. split; [discriminate |]. split; [assumption |].
    change (join_path false (parents 0 ++ [])) with "" in E.
    change (len (join_path false (parents 0))) with 0%nat in E.
    now rewrite E.
Qed.

Lemma join_parents_prefix (k : nat) (segs : list string) :
  strings.HasPrefix (join_path false (parents (S k) ++ segs)) ".." = true.
Proof.
  unfold join_path. cbn [String.append parents replicate app].
  destruct (replicate k ".." ++ segs) as [|a l]; [reflexivity |].
  rewrite concat_cons by discriminate. apply HasPrefix_app.
Qed.

Lemma join_proper_not_dot (rooted : bool) (segs : list string) :
  Forall (fun e => proper_name e = true) segs -> segs <> [] ->
  join_path rooted segs <> "." /\ join_path rooted segs <> "/" /\
  join_path rooted segs <> "".
Proof.
  intros Hall Hne. destruct segs as [|a l]; [congruence |].
  apply Forall_cons in Hall as [Ha _].
  apply proper_name_inv in Ha as (Ha & Hslash & Hdot & _).
  destruct a as [|x a]; [congruence |].
  cbn [byte_in] in Hslash. apply orb_false_elim in Hslash as [Hx _].
  unfold join_path.
  assert (E : exists t, String.concat "/" (String x a :: l) = String x (a +:+ t)).
  { destruct l as [|b l]; [exists ""; now rewrite append_nil_r |].
    rewrite concat_cons by discriminate. eexists. reflexivity. }
  destruct E as [t ->].
  destruct rooted; cbn [String.append].
  - repeat split; discriminate.
  - repeat split; try discriminate.
    + intros [= -> E]. destruct a; [now apply Hdot | discriminate].
    + intros [= -> _]. discriminate.
Qed.

Lemma segments_join (rooted : bool) (names : list string) :
  Forall (fun e => proper_name e = true) names -> names <> [] ->
  segments (join_path rooted names) = if rooted then "" :: names else names.
Proof.
  intros Hall Hne. unfold segments, join_path.
  assert (Hslash : Forall (fun s => byte_in "/" s = false) names).
  { eapply Forall_impl; [exact Hall |]. intros e H. now apply proper_name_inv in H. }
  destruct names as [|a l]; [congruence |].
  change "/" with (String "/" "") at 2 3.
  destruct rooted.
  - change (String "/" "" +:+ String.concat "/" (a :: l))
      with (String.concat (String "/" "") ("" :: a :: l)).
    apply Split_concat. now constructor.
  - cbn [String.append]. now apply Split_concat.
Qed.

Lemma normalizeRoot_names (root r : string) (tr : list event) :
  normalizeRoot root = (tr, inl r) ->
  r = "" \/
  exists names,
    names <> [] /\ Forall (fun e => proper_name e = true) names /\
    r = join_path (strings.HasPrefix root "/") names.
Proof.
  intros H. apply normalizeRoot_accepts in H as (Hpre & _ & ->).
  destruct (Clean_names root) as (k & segs & Hk & Hsegs & E). cbv zeta in E.
  destruct (len (join_path (strings.HasPrefix root "/") (parents k ++ segs)) =? 0)%nat
    eqn:Hlen.
  { rewrite E. now left. }
  assert (Hk0 : k = 0%nat).
  { destruct (strings.HasPrefix root "/") eqn:Hr; [now apply Hk |].
    destruct k as [|k]; [reflexivity |].
    rewrite E, join_parents_prefix in Hpre. discriminate. }
  subst k. cbn [parents replicate app] in E.
  destruct segs as [|a l].
  { rewrite E. left. destruct (strings.HasPrefix root "/"); reflexivity. }
  destruct (join_proper_not_dot (strings.HasPrefix root "/") (a :: l) Hsegs
              ltac:(discriminate)) as (Hdot & Hslash & _).
  right. exists (a :: l). rewrite E.
  apply String.eqb_neq in Hdot, Hslash. rewrite Hdot, Hslash. cbn [orb].
  split; [discriminate |]. split; [assumption | reflexivity].
Qed.

(** X28.  A root that passes the check is the empty string, or proper
    names joined by single slashes (from the root when it was given so):
    no name of it is empty, [.] or [..], so that a [..] that the prefix
    test lets through cannot occur further inside. *)
Theorem accepted_root_is_clean (root r : string) (tr : list event) :
  normalizeRoot root = (tr, inl r) ->
  r = "" \/
  exists names,
    names <> [] /\ Forall (fun e => proper_name e = true) names /\
    r = join_path (strings.HasPrefix root "/") names /\
    segments r = (if strings.HasPrefix root "/" then "" :: names else names) /\
    (".." ∉ segments r) /\ ("." ∉ segments r).
Proof.
  intros H.
  destruct (normalizeRoot_names _ _ _ H) as [-> | (names & Hne & Hsegs & ->)];
    [now left | right].
  exists names. split; [assumption |]. split; [assumption |].
  split; [reflexivity |].
  rewrite (segments_join _ _ Hsegs Hne). split; [reflexivity |].
  assert (Hnot : forall x, proper_name x = false ->
            x <> "" -> x ∉ (if strings.HasPrefix root "/" then "" :: names else names)).
  { intros x Hx Hnx Hin.
    assert (Hin' : x ∈ names).
    { destruct (strings.HasPrefix root "/"); [| assumption].
      apply elem_of_cons in Hin as [-> | Hin]; [congruence | assumption]. }
    rewrite Forall_forall in Hsegs. specialize (Hsegs _ Hin'). congruence. }
  split; apply Hnot; first [reflexivity | discriminate].
Qed.

Lemma accepted_root_witness :
  normalizeRoot "cmd/./tools/../project1/" = ([Println "Root: cmd/project1"], inl "cmd/project1") /\
  (".." ∉ segments "cmd/project1").
Proof.
  split; [reflexivity |].
  destruct (accepted_root_is_clean "cmd/./tools/../project1/" "cmd/project1"
              [Println "Root: cmd/project1"] eq_refl)
    as [H | (names & _ & _ & _ & _ & H & _)]; [discriminate H | exact H].
Defined.

(** X29.  A root given from the top of the file system is never refused:
    it passes the check whatever [..] it holds, and is sent cleaned (the
    root [/] itself as the empty string). *)
Theorem absolute_root_accepted (root : string) :
  strings.HasPrefix root "/" = true ->
  exists r,
    normalizeRoot root = ([Println ("Root: " +:+ r)], inl r) /\
    (r = "" \/ strings.HasPrefix r "/" = true).
Proof.
  intros Hroot.
  destruct (Clean_names root) as (k & segs & Hk & Hsegs & E). cbv zeta in E.
  rewrite Hroot in E. rewrite (Hk Hroot) in E. cbn [parents replicate app] in E.
  assert (Hclean : strings.HasPrefix (filepath.Clean root) "/" = true).
  { rewrite E. unfold join_path.
    destruct (len ("/" +:+ String.concat "/" segs) =? 0)%nat eqn:Hl;
      [apply Nat.eqb_eq in Hl; cbn in Hl; lia | reflexivity]. }
  assert (Hnot : strings.HasPrefix (filepath.Clean root) ".." = false).
  { destruct (filepath.Clean root) as [|c s]; [reflexivity |].
    rewrite HasPrefix_cons in Hclean. apply andb_true_iff in Hclean as [Hc _].
    apply Ascii.eqb_eq in Hc as ->. change ".." with (String "." ".").
    now rewrite HasPrefix_cons. }
  unfold normalizeRoot. rewrite Hnot.
  eexists. split; [reflexivity |].
  destruct (String.eqb (filepath.Clean root) "." || String.eqb (filepath.Clean root) "/");
    [now left | now right].
Qed.

Lemma absolute_root_witness :
  filepath.Clean "/../etc" = "/etc" /\
  exists r, normalizeRoot "/../etc" = ([Println ("Root: " +:+ r)], inl r).
Proof.
  split; [reflexivity |].
  destruct (absolute_root_accepted "/../etc" eq_refl) as (r & H & _).
  exists r. exact H.
Defined.


(** ** Clean paths stay as they are *)

(** The text up to the next slash is determined by the path. *)
Lemma element_unique (e e' r r' : string) :
  e +:+ r = e' +:+ r' ->
  byte_in "/" e = false -> byte_in "/" e' = false ->
  filepath.at_element_end r = true -> filepath.at_element_end r' = true ->
  e = e' /\ r = r'.
Proof.
  revert e'. induction e as [|c e IH]; intros e' E He He' Hr Hr'.
  - destruct e' as [|c' e']; [auto |].
    cbn [String.append] in E. subst r. cbn [filepath.at_element_end] in Hr.
    cbn [byte_in] in He'. apply orb_false_elim in He' as [Hc _].
    unfold filepath.IsPathSeparator, filepath.Separator in Hr.
    rewrite Ascii.eqb_sym in Hr. congruence.
  - destruct e' as [|c' e'].
    + cbn [String.append] in E. subst r'. cbn [filepath.at_element_end] in Hr'.
      cbn [byte_in] in He. apply orb_false_elim in He as [Hc _].
      unfold filepath.IsPathSeparator, filepath.Separator in Hr'.
      rewrite Ascii.eqb_sym in Hr'. congruence.
    + cbn [String.append] in E. injection E as <- E.
      cbn [byte_in] in He, He'.
      apply orb_false_elim in He as [_ He]. apply orb_false_elim in He' as [_ He'].
      destruct (IH e' E He He' Hr Hr') as [-> ->]. auto.
Qed.

Lemma not_element_end (a x : string) :
  a <> "" -> byte_in "/" a = false -> filepath.at_element_end (a +:+ x) = false.
Proof.
  destruct a as [|c a]; [congruence |]. intros _ H.
  cbn [byte_in] in H. apply orb_false_elim in H as [Hc _].
  cbn [String.append filepath.at_element_end].
  unfold filepath.IsPathSeparator, filepath.Separator. now rewrite Ascii.eqb_sym.
Qed.

(** One turn of the loop on a proper name [a] followed by the end of the
    path or a slash. *)
Lemma clean_loop_name (fuel : nat) (rooted : bool) (a x : string)
    (done : list string) (dotdot : nat) :
  proper_name a = true -> filepath.at_element_end x = true ->
  Forall (fun e => proper_name e = true) done ->
  filepath.clean_loop (S fuel) rooted (a +:+ x) (join_path rooted done) dotdot
  = filepath.clean_loop fuel rooted x (join_path rooted (done ++ [a])) dotdot.
Proof.
  intros Ha Hx Hdone.
  pose proof (proper_name_inv a Ha) as (Hne & Hslash & Hdot & Hdotdot).
  destruct a as [|c a]; [congruence |].
  cbn [byte_in] in Hslash. apply orb_false_elim in Hslash as [Hc Hslash].
  assert (Hsep : filepath.IsPathSeparator c = false).
  { unfold filepath.IsPathSeparator, filepath.Separator. now rewrite Ascii.eqb_sym. }
  assert (H1 : Ascii.eqb c "." && filepath.at_element_end (a +:+ x) = false).
  { destruct (Ascii.eqb_spec c ".") as [-> |]; [| reflexivity]. cbn [andb].
    apply not_element_end; [| assumption]. intros ->. now apply Hdot. }
  assert (H2 : forall c1 r2, a +:+ x = String c1 r2 ->
            Ascii.eqb c "." && Ascii.eqb c1 "." && filepath.at_element_end r2 = false).
  { intros c1 r2 E.
    destruct (Ascii.eqb_spec c ".") as [-> |]; [| reflexivity].
    destruct (Ascii.eqb_spec c1 ".") as [-> |]; [| reflexivity]. cbn [andb].
    destruct a as [|c1 a].
    - cbn [String.append] in E. subst x. cbn [filepath.at_element_end] in Hx.
      discriminate Hx.
    - cbn [String.append] in E. injection E as -> <-.
      cbn [byte_in] in Hslash. apply orb_false_elim in Hslash as [_ Hslash].
      apply not_element_end; [| assumption]. intros ->. now apply Hdotdot. }
  destruct (real_element_names rooted c (a +:+ x) 0 done Hdone Hsep H1 H2)
    as (e & rest' & He & _ & (E & Hend) & Hcopy).
  cbv zeta in Hcopy. cbn [parents replicate app] in Hcopy.
  apply proper_name_inv in He as (_ & He & _ & _).
  change (String c (a +:+ x)) with (String c a +:+ x) in E.
  destruct (element_unique (String c a) e x rest' E) as [<- <-];
    [cbn [byte_in]; now rewrite Hc, Hslash | assumption | assumption | assumption |].
  cbn [String.append filepath.clean_loop]. cbv zeta.
  rewrite Hsep, H1.
  destruct (a +:+ x) as [|c1 r2] eqn:Eax.
  - rewrite Hcopy. reflexivity.
  - rewrite (H2 c1 r2 eq_refl). rewrite Hcopy. reflexivity.
Qed.

Lemma clean_loop_slash (fuel : nat) (rooted : bool) (rest out : string) (dotdot : nat) :
  filepath.clean_loop (S fuel) rooted (String "/" rest) out dotdot
  = filepath.clean_loop fuel rooted rest out dotdot.
Proof. reflexivity. Qed.

(** The loop on the rest of a clean path, with or without a slash at its
    end. *)
Lemma clean_loop_forward (names : list string) :
  forall (done : list string) (fuel : nat) (rooted : bool) (trailing : string)
         (dotdot : nat),
    names <> [] ->
    Forall (fun e => proper_name e = true) names ->
    Forall (fun e => proper_name e = true) done ->
    trailing = "" \/ trailing = "/" ->
    (len ("/" +:+ String.concat "/" names +:+ trailing) <= fuel)%nat ->
    filepath.clean_loop fuel rooted ("/" +:+ String.concat "/" names +:+ trailing)
      (join_path rooted done) dotdot
    = join_path rooted (done ++ names).
Proof.
  induction names as [|a l IH]; intros done fuel rooted trailing dotdot Hne Hall Hdone Ht Hf;
    [congruence |].
  apply Forall_cons in Hall as [Ha Hl].
  destruct fuel as [|fuel]; [cbn in Hf; lia |].
  change ("/" +:+ String.concat "/" (a :: l) +:+ trailing)
    with (String "/" (String.concat "/" (a :: l) +:+ trailing)) in *.
  rewrite clean_loop_slash.
  destruct l as [|b l].
  - cbn [String.concat] in *.
    destruct fuel as [|fuel]; [cbn in Hf; rewrite len_app in Hf;
      apply proper_name_inv in Ha as (Ha & _); apply len_pos in Ha; lia |].
    rewrite clean_loop_name; try assumption.
    2:{ destruct Ht as [-> | ->]; reflexivity. }
    destruct Ht as [-> | ->]; [now destruct fuel |].
    destruct fuel as [|[|fuel]]; reflexivity.
  - rewrite concat_cons in * by discriminate.
    rewrite !append_assoc in *.
    assert (Hlen : (len a + len ("/" +:+ String.concat "/" (b :: l) +:+ trailing)
                    <= fuel)%nat).
    { change (String "/" (a +:+ "/" +:+ String.concat "/" (b :: l) +:+ trailing))
        with ("/" +:+ a +:+ "/" +:+ String.concat "/" (b :: l) +:+ trailing) in Hf.
      rewrite !len_app in Hf. rewrite !len_app. cbn [len String.length] in *. lia. }
    pose proof (proper_name_inv a Ha) as (Hpos & _). apply len_pos in Hpos.
    destruct fuel as [|fuel]; [lia |].
    rewrite clean_loop_name; try assumption; [| reflexivity].
    rewrite IH; try assumption.
    + now rewrite <- app_assoc.
    + discriminate.
    + apply Forall_app. split; [assumption | now constructor].
    + lia.
Qed.

Lemma Clean_join (rooted : bool) (names : list string) (trailing : string) :
  names <> [] -> Forall (fun e => proper_name e = true) names ->
  trailing = "" \/ trailing = "/" ->
  filepath.Clean (join_path rooted names +:+ trailing) = join_path rooted names.
Proof.
  intros Hne Hall Ht.
  destruct (join_proper_not_dot rooted names Hall Hne) as (_ & _ & Hnonempty).
  assert (Hout : (len (join_path rooted names) =? 0)%nat = false).
  { apply Nat.eqb_neq. intros H. apply Hnonempty.
    destruct (join_path rooted names); [reflexivity | discriminate]. }
  pose proof (fun fuel Hf => clean_loop_forward names [] fuel rooted trailing
                               (if rooted then 1%nat else 0%nat)
                               Hne Hall ltac:(constructor) Ht Hf) as Hfw.
  cbn [app] in Hfw.
  change ("/" +:+ String.concat "/" names +:+ trailing)
    with (String "/" (String.concat "/" names +:+ trailing)) in Hfw.
  destruct rooted.
  - unfold join_path at 1. rewrite append_assoc.
    change ("/" +:+ String.concat "/" names +:+ trailing)
      with (String "/" (String.concat "/" names +:+ trailing)).
    unfold filepath.Clean.
    change (filepath.IsPathSeparator "/") with true. cbv iota zeta.
    cbn [drop_bytes].
    change (String filepath.Separator "") with (join_path true []).
    assert (Eout : filepath.clean_loop
                     (len (String "/" (String.concat "/" names +:+ trailing))) true
                     (String.concat "/" names +:+ trailing) (join_path true []) 1
                   = join_path true names).
    { rewrite <- clean_loop_slash. apply Hfw. cbn [len String.length]. lia. }
    now rewrite !Eout, Hout.
  - unfold join_path at 1. cbn [String.append].
    assert (Hhead : exists c t,
              String.concat "/" names +:+ trailing = String c t /\
              filepath.IsPathSeparator c = false).
    { destruct names as [|a l]; [congruence |].
      apply Forall_cons in Hall as [Ha _].
      apply proper_name_inv in Ha as (Ha & Hslash & _).
      destruct a as [|c a]; [congruence |].
      cbn [byte_in] in Hslash. apply orb_false_elim in Hslash as [Hc _].
      exists c. destruct l as [|b l].
      - eexists. split; [reflexivity |].
        unfold filepath.IsPathSeparator, filepath.Separator. now rewrite Ascii.eqb_sym.
      - rewrite concat_cons by discriminate. eexists. split; [reflexivity |].
        unfold filepath.IsPathSeparator, filepath.Separator. now rewrite Ascii.eqb_sym. }
    destruct Hhead as (c & t & E & Hc). rewrite E in *.
    assert (Eout : filepath.clean_loop (S (len (String c t))) false (String c t) "" 0
                   = join_path false names).
    { change EmptyString with (join_path false []) at 1.
      rewrite <- clean_loop_slash. apply Hfw.
      cbn [len String.length]. unfold len. lia. }
    unfold filepath.Clean. rewrite Hc. cbv iota zeta.
    now rewrite !Eout, Hout.
Qed.

Lemma normalizeRoot_kept (rooted : bool) (names : list string) (trailing : string) :
  names <> [] -> Forall (fun e => proper_name e = true) names ->
  trailing = "" \/ trailing = "/" ->
  strings.HasPrefix (join_path rooted names) ".." = false ->
  normalizeRoot (join_path rooted names +:+ trailing)
  = ([Println ("Root: " +:+ join_path rooted names)],
     inl (join_path rooted names)).
Proof.
  intros Hne Hall Ht Hpre. unfold normalizeRoot.
  rewrite (Clean_join rooted names trailing Hne Hall Ht), Hpre.
  destruct (join_proper_not_dot rooted names Hall Hne) as (Hdot & Hslash & _).
  apply String.eqb_neq in Hdot, Hslash. now rewrite Hdot, Hslash.
Qed.

(** X30.  Normalization changes nothing in a clean root: proper names
    joined by single slashes, the first of which does not begin with two
    dots, are sent as they are, a slash at the end apart; and a root that
    has passed the check passes it again unchanged. *)
Theorem normalization_is_idempotent :
  (forall rooted names trailing,
     names <> [] -> Forall (fun e => proper_name e = true) names ->
     trailing = "" \/ trailing = "/" ->
     strings.HasPrefix (join_path rooted names) ".." = false ->
     normalizeRoot (join_path rooted names +:+ trailing)
     = ([Println ("Root: " +:+ join_path rooted names)],
        inl (join_path rooted names))) /\
  (forall root tr r,
     normalizeRoot root = (tr, inl r) -> normalizeRoot r = (tr, inl r)).
Proof.
  split; [exact normalizeRoot_kept |].
  intros root tr r H.
  pose proof (normalizeRoot_accepts _ _ _ H) as (_ & -> & _).
  pose proof (normalized_not_dotdot _ _ _ H) as Hpre.
  destruct (normalizeRoot_names _ _ _ H) as [-> | (names & Hne & Hall & ->)];
    [reflexivity |].
  rewrite <- (append_nil_r (join_path _ names)) at 1.
  apply normalizeRoot_kept; auto.
Qed.

Lemma normalization_witness :
  normalizeRoot "cmd/project1/" = ([Println "Root: cmd/project1"], inl "cmd/project1") /\
  normalizeRoot "cmd/project1" = ([Println "Root: cmd/project1"], inl "cmd/project1").
Proof.
  split.
  - exact (proj1 normalization_is_idempotent false ["cmd"; "project1"] "/"
             ltac:(discriminate) ltac:(repeat constructor) (or_intror eq_refl) eq_refl).
  - exact (proj2 normalization_is_idempotent "cmd/project1/"
             [Println "Root: cmd/project1"] "cmd/project1" eq_refl).
Defined.


(** ** A command line that says everything *)

(** X5.  When the repository and the commit are given on the command
    line and the root flag is set, the run executes no command: git is
    not asked for anything. *)
Theorem explicit_flags_run_no_command (env : Env) (args : list string)
    (fs : flag.FlagSet) :
  flag.Parse flagSet args = (fs, None) ->
  flag.String_ fs "repo" <> "" ->
  flag.String_ fs "commit" <> "" ->
  isFlagSet fs "root" = true ->
  commands (handler env args).1 = [] /\
  forall command, Exec command ∉ (handler env args).1.
Proof.
  intros Hp Hrepo Hcommit Hroot.
  assert (H : commands (handler env args).1 = []).
  { destruct (explicit_repo_and_commit env fs) as (Hr & Hc & _).
    destruct (no_command_after_root env) as (Hn & Hs & Ha & Hi).
    apply sublist_nil_r.
    unfold handler. rewrite run_trace.
    apply commands_bind_none.
    - unfold prepare, contextUpToRoot.
      rewrite (parseFlags_ok _ _ Hp), bind_ret, (Hr Hrepo). cbn [bind].
      rewrite (Hc Hcommit). cbn [bind].
      pose proof (commands_checkFile env fs) as Hf.
      destruct (checkFile env fs) as [t3 [file | o]]; cbn [fst] in Hf; cbn [bind];
        [| exact Hf].
      rewrite (givenRoot_explicit _ _ _ Hroot). cbn [bind ret].
      pose proof (Hn (flag.String_ fs "root")) as Hn'.
      destruct (normalizeRoot (flag.String_ fs "root")) as [t5 [root | o]];
        cbn [fst] in Hn'; cbn [bind fst app].
      2:{ lazymatch goal with
          | |- commands (Println _ :: Println _ :: ?t) = [] => change (commands t = [])
          end.
          now rewrite !commands_app, Hf, Hn'. }
      pose proof (Hs fs (flag.String_ fs "repo") (flag.String_ fs "commit") file root)
        as Hs'.
      destruct (sendRequest env fs _ _ file root) as [t6 [gz | o]];
        cbn [fst] in Hs'; cbn [bind ret fst app];
        lazymatch goal with
        | |- commands (Println _ :: Println _ :: ?t) = [] => change (commands t = [])
        end;
        now rewrite !commands_app, Hf, Hn', Hs'.
    - intros [[repo openFlag] gz].
      apply commands_bind_none; [apply Ha | intros [resp body]].
      rewrite Hi. apply sublist_nil_l. }
  split; [exact H |].
  intros command Hin. apply commands_elem in Hin. rewrite H in Hin.
  now apply elem_of_nil in Hin.
Qed.

Lemma explicit_flags_witness :
  commands
    (handler (sample_env sample_remote sample_head None (ok_response id_abc))
       ["-repo=github.com/gorilla/mux"; "-commit=0123456789abcdef0123456789abcdef01234567";
        "-root=cmd"]).1 = [].
Proof.
  exact (proj1 (explicit_flags_run_no_command
           (sample_env sample_remote sample_head None (ok_response id_abc))
           ["-repo=github.com/gorilla/mux";
            "-commit=0123456789abcdef0123456789abcdef01234567"; "-root=cmd"]
           (flag.Parse flagSet
              ["-repo=github.com/gorilla/mux";
               "-commit=0123456789abcdef0123456789abcdef01234567"; "-root=cmd"]).1
           eq_refl ltac:(discriminate) ltac:(discriminate) eq_refl)).
Defined.

(** ** The root of a dump file in the repository *)

Lemma LastIndex_last (c : ascii) (P f : string) :
  byte_in c f = false ->
  strings.LastIndex (P +:+ String c f) (String c "") = Some (len P).
Proof.
  intros Hf. induction P as [|d P IH].
  - cbn [String.append strings.LastIndex].
    rewrite (LastIndex_absent c f Hf), HasPrefix_cons, Ascii.eqb_refl.
    reflexivity.
  - cbn [String.append strings.LastIndex]. now rewrite IH.
Qed.

Lemma Dir_of_file (names : list string) (f : string) :
  byte_in "/" f = false ->
  Forall (fun e => proper_name e = true) names ->
  filepath.Dir (if bool_decide (names = []) then f
                else join_path false names +:+ "/" +:+ f)
  = if bool_decide (names = []) then "." else join_path false names.
Proof.
  intros Hf Hall. unfold filepath.Dir.
  destruct names as [|a l].
  - rewrite bool_decide_eq_true_2 by reflexivity.
    change (String filepath.Separator "") with (String "/" "").
    now rewrite (LastIndex_absent "/" f Hf).
  - rewrite bool_decide_eq_false_2 by discriminate.
    change (String filepath.Separator "") with (String "/" "").
    change ("/" +:+ f) with (String "/" f).
    rewrite (LastIndex_last "/" _ f Hf).
    replace (S (len (join_path false (a :: l))))
      with (len (join_path false (a :: l) +:+ "/"))
      by (rewrite len_app; cbn; lia).
    change (String "/" f) with ("/" +:+ f). rewrite <- append_assoc, take_app.
    apply Clean_join; [discriminate | assumption | now right].
Qed.

(** X11.  Without the [root] flag, a dump file at the top of the
    repository gives the empty root, and a dump file in a directory of
    proper names gives that directory (when its path does not begin with
    two dots). *)
Theorem default_root_is_file_directory (env : Env) (fs : flag.FlagSet)
    (file f : string) (names : list string) :
  isFlagSet fs "root" = false ->
  byte_in "/" f = false ->
  Forall (fun e => proper_name e = true) names ->
  strings.HasPrefix (join_path false names) ".." = false ->
  relative_file env file
  = inl (if bool_decide (names = []) then f else join_path false names +:+ "/" +:+ f) ->
  let root := if bool_decide (names = []) then "" else join_path false names in
  exists root0,
    givenRoot env fs file = ([git_toplevel], inl root0) /\
    normalizeRoot root0 = ([Println ("Root: " +:+ root)], inl root).
Proof.
  intros Hroot Hf Hall Hpre Hrel root.
  rewrite (givenRoot_derives env fs file Hroot), Hrel.
  rewrite (Dir_of_file names f Hf Hall).
  eexists. split; [reflexivity |]. subst root.
  destruct names as [|a l].
  - rewrite !bool_decide_eq_true_2 by reflexivity. reflexivity.
  - rewrite !bool_decide_eq_false_2 by discriminate.
    rewrite <- (append_nil_r (join_path false (a :: l))) at 1.
    apply normalizeRoot_kept; auto.
Qed.

Lemma default_root_witness :
  exists root0,
    givenRoot
      (sample_env sample_remote sample_head None (ok_response id_abc))
      (flag.Parse flagSet []).1 "./dump.lsif"
    = ([git_toplevel], inl root0) /\
    normalizeRoot root0 = ([Println "Root: "], inl "").
Proof.
  exact (default_root_is_file_directory
           (sample_env sample_remote sample_head None (ok_response id_abc))
           (flag.Parse flagSet []).1 "./dump.lsif" "dump.lsif" []
           eq_refl eq_refl ltac:(constructor) eq_refl eq_refl).
Defined.


(** ** The goroutine and the handler, in any order *)
















(** The three ends of the exchange with a server that answers 200: the
    copy succeeds; the copy fails and the server awaits the body; the
    copy fails and the server answers early. *)
Example exchange_examples :
  (exchange (sample_env sample_remote sample_head None (ok_response id_abc))
            (gzipReader None)).1
  = Received (mkResponse 200 "200 OK" (inl id_abc)) /\
  exchange (sample_env sample_remote sample_head (Some (external "is a directory"))
              (ok_response id_abc))
           (gzipReader (Some (external "is a directory")))
  = (InDo, mkCompressor (Some (external "is a directory"))
             (Send (external "is a directory")) false false) /\
  exchange (answering_early
              (sample_env sample_remote sample_head (Some (external "is a directory"))
                 (ok_response id_abc)))
           (gzipReader (Some (external "is a directory")))
  = (Returned (external "is a directory"),
     mkCompressor (Some (external "is a directory")) Finished true true) /\
  (handler (answering_early
              (sample_env sample_remote sample_head (Some (external "is a directory"))
                 (ok_response id_abc))) []).2
  = Return (Some (external "is a directory")).
Proof. repeat split; vm_compute; reflexivity. Qed.



